(** * lol-match-analyzer: a shallow embedding of [main.py]

    The script pulls a player's ranked matches of the last year from the
    Riot web API, reshapes every match ([format_match_data]) and reduces the
    matches to one row of statistics per champion ([get_match_stats]).

    Conventions of the embedding:
    - Python [int] is [Z]; a Python [float] is the rational it denotes, in
      [Q]: every float operation of the script ([/], the additions of [sum],
      [round]) computes the exact result and rounds it to binary64 with
      [b64] (53 significant bits, ties to even; the exponent range is not
      bounded);
    - a Python exception is a value of [PyError]; every function that can
      raise returns a [result];
    - an HTTP answer is a [Response]: the status code and the decoded body;
      the web services themselves are the fields of an [Api] record;
    - a [dict] whose iteration order matters is an association list in
      insertion order. *)

From Stdlib Require Import ZArith QArith Qabs List String Ascii Bool Lia Lqa.
From Stdlib Require Import Permutation Sorted DecimalString.
Import ListNotations.

Local Open Scope string_scope.
Local Open Scope list_scope.
Local Open Scope Z_scope.

(** ** Exceptions *)

Inductive PyError : Type :=
| AssertionError (status : Z)        (* [assert res.status_code == 200] *)
| UnboundLocalError (name : string)  (* a local read before any assignment *)
| ZeroDivisionError
| IndexError
| KeyError (key : string)
| ValueError                         (* [datetime.fromtimestamp] out of range *)
| OutOfFuel.                         (* the model's loop budget ran out *)

Inductive result (A : Type) : Type :=
| Ok (a : A)
| Err (e : PyError).
Arguments Ok {A} a.
Arguments Err {A} e.

Definition bind {A B : Type} (c : result A) (k : A -> result B) : result B :=
  match c with
  | Ok a => k a
  | Err e => Err e
  end.

Declare Scope py_scope.
Delimit Scope py_scope with py.
Notation "x <- c ;; k" := (bind c (fun x => k))
  (at level 61, c at next level, right associativity) : py_scope.
Local Open Scope py_scope.

(** A monadic left fold: a [for] loop whose body may raise. *)
Fixpoint foldM {A B : Type} (f : A -> B -> result A) (l : list B) (a : A)
  : result A :=
  match l with
  | [] => Ok a
  | x :: l' => a' <- f a x ;; foldM f l' a'
  end.

(** ** The web services *)

Record Response (A : Type) : Type := mkResponse
  { status_code : Z;
    json : A }.
Arguments mkResponse {A} _ _.
Arguments status_code {A} _.
Arguments json {A} _.

(** [assert res.status_code == 200, ...] followed by [res.json()]. *)
Definition assert_200 {A : Type} (res : Response A) : result A :=
  if status_code res =? 200 then Ok (json res)
  else Err (AssertionError (status_code res)).

Record LeagueEntry : Type := mkLeagueEntry
  { tier : string;
    rank : string }.

Record Account : Type := mkAccount
  { gameName : string;
    tagLine : string }.

(** One element of [info["participants"]], with the keys the script reads. *)
Record RawParticipant : Type := mkRawParticipant
  { rp_puuid : string;
    riotIdGameName : option string;
    riotIdTagline : option string;
    summonerLevel : Z;
    championId : Z;
    teamPosition : string;
    champLevel : Z;
    rp_kills : Z;
    rp_deaths : Z;
    rp_assists : Z;
    goldEarned : Z;
    totalMinionsKilled : Z;
    neutralMinionsKilled : Z;
    visionScore : Z;
    timeCCingOthers : Z;
    totalDamageDealt : Z;
    totalDamageDealtToChampions : Z;
    totalDamageTaken : Z;
    teamId : Z }.

(** The match payload: [metadata["matchId"]] and the keys of [info]. *)
Record RawMatch : Type := mkRawMatch
  { matchId : string;
    gameVersion : string;
    gameStartTimestamp : Z;       (* milliseconds *)
    gameDuration : Z;             (* seconds *)
    teams_win : list bool;        (* [info["teams"][k]["win"]] *)
    participants : list RawParticipant }.

Record Api : Type := mkApi
  { (* GET /riot/account/v1/accounts/by-puuid/{puuid} *)
    account_by_puuid : string -> Response Account;
    (* GET /lol/league/v4/entries/by-puuid/{puuid} *)
    league_entries : string -> Response (list LeagueEntry);
    (* GET /lol/match/v5/matches/by-puuid/{puuid}/ids with startTime,
       an optional endTime, type=ranked, start=0, count=100 *)
    match_ids_by_puuid : string -> Z -> option Z -> Response (list string);
    (* GET /lol/match/v5/matches/{match_id} *)
    match_by_id : string -> Response RawMatch;
    (* ddragon: versions.json and champion.json as id -> name *)
    versions : Response (list string);
    champion_json : string -> Response (list (Z * string));
    (* [datetime.fromtimestamp(ms / 1000).astimezone().strftime(...)]: the
       platform's clock functions, which raise on a timestamp they cannot
       represent (a year after 9999, for one) *)
    strftime : Z -> result string }.

(** ** Reference data *)

Definition get_latest_patch (api : Api) (patch : string) : result string :=
  vs <- assert_200 (versions api) ;;
  match vs with
  | v :: _ => Ok v
  | [] => Err IndexError
  end.

Definition get_champion_data (api : Api) (patch : string)
  : result (list (Z * string)) :=
  assert_200 (champion_json api patch).

Fixpoint champion_lookup (champion_id : Z) (data : list (Z * string))
  : option string :=
  match data with
  | [] => None
  | (k, name) :: data' =>
      (* a later key of the JSON object overwrites an earlier one *)
      match champion_lookup champion_id data' with
      | Some n => Some n
      | None => if k =? champion_id then Some name else None
      end
  end.

Definition get_champion_name (api : Api) (champion_id : Z) (patch : string)
  : result string :=
  latest_patch <- get_latest_patch api patch ;;
  champion_data <- get_champion_data api latest_patch ;;
  Ok (match champion_lookup champion_id champion_data with
      | None => ""
      | Some name => name
      end).

(** ** Account look-ups *)

Definition get_summoner_name (api : Api) (puuid : string) : result string :=
  acc <- assert_200 (account_by_puuid api puuid) ;;
  Ok (gameName acc ++ "#" ++ tagLine acc)%string.

Definition get_summoner_rank (api : Api) (puuid : string) : result string :=
  entries <- assert_200 (league_entries api puuid) ;;
  match entries with
  | [] => Ok ""
  | data :: _ => Ok (tier data ++ " " ++ rank data)%string
  end.

Definition get_match_data (api : Api) (match_id : string) : result RawMatch :=
  assert_200 (match_by_id api match_id).

(** ** [format_match_data] *)

Record Champion : Type := mkChampion
  { id : Z;
    name : string;
    position : string;
    level : Z;
    kills : Z;
    deaths : Z;
    assists : Z;
    gold : Z;
    cs : Z;
    vision_score : Z;
    crowd_control_score : Z;
    damage_dealt : Z;
    damage_dealt_to_champions : Z;
    damage_taken : Z }.

Record Summoner : Type := mkSummoner
  { puuid : string;
    summoner_name : string;
    summoner_level : Z;
    champion : Champion }.

(** [teams] is the two-element list [[], []] of the source: [fst] is index 0
    and [snd] index 1. Team indices are the Python ints 0 and 1. *)
Record MatchData : Type := mkMatchData
  { match_id : string;
    start_time : string;
    duration : Z;
    patch : string;
    wining_team : nat;
    teams : list Summoner * list Summoner }.

Definition team (m : MatchData) (team_id : nat) : list Summoner :=
  match team_id with
  | O => fst (teams m)
  | _ => snd (teams m)
  end.

(** [s.split(".")] *)
Fixpoint split_dot (s : string) : list string :=
  match s with
  | EmptyString => [EmptyString]
  | String c s' =>
      if Ascii.eqb c "."%char then EmptyString :: split_dot s'
      else match split_dot s' with
           | h :: t => String c h :: t
           | [] => [String c EmptyString]
           end
  end.

Definition lower_ascii (c : ascii) : ascii :=
  let n := nat_of_ascii c in
  if (Nat.leb 65 n && Nat.leb n 90)%bool then ascii_of_nat (n + 32) else c.

Fixpoint lower (s : string) : string :=
  match s with
  | EmptyString => EmptyString
  | String c s' => String (lower_ascii c) (lower s')
  end.

Definition format_participant (api : Api) (patch : string) (p : RawParticipant)
  : result Summoner :=
  summoner_name <-
    match riotIdGameName p, riotIdTagline p with
    | Some n, Some t => Ok (n ++ "#" ++ t)%string
    | _, _ => get_summoner_name api (rp_puuid p)
    end ;;
  champion_name <- get_champion_name api (championId p) patch ;;
  Ok {| puuid := rp_puuid p;
        summoner_name := summoner_name;
        summoner_level := summonerLevel p;
        champion :=
          {| id := championId p;
             name := champion_name;
             position := if String.eqb (lower (teamPosition p)) "utility"
                         then "support" else lower (teamPosition p);
             level := champLevel p;
             kills := rp_kills p;
             deaths := rp_deaths p;
             assists := rp_assists p;
             gold := goldEarned p;
             cs := totalMinionsKilled p + neutralMinionsKilled p;
             vision_score := visionScore p;
             crowd_control_score := timeCCingOthers p;
             damage_dealt := totalDamageDealt p;
             damage_dealt_to_champions := totalDamageDealtToChampions p;
             damage_taken := totalDamageTaken p |} |}.

(** The participant loop: [formatted_match_data["teams"][team].append(summoner)]
    with [team = 0 if p["teamId"] == 100 else 1]. *)
Definition add_participant (api : Api) (patch : string)
    (ts : list Summoner * list Summoner) (p : RawParticipant)
  : result (list Summoner * list Summoner) :=
  summoner <- format_participant api patch p ;;
  Ok (if teamId p =? 100 then ((fst ts ++ [summoner])%list, snd ts)
      else (fst ts, (snd ts ++ [summoner])%list)).

Definition format_match_data (api : Api) (match_data : RawMatch)
  : result MatchData :=
  let patch := String.concat "." (firstn 2 (split_dot (gameVersion match_data))) in
  (* the dict display evaluates its values in order: "start_time" comes
     before "wining_team", and both before the participant loop *)
  start <- strftime api (gameStartTimestamp match_data) ;;
  win0 <- match teams_win match_data with
          | w :: _ => Ok w
          | [] => Err IndexError
          end ;;
  ts <- foldM (add_participant api patch) (participants match_data) ([], []) ;;
  Ok {| match_id := matchId match_data;
        start_time := start;
        duration := gameDuration match_data / 60;
        patch := patch;
        wining_team := if (win0 : bool) then 0%nat else 1%nat;
        teams := ts |}.

(** ** [get_match_ids] *)

Section GetMatchIds.
Variable api : Api.
Variable puuid_ : string.
Variable one_year_ago : Z.

(** [get_match_data(match_id=last_batch[-1])["info"]["gameStartTimestamp"] // 1000] *)
Definition last_start_time (last_batch : list string) : result Z :=
  match rev last_batch with
  | [] => Err IndexError
  | last_id :: _ =>
      md <- get_match_data api last_id ;;
      Ok (gameStartTimestamp md / 1000)
  end.

(** The [while last_match_start_time > one_year_ago] loop; [fuel] bounds the
    number of iterations the model follows. *)
Fixpoint paging_loop (fuel : nat) (match_ids : list string)
    (last_match_start_time : Z) : result (list string) :=
  if last_match_start_time >? one_year_ago then
    match fuel with
    | O => Err OutOfFuel
    | S fuel' =>
        last_batch <-
          assert_200 (match_ids_by_puuid api puuid_ one_year_ago
                        (Some last_match_start_time)) ;;
        match last_batch with
        | [] => Ok match_ids                      (* [break] *)
        | _ :: _ =>
            t <- last_start_time last_batch ;;
            paging_loop fuel' (match_ids ++ last_batch)%list t
        end
    end
  else Ok match_ids.

Definition get_match_ids_fuel (fuel : nat) : result (list string) :=
  last_batch <-
    assert_200 (match_ids_by_puuid api puuid_ one_year_ago None) ;;
  match last_batch with
  | [] => Ok []
  | _ :: _ =>
      t <- last_start_time last_batch ;;
      paging_loop fuel ([] ++ last_batch)%list t
  end.
End GetMatchIds.

(** ** [get_match_stats] *)

(** *** Floats

    [round_half_even num den] is the integer nearest to [num / den]
    ([0 < den]), a tie going to the even one. *)
Definition round_half_even (num den : Z) : Z :=
  let q := num / den in
  let r := num mod den in
  match 2 * r ?= den with
  | Lt => q
  | Gt => q + 1
  | Eq => if Z.even q then q else q + 1
  end.

(** The binary exponent of [a / d] ([0 < a], [0 < d]): the [e] with
    [2^e <= a / d < 2^(e+1)]. *)
Definition b64_exponent (a d : Z) : Z :=
  if d <=? a then Z.log2 (a / d) else - Z.log2_up ((d + a - 1) / a).

(** [a / d] rounded to 53 significant bits: with [s = 52 - e] the quotient
    is [m / 2^s] for a real [m] in [[2^52, 2^53)], and [m] is rounded to an
    integer. *)
Definition b64_abs (a d : Z) : Q :=
  let s := 52 - b64_exponent a d in
  if 0 <=? s
  then (round_half_even (a * 2 ^ s) d # Z.to_pos (2 ^ s))%Q
  else inject_Z (round_half_even a (d * 2 ^ (- s)) * 2 ^ (- s)).

(** The binary64 number nearest to [x], in lowest terms. *)
Definition b64 (x : Q) : Q :=
  match Qnum x with
  | 0 => 0%Q
  | Zpos a => Qred (b64_abs (Zpos a) (Zpos (Qden x)))
  | Zneg a => Qred (- b64_abs (Zpos a) (Zpos (Qden x)))
  end.

(** Python's [a / b] on two ints: the correctly rounded quotient. *)
Definition py_div (a b : Z) : result Q :=
  if b =? 0 then Err ZeroDivisionError
  else Ok (b64 (inject_Z a / inject_Z b)).

(** [sum(xs)] on a list of floats: the additions from left to right, each
    one rounded. (CPython 3.12 and later carry along a correction for the
    rounding errors of the partial sums; the plain additions are modelled.) *)
Definition py_sum (xs : list Q) : Q :=
  fold_left (fun acc x => b64 (acc + x)) xs 0%Q.

(** [sum(xs) / len(xs)]: the length is converted to a float first. *)
Definition py_mean (xs : list Q) : result Q :=
  match xs with
  | [] => Err ZeroDivisionError
  | _ :: _ =>
      Ok (b64 (py_sum xs / b64 (inject_Z (Z.of_nat (List.length xs)))))
  end.

(** [round(x, 2)] on a float: the multiple of 1/100 nearest to the exact
    value of [x], a tie going to the even one, and of that decimal the
    nearest float. *)
Definition py_round2 (x : Q) : Q :=
  b64 (round_half_even (Qnum x * 100) (Zpos (Qden x)) # 100).

(** The value type of [tmp], the per-champion accumulator. *)
Module Bucket.
Record t : Type := mk
  { wins : Z;
    matches : Z;
    kills : Z;
    deaths : Z;
    assists : Z;
    cs : Z;
    gold_share : list Q;
    damage_dealt_to_champions_share : list Q;
    damage_taken_share : list Q;
    vision_score_share : list Q;
    kill_participation : list Q }.

(** The [defaultdict] factory. *)
Definition default : t := mk 0 0 0 0 0 0 [] [] [] [] [].
End Bucket.

(** [tmp] keeps its keys in insertion order, like a Python dict. *)
Definition tmp_t : Type := list (string * Bucket.t).

Fixpoint tmp_find (key : string) (tmp : tmp_t) : option Bucket.t :=
  match tmp with
  | [] => None
  | (k, b) :: tmp' => if String.eqb k key then Some b else tmp_find key tmp'
  end.

(** [tmp[key]]: a missing key is created with the default bucket. *)
Definition tmp_get (key : string) (tmp : tmp_t) : Bucket.t :=
  match tmp_find key tmp with
  | Some b => b
  | None => Bucket.default
  end.

(** Store the updated bucket: in place for a known key, at the end for a
    new one. *)
Fixpoint tmp_set (key : string) (b : Bucket.t) (tmp : tmp_t) : tmp_t :=
  match tmp with
  | [] => [(key, b)]
  | (k, b0) :: tmp' =>
      if String.eqb k key then (k, b) :: tmp'
      else (k, b0) :: tmp_set key b tmp'
  end.

Record Totals : Type := mkTotals
  { team_gold : Z;
    team_damage_dealt_to_champions : Z;
    team_damage_taken : Z;
    team_vision_score : Z;
    team_kills : Z }.

Definition add_to_totals (t : Totals) (summoner : Summoner) : Totals :=
  {| team_gold := team_gold t + gold (champion summoner);
     team_damage_dealt_to_champions :=
       team_damage_dealt_to_champions t
       + damage_dealt_to_champions (champion summoner);
     team_damage_taken := team_damage_taken t + damage_taken (champion summoner);
     team_vision_score := team_vision_score t + vision_score (champion summoner);
     team_kills := team_kills t + kills (champion summoner) |}.

Definition team_totals (roster : list Summoner) : Totals :=
  fold_left add_to_totals roster (mkTotals 0 0 0 0 0).

(** The second "early surrender" test, on the four totals it looks at. *)
Definition degenerate (t : Totals) : bool :=
  (team_damage_dealt_to_champions t =? 0)
  || (team_damage_taken t =? 0)
  || (team_vision_score t =? 0)
  || (team_kills t =? 0).

(** The local variables of [get_match_stats] that live across iterations.
    [None] is a name that was never assigned. *)
Record Locals : Type := mkLocals
  { l_tmp : tmp_t;
    l_valid_matches : Z;
    l_puuid_team : option nat;
    l_start_time : option string;
    l_end_time : option string }.

Definition init_locals : Locals := mkLocals [] 0 None None None.

Definition read_local {A : Type} (name : string) (v : option A) : result A :=
  match v with
  | Some a => Ok a
  | None => Err (UnboundLocalError name)
  end.

Section LoopBody.
Variable puuid_ : string.

(** [for team_id in range(2): for summoner in teams[team_id]: ...] *)
Definition find_team (m : MatchData) (puuid_team : option nat) : option nat :=
  fold_left
    (fun pt team_id =>
       fold_left
         (fun pt summoner =>
            if String.eqb (puuid summoner) puuid_ then Some team_id else pt)
         (team m team_id) pt)
    [0%nat; 1%nat] puuid_team.

(** The updates of [tmp[champion_name]] for one roster entry of the player.
    An exception aborts the whole call, so the counters bumped before a
    failing division are never observed. *)
Definition record_summoner (puuid_team : nat) (m : MatchData) (tot : Totals)
    (b : Bucket.t) (c : Champion) : result Bucket.t :=
  let wins := if Nat.eqb puuid_team (wining_team m)
              then Bucket.wins b + 1 else Bucket.wins b in
  g <- py_div (gold c) (team_gold tot) ;;
  dd <- py_div (damage_dealt_to_champions c)
               (team_damage_dealt_to_champions tot) ;;
  dt <- py_div (damage_taken c) (team_damage_taken tot) ;;
  vs <- py_div (vision_score c) (team_vision_score tot) ;;
  kp <- py_div (kills c + assists c) (team_kills tot) ;;
  Ok {| Bucket.wins := wins;
        Bucket.matches := Bucket.matches b + 1;
        Bucket.kills := Bucket.kills b + kills c;
        Bucket.deaths := Bucket.deaths b + deaths c;
        Bucket.assists := Bucket.assists b + assists c;
        Bucket.cs := Bucket.cs b + cs c;
        Bucket.gold_share := Bucket.gold_share b ++ [g];
        Bucket.damage_dealt_to_champions_share :=
          Bucket.damage_dealt_to_champions_share b ++ [dd];
        Bucket.damage_taken_share := Bucket.damage_taken_share b ++ [dt];
        Bucket.vision_score_share := Bucket.vision_score_share b ++ [vs];
        Bucket.kill_participation := Bucket.kill_participation b ++ [kp] |}.

(** [for summoner in match_data["teams"][puuid_team]: if summoner["puuid"] == puuid: ...] *)
Definition collect_step (puuid_team : nat) (m : MatchData) (tot : Totals)
    (tmp : tmp_t) (summoner : Summoner) : result tmp_t :=
  if String.eqb (puuid summoner) puuid_ then
    let champion_name := name (champion summoner) in
    b <- record_summoner puuid_team m tot (tmp_get champion_name tmp)
           (champion summoner) ;;
    Ok (tmp_set champion_name b tmp)
  else Ok tmp.

Definition collect (puuid_team : nat) (m : MatchData) (tot : Totals)
    (tmp : tmp_t) : result tmp_t :=
  foldM (collect_step puuid_team m tot) (team m puuid_team) tmp.

(** One iteration of the match loop, on the formatted match: [n] is
    [len(match_ids)] and [i] the index from [enumerate]. *)
Definition loop_body (n i : Z) (m : MatchData) (st : Locals) : result Locals :=
  let end_time := if i =? 0 then Some (start_time m) else l_end_time st in
  let start_time := if i =? n - 1 then Some (start_time m)
                    else l_start_time st in
  if duration m <=? 5 then
    Ok (mkLocals (l_tmp st) (l_valid_matches st) (l_puuid_team st)
                 start_time end_time)
  else
    let puuid_team := find_team m (l_puuid_team st) in
    t <- read_local "puuid_team" puuid_team ;;
    let tot := team_totals (team m t) in
    if degenerate tot then
      Ok (mkLocals (l_tmp st) (l_valid_matches st) puuid_team
                   start_time end_time)
    else
      tmp <- collect t m tot (l_tmp st) ;;
      Ok (mkLocals tmp (l_valid_matches st + 1) puuid_team
                   start_time end_time).
End LoopBody.

(** The [for i, match_id in enumerate(match_ids)] loop, from index [i] on. *)
Fixpoint match_loop (api : Api) (puuid_ : string) (n i : Z)
    (match_ids : list string) (st : Locals) : result Locals :=
  match match_ids with
  | [] => Ok st
  | match_id :: rest =>
      match_data <- get_match_data api match_id ;;
      match_data <- format_match_data api match_data ;;
      st' <- loop_body puuid_ n i match_data st ;;
      match_loop api puuid_ n (i + 1) rest st'
  end.

(** One value of [match_stats["champions"]]. *)
Module Row.
Record t : Type := mk
  { wins : Z;
    matches : Z;
    win_rate : Q;
    avg_kills : Q;
    avg_deaths : Q;
    avg_assists : Q;
    avg_cs : Q;
    avg_gold_share : Q;
    avg_damage_dealt_to_champions_share : Q;
    avg_damage_taken_share : Q;
    avg_vision_score_share : Q;
    avg_kill_participation : Q }.
End Row.

Definition finalize_bucket (b : Bucket.t) : result Row.t :=
  win_rate <- py_div (Bucket.wins b) (Bucket.matches b) ;;
  avg_kills <- py_div (Bucket.kills b) (Bucket.matches b) ;;
  avg_deaths <- py_div (Bucket.deaths b) (Bucket.matches b) ;;
  avg_assists <- py_div (Bucket.assists b) (Bucket.matches b) ;;
  avg_cs <- py_div (Bucket.cs b) (Bucket.matches b) ;;
  avg_gold_share <- py_mean (Bucket.gold_share b) ;;
  avg_dd <- py_mean (Bucket.damage_dealt_to_champions_share b) ;;
  avg_dt <- py_mean (Bucket.damage_taken_share b) ;;
  avg_vs <- py_mean (Bucket.vision_score_share b) ;;
  avg_kp <- py_mean (Bucket.kill_participation b) ;;
  Ok {| Row.wins := Bucket.wins b;
        Row.matches := Bucket.matches b;
        Row.win_rate := py_round2 win_rate;
        Row.avg_kills := py_round2 avg_kills;
        Row.avg_deaths := py_round2 avg_deaths;
        Row.avg_assists := py_round2 avg_assists;
        Row.avg_cs := py_round2 avg_cs;
        Row.avg_gold_share := py_round2 avg_gold_share;
        Row.avg_damage_dealt_to_champions_share := py_round2 avg_dd;
        Row.avg_damage_taken_share := py_round2 avg_dt;
        Row.avg_vision_score_share := py_round2 avg_vs;
        Row.avg_kill_participation := py_round2 avg_kp |}.

(** [for key in tmp: match_stats["champions"][key] = {...}] *)
Definition finalize_step (rows : list (string * Row.t)) (kv : string * Bucket.t)
  : result (list (string * Row.t)) :=
  row <- finalize_bucket (snd kv) ;;
  Ok (rows ++ [(fst kv, row)]).

Definition finalize (tmp : tmp_t) : result (list (string * Row.t)) :=
  foldM finalize_step tmp [].

(** The sort key [lambda x: (x[1]["matches"], x[1]["wins"])] and the order of
    Python tuples of ints. *)
Definition sort_key (x : string * Row.t) : Z * Z :=
  (Row.matches (snd x), Row.wins (snd x)).

Definition key_ltb (a b : Z * Z) : bool :=
  (fst a <? fst b) || ((fst a =? fst b) && (snd a <? snd b)).

(** [sorted(items, key=..., reverse=True)]. The sort is stable, also with
    [reverse=True]: items with equal keys keep their order. A stable sort has
    one possible output, which insertion from the right computes: an item
    moves behind exactly the items whose key is strictly greater. *)
Fixpoint insert_desc {A : Type} (key : A -> Z * Z) (x : A) (l : list A)
  : list A :=
  match l with
  | [] => [x]
  | y :: l' =>
      if key_ltb (key x) (key y) then y :: insert_desc key x l'
      else x :: l
  end.

Definition sorted_reverse {A : Type} (key : A -> Z * Z) (l : list A) : list A :=
  fold_right (insert_desc key) [] l.

Module Metadata.
Record t : Type := mk
  { name : string;
    rank : string;
    start_time : string;
    end_time : string;
    unique_champions : Z;
    matches : Z }.
End Metadata.

Record MatchStats : Type := mkMatchStats
  { metadata : Metadata.t;
    champions : list (string * Row.t) }.

Definition get_match_stats (api : Api) (puuid_ : string)
    (match_ids : list string) : result MatchStats :=
  st <- match_loop api puuid_ (Z.of_nat (List.length match_ids)) 0 match_ids
          init_locals ;;
  summoner <- get_summoner_name api puuid_ ;;
  rank <- get_summoner_rank api puuid_ ;;
  start_time <- read_local "start_time" (l_start_time st) ;;
  end_time <- read_local "end_time" (l_end_time st) ;;
  rows <- finalize (l_tmp st) ;;
  Ok {| metadata :=
          {| Metadata.name := summoner;
             Metadata.rank := rank;
             Metadata.start_time := start_time;
             Metadata.end_time := end_time;
             Metadata.unique_champions := Z.of_nat (List.length (l_tmp st));
             Metadata.matches := l_valid_matches st |};
        champions := sorted_reverse sort_key rows |}.

(** ** The match service as the fetcher assumes it

    The service is not part of the script. This is its contract as the
    pagination relies on it: the listing answers with the ids of the player's
    ranked matches whose start second lies in the window from [startTime]
    (included) to [endTime] (excluded), newest first, at most 100 of them;
    the match endpoint answers with the stored match of that id. The store is
    the list of all matches the service knows. *)

Module Store.
Record entry : Type := mkEntry
  { raw : RawMatch;
    ranked : bool }.

Definition t : Type := list entry.

Definition start_sec (e : entry) : Z := gameStartTimestamp (raw e) / 1000.

Definition played_by (puuid_ : string) (e : entry) : bool :=
  existsb (fun p => String.eqb (rp_puuid p) puuid_) (participants (raw e)).

Definition in_window (startTime : Z) (endTime : option Z) (e : entry) : bool :=
  (startTime <=? start_sec e)
  && match endTime with
     | None => true
     | Some t => start_sec e <? t
     end.

Definition id_of (e : entry) : string := matchId (raw e).

(** Newest first: descending by start timestamp. *)
Definition ts_key (e : entry) : Z * Z := (gameStartTimestamp (raw e), 0).

Definition newest_first (s : list entry) : list entry :=
  sorted_reverse ts_key s.

(** The ranked matches of a player. *)
Definition mine (puuid_ : string) (s : t) : list entry :=
  filter (fun e => ranked e && played_by puuid_ e)%bool s.

(** One page of the listing: [start=0], [count=100]. *)
Definition page (s : t) (puuid_ : string) (startTime : Z)
    (endTime : option Z) : list entry :=
  firstn 100
    (filter (in_window startTime endTime) (newest_first (mine puuid_ s))).

(** All of them from [startTime] on, newest first. *)
Definition since (s : t) (puuid_ : string) (startTime : Z) : list entry :=
  filter (in_window startTime None) (newest_first (mine puuid_ s)).

Definition list_ids (s : t) (puuid_ : string) (startTime : Z)
    (endTime : option Z) : list string :=
  map id_of (page s puuid_ startTime endTime).

Definition blank : RawMatch := mkRawMatch "" "" 0 0 [] [].

Definition find_match (s : t) (match_id : string) : Response RawMatch :=
  match find (fun e => String.eqb (id_of e) match_id) s with
  | Some e => mkResponse 200 (raw e)
  | None => mkResponse 404 blank
  end.

(** The script run against this service; the other collaborators are those
    of [rest]. *)
Definition api (s : t) (rest : Api) : Api :=
  {| account_by_puuid := account_by_puuid rest;
     league_entries := league_entries rest;
     match_ids_by_puuid := fun p a b => mkResponse 200 (list_ids s p a b);
     match_by_id := find_match s;
     versions := versions rest;
     champion_json := champion_json rest;
     strftime := strftime rest |}.
End Store.

(** [one_year_ago = int((datetime.now() - timedelta(days=365)).timestamp())],
    with the clock reading [now] in seconds. One iteration of the paging loop
    per stored match is always enough (see [get_match_ids_stored]). *)
Definition get_match_ids (s : Store.t) (rest : Api) (now : Z) (puuid_ : string)
  : result (list string) :=
  get_match_ids_fuel (Store.api s rest) puuid_ (now - 365 * 86400)
    (S (List.length s)).

(** ** The entry point *)

(** [get_puuid]: the account service by riot id answers with the puuid. *)
Definition get_puuid (by_riot_id : string -> string -> Response string)
    (name tag : string) : result string :=
  assert_200 (by_riot_id name tag).

(** [save_to_json] writes its argument to [output.json]; the model keeps the
    value that is dumped. *)
Definition save_to_json (data : MatchStats) : MatchStats := data.

(** [analyze_player_match_history], run against a stored match service with
    the clock at [now]; the value is the content of [output.json]. *)
Definition analyze_player_match_history (s : Store.t) (rest : Api)
    (by_riot_id : string -> string -> Response string) (now : Z)
    (name tag : string) : result MatchStats :=
  puuid <- get_puuid by_riot_id name tag ;;
  match_ids <- get_match_ids s rest now puuid ;;
  result <- get_match_stats (Store.api s rest) puuid match_ids ;;
  Ok (save_to_json result).

(** ** Sample data

    A small service with three players on two teams, used to run the
    definitions on concrete inputs. *)

Module Demo.
Definition player (p : string) (champ team_id k d a : Z)
    (g dmg taken vis : Z) : RawParticipant :=
  {| rp_puuid := p;
     riotIdGameName := Some p;
     riotIdTagline := Some "NA1";
     summonerLevel := 30;
     championId := champ;
     teamPosition := "UTILITY";
     champLevel := 18;
     rp_kills := k;
     rp_deaths := d;
     rp_assists := a;
     goldEarned := g;
     totalMinionsKilled := 150;
     neutralMinionsKilled := 10;
     visionScore := vis;
     timeCCingOthers := 5;
     totalDamageDealt := 2 * dmg;
     totalDamageDealtToChampions := dmg;
     totalDamageTaken := taken;
     teamId := team_id |}.

Definition game (mid : string) (start_ms seconds : Z) (blue_won : bool)
    (ps : list RawParticipant) : Store.entry :=
  {| Store.raw :=
       {| matchId := mid;
          gameVersion := "15.11.682.1234";
          gameStartTimestamp := start_ms;
          gameDuration := seconds;
          teams_win := [blue_won; negb blue_won];
          participants := ps |};
     Store.ranked := true |}.

(** The services with no match stored. Its clock prints the milliseconds
    and, like [datetime], knows no year before 1 or after 9999. *)
Definition offline : Api :=
  {| account_by_puuid := fun _ => mkResponse 200 (mkAccount "AD KING" "LYON");
     league_entries := fun _ => mkResponse 200 [mkLeagueEntry "GOLD" "II"];
     match_ids_by_puuid := fun _ _ _ => mkResponse 200 [];
     match_by_id := fun _ => mkResponse 404 Store.blank;
     versions := mkResponse 200 ["15.11.1"; "15.10.1"];
     champion_json := fun _ => mkResponse 200 [(103, "Ahri"); (222, "Jinx");
                                                (64, "Lee Sin")];
     strftime := fun ms =>
       if (-62135596800000 <=? ms) && (ms <? 253402300800000)
       then Ok (NilEmpty.string_of_int (Z.to_int ms))
       else Err ValueError |}.

Definition unranked : Api :=
  {| account_by_puuid := account_by_puuid offline;
     league_entries := fun _ => mkResponse 200 [];
     match_ids_by_puuid := match_ids_by_puuid offline;
     match_by_id := match_by_id offline;
     versions := versions offline;
     champion_json := champion_json offline;
     strftime := strftime offline |}.

(** A regular game: "me" on Ahri, 5/2/7, a fifth of the team's gold. *)
Definition g1 : Store.entry :=
  game "NA1_1" 1700000300500 1800 true
    [ player "me" 103 100 5 2 7 3000 9000 4000 20;
      player "ally" 222 100 15 3 4 12000 21000 6000 30;
      player "foe" 64 200 5 20 1 9000 8000 30000 25 ].

(** A remake: four minutes long. *)
Definition g2 : Store.entry :=
  game "NA1_2" 1700000200000 240 false
    [ player "me" 222 100 1 0 0 500 300 100 1;
      player "foe" 64 200 0 1 0 400 100 300 1 ].

(** A game whose team earned no gold at all. *)
Definition g3 : Store.entry :=
  game "NA1_3" 1700000100000 1500 true
    [ player "me" 103 100 1 0 0 0 10 10 1;
      player "foe" 64 200 0 1 0 700 10 10 1 ].

(** A game "me" did not play in. *)
Definition g4 : Store.entry :=
  game "NA1_4" 1700000000000 1500 false
    [ player "ally" 222 100 2 1 0 800 10 10 1;
      player "foe" 64 200 1 2 0 700 10 10 1 ].

(** More assists than the team has kills. *)
Definition g5 : Store.entry :=
  game "NA1_5" 1699999900000 1500 false
    [ player "me" 103 100 0 1 2 800 10 10 1;
      player "ally" 222 100 1 1 0 800 10 10 1;
      player "foe" 64 200 2 1 0 700 10 10 1 ].

(** A game of "me" on a second champion. *)
Definition g6 : Store.entry :=
  game "NA1_6" 1699999800000 1500 false
    [ player "me" 222 100 3 1 0 5000 10 10 1;
      player "foe" 64 200 1 4 0 700 10 10 1 ].

Definition store : Store.t := [g3; g1; g5; g2; g4; g6].

Definition api : Api := Store.api store offline.

Definition fmt (e : Store.entry) : MatchData :=
  match format_match_data api (Store.raw e) with
  | Ok m => m
  | Err _ => mkMatchData "" "" 0 "" 0 ([], [])
  end.

(** A long history: 250 games of "me", one every hour, so that the
    listing needs several pages. *)
Definition hourly (k : nat) : Store.entry :=
  game ("NA1_" ++ NilEmpty.string_of_uint (Nat.to_uint (1000 + k)))%string
    ((1700000000 - 3600 * Z.of_nat k) * 1000 + 500) 1800 true
    [ player "me" 103 100 5 2 7 3000 9000 4000 20;
      player "foe" 64 200 2 5 1 9000 8000 30000 25 ].

Definition long_store : Store.t := map hourly (seq 0 250).

Definition season : list string := ["NA1_6"; "NA1_1"; "NA1_5"].

Definition report : MatchStats :=
  match get_match_stats api "me" season with
  | Ok r => r
  | Err _ => mkMatchStats (Metadata.mk "" "" "" "" 0 0) []
  end.

Definition after_two : Locals :=
  match match_loop api "me" 2 0 ["NA1_6"; "NA1_1"] init_locals with
  | Ok st => st
  | Err _ => init_locals
  end.

Definition blank_row : string * Row.t :=
  ("", Row.mk 0 0 0 0 0 0 0 0 0 0 0 0).
End Demo.

(** ** Vocabulary of the statements *)

(** The player has an entry on this roster. *)
Definition on_roster (p : string) (roster : list Summoner) : bool :=
  existsb (fun s => String.eqb (puuid s) p) roster.

(** The first two lines of the loop body: fetch the match, then format it. *)
Definition fetch (api : Api) (match_id : string) : result MatchData :=
  match_data <- get_match_data api match_id ;;
  format_match_data api match_data.

(** [x] may stand before [y] in a list sorted by descending key. *)
Definition desc {A : Type} (key : A -> Z * Z) (x y : A) : Prop :=
  key_ltb (key x) (key y) = false.

(** [a] stands somewhere before [b] in [l]. *)
Definition before {A : Type} (a b : A) (l : list A) : Prop :=
  exists l1 l2 l3, l = l1 ++ a :: l2 ++ b :: l3.

(** A property of every bucket of the accumulator. *)
Definition all_buckets (P : Bucket.t -> Prop) (tmp : tmp_t) : Prop :=
  Forall (fun kv => P (snd kv)) tmp.

(** Recording an entry of player [p] in match [m] takes a bucket with [P],
    or a fresh one, to a bucket with [P]. *)
Definition records_keep (p : string) (P : Bucket.t -> Prop) (m : MatchData)
  : Prop :=
  forall t s b b',
    In s (team m t) ->
    String.eqb (puuid s) p = true ->
    P b \/ b = Bucket.default ->
    record_summoner t m (team_totals (team m t)) b (champion s) = Ok b' ->
    P b'.

Definition counters_ok (b : Bucket.t) : Prop :=
  0 <= Bucket.wins b <= Bucket.matches b /\ 1 <= Bucket.matches b.

Definition in_unit (q : Q) : Prop := (0 <= q /\ q <= 1)%Q.

(** The four shares of a bucket lie in the unit interval and its kill
    participations are not negative. *)
Definition shares_ok (b : Bucket.t) : Prop :=
  Forall in_unit (Bucket.gold_share b)
  /\ Forall in_unit (Bucket.damage_dealt_to_champions_share b)
  /\ Forall in_unit (Bucket.damage_taken_share b)
  /\ Forall in_unit (Bucket.vision_score_share b)
  /\ Forall (Qle 0) (Bucket.kill_participation b).

(** The values that the share lists of [b'] hold after those of [b]. *)
Definition appends (b b' : Bucket.t) (g dd dt vs kp : list Q) : Prop :=
  Bucket.gold_share b' = Bucket.gold_share b ++ g
  /\ Bucket.damage_dealt_to_champions_share b' =
       Bucket.damage_dealt_to_champions_share b ++ dd
  /\ Bucket.damage_taken_share b' = Bucket.damage_taken_share b ++ dt
  /\ Bucket.vision_score_share b' = Bucket.vision_score_share b ++ vs
  /\ Bucket.kill_participation b' = Bucket.kill_participation b ++ kp.

(** The numbers the shares are made of are not negative. *)
Definition nonneg_stats (s : Summoner) : bool :=
  (0 <=? gold (champion s))
  && (0 <=? damage_dealt_to_champions (champion s))
  && (0 <=? damage_taken (champion s))
  && (0 <=? vision_score (champion s))
  && (0 <=? kills (champion s))
  && (0 <=? assists (champion s)).

Definition nonneg_match (m : MatchData) : bool :=
  forallb nonneg_stats (team m 0) && forallb nonneg_stats (team m 1).

(** The player's kills and assists together do not exceed the kills of the
    team the entry is on. *)
Definition kp_bounded_on (p : string) (roster : list Summoner) : bool :=
  forallb (fun s =>
             negb (String.eqb (puuid s) p)
             || (kills (champion s) + assists (champion s)
                 <=? team_kills (team_totals roster)))
          roster.

Definition kp_bounded (p : string) (m : MatchData) : bool :=
  kp_bounded_on p (team m 0) && kp_bounded_on p (team m 1).

Definition totals_le (a b : Totals) : Prop :=
  team_gold a <= team_gold b
  /\ team_damage_dealt_to_champions a <= team_damage_dealt_to_champions b
  /\ team_damage_taken a <= team_damage_taken b
  /\ team_vision_score a <= team_vision_score b
  /\ team_kills a <= team_kills b.

(** Match [a] did not start before match [b], by the timestamps the service
    stores for the two ids. *)
Definition newer_or_same (s : Store.t) (a b : string) : Prop :=
  exists ea eb,
    In ea s /\ In eb s /\ Store.id_of ea = a /\ Store.id_of eb = b
    /\ gameStartTimestamp (Store.raw eb) <= gameStartTimestamp (Store.raw ea).

(** The entry starts before second [T]. *)
Definition older_than (T : Z) (e : Store.entry) : bool :=
  Store.start_sec e <? T.

(** What the fetcher has gathered when it returns: entries of the player's
    year, newest first, no id twice, and, when no two of the player's
    matches start in the same second, all of them. *)
Definition listed (s : Store.t) (p : string) (S0 : Z)
    (acc : list Store.entry) : Prop :=
  StronglySorted (desc Store.ts_key) acc
  /\ (forall e, In e acc -> In e (Store.since s p S0))
  /\ NoDup (map Store.id_of acc)
  /\ (NoDup (map Store.start_sec (Store.mine p s)) ->
      forall e, In e (Store.since s p S0) -> In e acc).

(** The same between two pages, [T] being the start second of the oldest
    entry gathered so far. *)
Definition paging_inv (s : Store.t) (p : string) (S0 : Z)
    (acc : list Store.entry) (T : Z) : Prop :=
  StronglySorted (desc Store.ts_key) acc
  /\ (forall e, In e acc -> In e (Store.since s p S0))
  /\ NoDup (map Store.id_of acc)
  /\ (forall e, In e acc -> T <= Store.start_sec e)
  /\ (NoDup (map Store.start_sec (Store.mine p s)) ->
      forall e, In e (Store.since s p S0) ->
                In e acc \/ Store.start_sec e < T).

(** The numerator and the denominator of [a / d] scaled by [2^s]. *)
Definition scaled_num (a s : Z) : Z := if 0 <=? s then a * 2 ^ s else a.
Definition scaled_den (d s : Z) : Z := if 0 <=? s then d else d * 2 ^ (- s).

(** A decision procedure for [NoDup] on strings. *)
Fixpoint nodupb (l : list string) : bool :=
  match l with
  | [] => true
  | x :: l' => negb (existsb (String.eqb x) l') && nodupb l'
  end.

(** What an iteration hands to the next one, the window variables apart. *)
Definition carried (st : Locals) : tmp_t * Z * option nat :=
  (l_tmp st, l_valid_matches st, l_puuid_team st).

Definition map_result {A B : Type} (f : A -> B) (r : result A) : result B :=
  match r with
  | Ok a => Ok (f a)
  | Err e => Err e
  end.

(** ** Vocabulary of the further properties *)

(** The participant is on the blue side: team id 100, index 0. *)
Definition blue (p : RawParticipant) : bool := teamId p =? 100.

Definition red (p : RawParticipant) : bool := negb (blue p).

(** The formatted entry holds the numbers of the raw participant. *)
Definition carries (p : RawParticipant) (s : Summoner) : Prop :=
  puuid s = rp_puuid p
  /\ summoner_level s = summonerLevel p
  /\ id (champion s) = championId p
  /\ level (champion s) = champLevel p
  /\ kills (champion s) = rp_kills p
  /\ deaths (champion s) = rp_deaths p
  /\ assists (champion s) = rp_assists p
  /\ gold (champion s) = goldEarned p
  /\ cs (champion s) = totalMinionsKilled p + neutralMinionsKilled p
  /\ vision_score (champion s) = visionScore p
  /\ crowd_control_score (champion s) = timeCCingOthers p
  /\ damage_dealt (champion s) = totalDamageDealt p
  /\ damage_dealt_to_champions (champion s) = totalDamageDealtToChampions p
  /\ damage_taken (champion s) = totalDamageTaken p.

(** The sum of one raw number over a list of participants. *)
Definition total_of (f : RawParticipant -> Z) (ps : list RawParticipant) : Z :=
  fold_right (fun p acc => f p + acc) 0 ps.

(** The raw participant carries both halves of the riot id. *)
Definition has_riot_id (p : RawParticipant) : bool :=
  match riotIdGameName p, riotIdTagline p with
  | Some _, Some _ => true
  | _, _ => false
  end.

(** No character of the string is a dot. *)
Fixpoint dotless (s : string) : bool :=
  match s with
  | EmptyString => true
  | String c s' => negb (Ascii.eqb c ".") && dotless s'
  end.

(** The sum of one number over a roster. *)
Definition roster_sum (f : Champion -> Z) (roster : list Summoner) : Z :=
  fold_right (fun s acc => f (champion s) + acc) 0 roster.

(** How many entries of the roster are the player's. *)
Definition appearances (p : string) (roster : list Summoner) : nat :=
  List.length (filter (fun s => String.eqb (puuid s) p) roster).

(** The sum of the [matches] counters of the buckets. *)
Definition total_matches (tmp : tmp_t) : Z :=
  fold_right (fun kv acc => Bucket.matches (snd kv) + acc) 0 tmp.

Definition total_row_matches (rows : list (string * Row.t)) : Z :=
  fold_right (fun kv acc => Row.matches (snd kv) + acc) 0 rows.

(** A roster that passes the second filter has earned some gold. *)
Definition gold_ok (roster : list Summoner) : bool :=
  degenerate (team_totals roster)
  || negb (team_gold (team_totals roster) =? 0).

(** The iteration on the match cannot raise: the match is short, or the
    player is on a roster and no roster divides by a gold total of zero. *)
Definition playable (p : string) (m : MatchData) : bool :=
  (duration m <=? 5)
  || ((on_roster p (team m 0) || on_roster p (team m 1))
      && gold_ok (team m 0) && gold_ok (team m 1)).

(** The bucket has counted a match and every share list has a value. *)
Definition filled (b : Bucket.t) : Prop :=
  1 <= Bucket.matches b
  /\ Bucket.gold_share b <> []
  /\ Bucket.damage_dealt_to_champions_share b <> []
  /\ Bucket.damage_taken_share b <> []
  /\ Bucket.vision_score_share b <> []
  /\ Bucket.kill_participation b <> [].

Definition key_eqb (a b : Z * Z) : bool :=
  (fst a =? fst b) && (snd a =? snd b).

Definition bucket_key (kv : string * Bucket.t) : Z * Z :=
  (Bucket.matches (snd kv), Bucket.wins (snd kv)).

(** The index of the player's team: 1 when the player is on the second
    roster, else 0. *)
Definition team_of (p : string) (m : MatchData) : nat :=
  if on_roster p (team m 1) then 1%nat else 0%nat.

(** The match passes both filters, the second on the player's team. *)
Definition qualifies (p : string) (m : MatchData) : bool :=
  negb (duration m <=? 5)
  && negb (degenerate (team_totals (team m (team_of p m)))).

(** The match is short or the player is on one of its rosters. *)
Definition present (p : string) (m : MatchData) : bool :=
  (duration m <=? 5) || on_roster p (team m 0) || on_roster p (team m 1).

(** The match is short or the player has one entry in it. *)
Definition once (p : string) (m : MatchData) : bool :=
  (duration m <=? 5)
  || Nat.eqb (appearances p (team m 0) + appearances p (team m 1)) 1.

(** ** More sample data *)

Module Samples.
(** The account service is down. *)
Definition account_down : Api :=
  {| account_by_puuid := fun _ => mkResponse 503 (mkAccount "" "");
     league_entries := league_entries Demo.offline;
     match_ids_by_puuid := match_ids_by_puuid Demo.offline;
     match_by_id := match_by_id Demo.offline;
     versions := versions Demo.offline;
     champion_json := champion_json Demo.offline;
     strftime := strftime Demo.offline |}.

(** A participant of an old match: no riot id in the payload. *)
Definition nameless : RawParticipant :=
  {| rp_puuid := "old";
     riotIdGameName := None;
     riotIdTagline := Some "NA1";
     summonerLevel := 30;
     championId := 999;
     teamPosition := "";
     champLevel := 11;
     rp_kills := 1;
     rp_deaths := 1;
     rp_assists := 1;
     goldEarned := 100;
     totalMinionsKilled := 10;
     neutralMinionsKilled := 0;
     visionScore := 1;
     timeCCingOthers := 0;
     totalDamageDealt := 20;
     totalDamageDealtToChampions := 10;
     totalDamageTaken := 10;
     teamId := 200 |}.

Definition old_match : RawMatch :=
  {| matchId := "NA1_0";
     gameVersion := "9.1";
     gameStartTimestamp := 1500000000000;
     gameDuration := 1200;
     teams_win := [false; true];
     participants := [Demo.player "me" 103 100 1 1 1 100 10 10 1; nameless] |}.

(** The state after one more match, played on Ahri. *)
Definition after_g5 : Locals :=
  match loop_body "me" 3 2 (Demo.fmt Demo.g5) Demo.after_two with
  | Ok st => st
  | Err _ => init_locals
  end.

Definition blank_summoner : Summoner :=
  mkSummoner "" "" 0 (mkChampion 0 "" "" 0 0 0 0 0 0 0 0 0 0 0).

(** The riot id service knows "AD KING#LYON" as "me" and everybody else as
    "stranger". *)
Definition by_riot_id (name tag : string) : Response string :=
  mkResponse 200
    (if String.eqb name "AD KING" && String.eqb tag "LYON" then "me"
     else "stranger").

(** A history on which every match of "me" can be processed. *)
Definition history : Store.t := [Demo.g5; Demo.g1; Demo.g2; Demo.g6; Demo.g4].

(** 101 ranked games of "me" that all start in the same second. *)
Definition burst : Store.t :=
  map (fun k =>
         Demo.game
           ("NA1_" ++ NilEmpty.string_of_uint (Nat.to_uint (2000 + k)))%string
           1700000000500 1800 true
           [Demo.player "me" 103 100 5 2 7 3000 9000 4000 20])
      (seq 0 101).

(** A payload from the year 10000, with no team entry. *)
Definition far_future : RawMatch :=
  {| matchId := "NA1_9";
     gameVersion := "15.11";
     gameStartTimestamp := 253402300800000;
     gameDuration := 1200;
     teams_win := [];
     participants := [nameless] |}.

(** The state after "NA1_1" as the only match. *)
Definition after_first : Locals :=
  match loop_body "me" 1 0 (Demo.fmt Demo.g1) init_locals with
  | Ok st => st
  | Err _ => init_locals
  end.

(** A payload with a negative number: the gold of "ally" is -100, so the
    team of "me" has a gold total of 100. *)
Definition g7 : Store.entry :=
  Demo.game "NA1_7" 1699999700000 1500 true
    [ Demo.player "me" 103 100 1 0 0 200 10 10 1;
      Demo.player "ally" 222 100 1 1 0 (-100) 10 10 1;
      Demo.player "foe" 64 200 1 2 0 700 10 10 1 ].

Definition refunds : Store.t := [g7].

(** Two matches of "me", on Jinx and then on Ahri, both lost. *)
Definition tied : list string := ["NA1_6"; "NA1_5"].

Definition after_tied : Locals :=
  match match_loop Demo.api "me" 2 0 tied init_locals with
  | Ok st => st
  | Err _ => init_locals
  end.

Definition tied_report : MatchStats :=
  match get_match_stats Demo.api "me" tied with
  | Ok r => r
  | Err _ => mkMatchStats (Metadata.mk "" "" "" "" 0 0) []
  end.

(** The state after "NA1_1", a match of "me" on team 0. *)
Definition after_g1 : Locals :=
  match match_loop Demo.api "me" 2 0 ["NA1_1"] init_locals with
  | Ok st => st
  | Err _ => init_locals
  end.

(** The state after "NA1_4", a match without "me", on top of it. *)
Definition after_g4 : Locals :=
  match loop_body "me" 2 1 (Demo.fmt Demo.g4) after_g1 with
  | Ok st => st
  | Err _ => init_locals
  end.

Definition outcome : MatchStats :=
  match analyze_player_match_history history Demo.offline by_riot_id
          1700000400 "AD KING" "LYON" with
  | Ok r => r
  | Err _ => mkMatchStats (Metadata.mk "" "" "" "" 0 0) []
  end.
End Samples.

(** * Properties *)

(** ** The error monad *)

Lemma bind_Ok_inv {A B : Type} (c : result A) (k : A -> result B) (b : B) :
  bind c k = Ok b -> exists a, c = Ok a /\ k a = Ok b.
Proof. destruct c as [a|e]; simpl; intros H; [eauto | discriminate]. Qed.

Ltac inv_bind H :=
  let a := fresh "a" in
  let Ha := fresh "Ha" in
  apply bind_Ok_inv in H; destruct H as (a & Ha & H).

Lemma foldM_invariant {A B : Type} (P : A -> Prop) (f : A -> B -> result A) :
  (forall a x a', P a -> f a x = Ok a' -> P a') ->
  forall l a a', P a -> foldM f l a = Ok a' -> P a'.
Proof.
  intros Hstep l. induction l as [|x l IH]; simpl; intros a a' Pa H.
  - now inversion H; subst.
  - inv_bind H. eauto.
Qed.

(** ** Floats

    Rounding to an integer. *)

Lemma round_half_even_cases (n d : Z) :
  0 < d ->
  let k := round_half_even n d in
  (k = n / d /\ 2 * (n mod d) <= d) \/ (k = n / d + 1 /\ d <= 2 * (n mod d)).
Proof.
  intros Hd. cbn zeta. unfold round_half_even.
  destruct (Z.compare_spec (2 * (n mod d)) d) as [E | E | E].
  - destruct (Z.even (n / d)); [left | right]; split; lia.
  - left. split; lia.
  - right. split; lia.
Qed.

Lemma round_half_even_near (n d : Z) :
  0 < d ->
  2 * Z.abs (round_half_even n d * d - n) <= d.
Proof.
  intros Hd.
  pose proof (Z.div_mod n d ltac:(lia)) as E.
  pose proof (Z.mod_pos_bound n d Hd) as Hr.
  destruct (round_half_even_cases n d Hd) as [[-> H] | [-> H]]; nia.
Qed.

Lemma round_half_even_tie (n d : Z) :
  0 < d ->
  2 * Z.abs (round_half_even n d * d - n) = d ->
  Z.even (round_half_even n d) = true.
Proof.
  intros Hd.
  pose proof (Z.div_mod n d ltac:(lia)) as E.
  pose proof (Z.mod_pos_bound n d Hd) as Hr.
  unfold round_half_even.
  destruct (Z.compare_spec (2 * (n mod d)) d) as [C | C | C]; intros H.
  - destruct (Z.even (n / d)) eqn:Ev; [assumption|].
    rewrite Z.even_add, Ev. reflexivity.
  - nia.
  - nia.
Qed.

Lemma round_half_even_le (n d j : Z) :
  0 < d -> n <= j * d -> round_half_even n d <= j.
Proof.
  intros Hd H.
  pose proof (Z.div_mod n d ltac:(lia)) as E.
  pose proof (Z.mod_pos_bound n d Hd) as Hr.
  destruct (round_half_even_cases n d Hd) as [[-> C] | [-> C]]; nia.
Qed.

Lemma round_half_even_ge (n d j : Z) :
  0 < d -> j * d <= n -> j <= round_half_even n d.
Proof.
  intros Hd H.
  pose proof (Z.div_mod n d ltac:(lia)) as E.
  pose proof (Z.mod_pos_bound n d Hd) as Hr.
  destruct (round_half_even_cases n d Hd) as [[-> C] | [-> C]]; nia.
Qed.

Lemma round_half_even_below_half (n d j : Z) :
  0 < d -> Z.even j = true -> 2 * n <= (2 * j + 1) * d ->
  round_half_even n d <= j.
Proof.
  intros Hd Hj H.
  pose proof (Z.div_mod n d ltac:(lia)) as E.
  pose proof (Z.mod_pos_bound n d Hd) as Hr.
  assert (Hq : n / d <= j) by nia.
  unfold round_half_even.
  destruct (Z.compare_spec (2 * (n mod d)) d) as [C | C | C].
  - destruct (Z.even (n / d)) eqn:Ev; [lia|].
    assert (n / d <> j) by (intros Hnj; rewrite Hnj in Ev; congruence). lia.
  - lia.
  - nia.
Qed.

Lemma b64_exponent_spec (a d : Z) :
  0 < a -> 0 < d ->
  let s := 52 - b64_exponent a d in
  2 ^ 52 * scaled_den d s <= scaled_num a s < 2 ^ 53 * scaled_den d s.
Proof.
  intros Ha Hd. cbn zeta. unfold b64_exponent, scaled_num, scaled_den.
  destruct (Z.leb_spec d a) as [Hda | Hda].
  - assert (Hq : 0 < a / d) by (apply Z.div_str_pos; lia).
    pose proof (Z.log2_spec _ Hq) as [Hlo Hhi].
    pose proof (Z.log2_nonneg (a / d)) as He.
    set (e := Z.log2 (a / d)) in *.
    pose proof (Z.div_mod a d ltac:(lia)) as E.
    pose proof (Z.mod_pos_bound a d Hd) as Hr.
    replace (2 ^ Z.succ e) with (2 * 2 ^ e) in Hhi
      by (rewrite Z.pow_succ_r; lia).
    assert (Hpe : 0 < 2 ^ e) by (apply Z.pow_pos_nonneg; lia).
    assert (L1 : d * 2 ^ e <= a) by nia.
    assert (L2 : a < d * (2 * 2 ^ e)) by nia.
    destruct (Z.leb_spec 0 (52 - e)) as [Hs | Hs].
    + assert (Hp : 2 ^ 52 = 2 ^ (52 - e) * 2 ^ e).
      { rewrite <- Z.pow_add_r by lia. f_equal. lia. }
      assert (Hps : 0 < 2 ^ (52 - e)) by (apply Z.pow_pos_nonneg; lia).
      replace (2 ^ 53) with (2 * 2 ^ 52) by reflexivity.
      rewrite Hp. nia.
    + replace (- (52 - e)) with (e - 52) by lia.
      assert (Hp : 2 ^ e = 2 ^ 52 * 2 ^ (e - 52)).
      { rewrite <- Z.pow_add_r by lia. f_equal. lia. }
      replace (2 ^ 53) with (2 * 2 ^ 52) by reflexivity.
      nia.
  - set (c := (d + a - 1) / a).
    pose proof (Z.div_mod (d + a - 1) a ltac:(lia)) as E.
    pose proof (Z.mod_pos_bound (d + a - 1) a Ha) as Hr.
    fold c in E.
    assert (Hc : 1 < c) by nia.
    pose proof (Z.log2_up_spec _ Hc) as [Hlo Hhi].
    pose proof (Z.log2_up_pos _ Hc) as Hk.
    set (k := Z.log2_up c) in *.
    replace (2 ^ k) with (2 * 2 ^ Z.pred k) in *
      by (rewrite <- Z.pow_succ_r by lia; f_equal; lia).
    assert (Hpk : 0 < 2 ^ Z.pred k) by (apply Z.pow_pos_nonneg; lia).
    destruct (Z.leb_spec 0 (52 - - k)) as [Hs | Hs]; [| lia].
    replace (52 - - k) with (52 + Z.succ (Z.pred k)) by lia.
    rewrite Z.pow_add_r, Z.pow_succ_r by lia.
    replace (2 ^ 53) with (2 * 2 ^ 52) by reflexivity.
    assert (0 < 2 ^ 52) by reflexivity.
    nia.
Qed.

(** The rounded value against integers and on the unit interval. *)

Lemma pow2_pos (s : Z) : 0 <= s -> 0 < 2 ^ s.
Proof. intros H. apply Z.pow_pos_nonneg; lia. Qed.

Lemma b64_abs_nonneg (a d : Z) : 0 < a -> 0 < d -> (0 <= b64_abs a d)%Q.
Proof.
  intros Ha Hd. unfold b64_abs.
  pose proof (b64_exponent_spec a d Ha Hd) as H. cbn zeta in H.
  set (s := 52 - b64_exponent a d) in *.
  unfold scaled_num, scaled_den in H.
  destruct (Z.leb_spec 0 s) as [Hs | Hs].
  - pose proof (pow2_pos s Hs) as Hp.
    assert (0 <= round_half_even (a * 2 ^ s) d).
    { apply round_half_even_ge; lia. }
    unfold Qle. cbn [Qnum Qden inject_Z]. lia.
  - assert (Hp : 0 < 2 ^ (- s)) by (apply pow2_pos; lia).
    assert (0 <= round_half_even a (d * 2 ^ (- s))).
    { apply round_half_even_ge; lia. }
    unfold Qle. cbn [Qnum Qden inject_Z]. nia.
Qed.

Lemma b64_abs_le (a d n : Z) :
  0 < a -> 0 < d -> n <= 2 ^ 53 -> a <= n * d ->
  (b64_abs a d <= inject_Z n)%Q.
Proof.
  intros Ha Hd Hn Hx. unfold b64_abs.
  pose proof (b64_exponent_spec a d Ha Hd) as H. cbn zeta in H.
  set (s := 52 - b64_exponent a d) in *.
  unfold scaled_num, scaled_den in H.
  destruct (Z.leb_spec 0 s) as [Hs | Hs].
  - pose proof (pow2_pos s Hs) as Hp.
    assert (round_half_even (a * 2 ^ s) d <= n * 2 ^ s).
    { apply round_half_even_le; [lia | nia]. }
    unfold Qle. cbn [Qnum Qden inject_Z]. rewrite Z2Pos.id by lia. lia.
  - assert (Hp : 0 < 2 ^ (- s)) by (apply pow2_pos; lia).
    assert (Hs1 : - s = 1).
    { assert (2 ^ (- s) < 2 ^ 2).
      { change (2 ^ 2) with 4. change (2 ^ 52) with 4503599627370496 in H.
        change (2 ^ 53) with 9007199254740992 in Hn. nia. }
      apply Z.pow_lt_mono_r_iff in H0; lia. }
    rewrite Hs1 in *. change (2 ^ 1) with 2 in *.
    assert (n = 2 ^ 53).
    { change (2 ^ 52) with 4503599627370496 in H.
      change (2 ^ 53) with 9007199254740992 in *. nia. }
    subst n.
    assert (round_half_even a (d * 2) <= 2 ^ 52).
    { apply round_half_even_le; [lia|].
      change (2 ^ 52) with 4503599627370496.
      change (2 ^ 53) with 9007199254740992 in *. lia. }
    unfold Qle. cbn [Qnum Qden inject_Z].
    change (2 ^ 52) with 4503599627370496 in *.
    change (2 ^ 53) with 9007199254740992 in *. lia.
Qed.

Lemma b64_abs_ge (a d n : Z) :
  0 < a -> 0 < d -> n <= 2 ^ 53 -> n * d <= a ->
  (inject_Z n <= b64_abs a d)%Q.
Proof.
  intros Ha Hd Hn Hx. unfold b64_abs.
  pose proof (b64_exponent_spec a d Ha Hd) as H. cbn zeta in H.
  set (s := 52 - b64_exponent a d) in *.
  unfold scaled_num, scaled_den in H.
  destruct (Z.leb_spec 0 s) as [Hs | Hs].
  - pose proof (pow2_pos s Hs) as Hp.
    assert (n * 2 ^ s <= round_half_even (a * 2 ^ s) d).
    { apply round_half_even_ge; [lia | nia]. }
    unfold Qle. cbn [Qnum Qden inject_Z]. rewrite Z2Pos.id by lia. lia.
  - assert (Hp : 2 <= 2 ^ (- s)).
    { change 2 with (2 ^ 1) at 1. apply Z.pow_le_mono_r; lia. }
    assert (2 ^ 52 <= round_half_even a (d * 2 ^ (- s))).
    { apply round_half_even_ge; [nia | lia]. }
    unfold Qle. cbn [Qnum Qden inject_Z].
    change (2 ^ 52) with 4503599627370496 in *.
    change (2 ^ 53) with 9007199254740992 in *. nia.
Qed.

Lemma b64_abs_stagnates (a d : Z) :
  0 < a -> 0 < d -> a <= (2 ^ 53 + 1) * d ->
  (b64_abs a d <= inject_Z (2 ^ 53))%Q.
Proof.
  intros Ha Hd Hx.
  destruct (Z.le_gt_cases a (2 ^ 53 * d)) as [Hle | Hgt].
  { apply b64_abs_le; lia. }
  unfold b64_abs.
  pose proof (b64_exponent_spec a d Ha Hd) as H. cbn zeta in H.
  set (s := 52 - b64_exponent a d) in *.
  unfold scaled_num, scaled_den in H.
  destruct (Z.leb_spec 0 s) as [Hs | Hs].
  - pose proof (pow2_pos s Hs) as Hp. exfalso. nia.
  - assert (Hp : 0 < 2 ^ (- s)) by (apply pow2_pos; lia).
    assert (Hs1 : - s = 1).
    { assert (2 ^ (- s) < 2 ^ 2).
      { change (2 ^ 2) with 4. change (2 ^ 52) with 4503599627370496 in H.
        change (2 ^ 53) with 9007199254740992 in *. nia. }
      apply Z.pow_lt_mono_r_iff in H0; lia. }
    rewrite Hs1 in *. change (2 ^ 1) with 2 in *.
    assert (round_half_even a (d * 2) <= 2 ^ 52).
    { apply round_half_even_below_half; [lia | reflexivity |].
      change (2 ^ 52) with 4503599627370496.
      change (2 ^ 53) with 9007199254740992 in *. lia. }
    unfold Qle. cbn [Qnum Qden inject_Z].
    change (2 ^ 52) with 4503599627370496 in *.
    change (2 ^ 53) with 9007199254740992 in *. lia.
Qed.

Lemma b64_nonneg (x : Q) : (0 <= x)%Q -> (0 <= b64 x)%Q.
Proof.
  destruct x as [n d]. unfold b64, Qle. cbn [Qnum Qden]. intros H.
  destruct n as [| a | a]; [cbn; lia | | lia].
  change (0 * QDen (Qred (b64_abs (Z.pos a) (Z.pos d))) <=
          Qnum (Qred (b64_abs (Z.pos a) (Z.pos d))) * 1)
    with (0 <= Qred (b64_abs (Z.pos a) (Z.pos d)))%Q.
  rewrite Qred_correct. apply b64_abs_nonneg; lia.
Qed.

Lemma b64_le_int (x : Q) (n : Z) :
  0 <= n <= 2 ^ 53 -> (x <= inject_Z n)%Q -> (b64 x <= inject_Z n)%Q.
Proof.
  intros Hn Hx. destruct x as [a d]. unfold b64. cbn [Qnum Qden].
  unfold Qle in Hx. cbn in Hx.
  destruct a as [| a | a].
  - unfold Qle. cbn [Qnum Qden inject_Z]. lia.
  - rewrite Qred_correct. apply b64_abs_le; lia.
  - rewrite Qred_correct.
    pose proof (b64_abs_nonneg (Z.pos a) (Z.pos d) ltac:(lia) ltac:(lia)) as H.
    apply Qle_trans with 0%Q; [lra |]. unfold Qle. cbn [Qnum Qden inject_Z]. lia.
Qed.

Lemma b64_ge_int (x : Q) (n : Z) :
  0 <= n <= 2 ^ 53 -> (inject_Z n <= x)%Q -> (inject_Z n <= b64 x)%Q.
Proof.
  intros Hn Hx. destruct x as [a d]. unfold b64. cbn [Qnum Qden].
  unfold Qle in Hx. cbn in Hx.
  destruct a as [| a | a].
  - unfold Qle. cbn [Qnum Qden inject_Z]. lia.
  - rewrite Qred_correct. apply b64_abs_ge; lia.
  - lia.
Qed.

Lemma b64_stagnates (x : Q) :
  (x <= inject_Z (2 ^ 53 + 1))%Q -> (b64 x <= inject_Z (2 ^ 53))%Q.
Proof.
  intros Hx. destruct x as [a d]. unfold b64. cbn [Qnum Qden].
  unfold Qle in Hx. cbn -[Z.pow] in Hx.
  destruct a as [| a | a].
  - unfold Qle. cbn [Qnum Qden inject_Z]. lia.
  - rewrite Qred_correct. apply b64_abs_stagnates; lia.
  - rewrite Qred_correct.
    pose proof (b64_abs_nonneg (Z.pos a) (Z.pos d) ltac:(lia) ltac:(lia)) as H.
    apply Qle_trans with 0%Q; [lra |]. unfold Qle. cbn [Qnum Qden inject_Z]. lia.
Qed.

Lemma b64_unit (x : Q) : in_unit x -> in_unit (b64 x).
Proof.
  intros [H0 H1]. split.
  - now apply b64_nonneg.
  - apply (b64_le_int x 1); [cbn; lia | exact H1].
Qed.


(** [round(x, 2)] of an [x] in the unit interval: the hundredth [k / 100]
    nearest to [x], the even [k] on a tie. *)
Lemma py_round2_hundredth (x : Q) :
  in_unit x ->
  let k := round_half_even (Qnum x * 100) (Zpos (Qden x)) in
  0 <= k <= 100
  /\ (Qabs ((k # 100) - x) <= 1 # 200)%Q
  /\ ((Qabs ((k # 100) - x) == 1 # 200)%Q -> Z.even k = true).
Proof.
  intros [H0 H1]. destruct x as [n d]. cbn [Qnum Qden]. cbn zeta.
  unfold Qle in H0, H1. cbn in H0, H1.
  pose proof (round_half_even_near (n * 100) (Z.pos d) ltac:(lia)) as Hn.
  pose proof (round_half_even_tie (n * 100) (Z.pos d) ltac:(lia)) as Ht.
  assert (Hlo : 0 <= round_half_even (n * 100) (Z.pos d))
    by (apply round_half_even_ge; lia).
  assert (Hhi : round_half_even (n * 100) (Z.pos d) <= 100)
    by (apply round_half_even_le; lia).
  set (k := round_half_even (n * 100) (Z.pos d)) in *. clearbody k.
  split; [lia|]. split.
  - apply Qabs_Qle_condition.
    unfold Qle, Qminus, Qplus, Qopp. cbn [Qnum Qden].
    rewrite !Pos2Z.inj_mul. split; nia.
  - intros Htie. apply Ht. revert Htie.
    apply Qabs_case; intros _ E;
      unfold Qeq, Qminus, Qplus, Qopp in E; cbn [Qnum Qden] in E;
      rewrite !Pos2Z.inj_mul in E; nia.
Qed.

Lemma py_round2_unit (x : Q) : in_unit x -> in_unit (py_round2 x).
Proof.
  intros Hx. destruct (py_round2_hundredth x Hx) as (Hk & _).
  unfold py_round2. apply b64_unit. split; unfold Qle; cbn [Qnum Qden]; lia.
Qed.

Lemma py_round2_nonneg (x : Q) : (0 <= x)%Q -> (0 <= py_round2 x)%Q.
Proof.
  intros Hx. unfold py_round2. apply b64_nonneg.
  destruct x as [n d]. unfold Qle in Hx |- *. cbn [Qnum Qden] in *.
  assert (0 <= round_half_even (n * 100) (Z.pos d))
    by (apply round_half_even_ge; lia).
  lia.
Qed.

(** The running total of [sum] over numbers of the unit interval stays
    between 0 and the count of the numbers added. *)
Lemma py_sum_bounds (xs : list Q) :
  Forall in_unit xs ->
  forall (acc : Q) (n : Z),
    0 <= n -> (0 <= acc)%Q -> (acc <= inject_Z (Z.min n (2 ^ 53)))%Q ->
    let total := fold_left (fun acc x => b64 (acc + x)) xs acc in
    (0 <= total)%Q
    /\ (total <= inject_Z (Z.min (n + Z.of_nat (List.length xs)) (2 ^ 53)))%Q.
Proof.
  induction 1 as [| x xs [Hx0 Hx1] Hxs IH]; intros acc n Hn H0 H1; cbn zeta.
  - cbn [fold_left List.length]. rewrite Z.add_0_r. split; assumption.
  - cbn [fold_left].
    assert (Hstep0 : (0 <= b64 (acc + x))%Q) by (apply b64_nonneg; lra).
    assert (Hstep1 : (b64 (acc + x) <= inject_Z (Z.min (n + 1) (2 ^ 53)))%Q).
    { destruct (Z.le_gt_cases (n + 1) (2 ^ 53)) as [Hsmall | Hbig].
      - rewrite Z.min_l in H1 |- * by lia.
        apply b64_le_int; [lia|]. rewrite inject_Z_plus. cbn [inject_Z] in *.
        change (inject_Z 1) with 1%Q. lra.
      - rewrite Z.min_r in H1 |- * by lia.
        apply b64_stagnates. rewrite inject_Z_plus.
        change (inject_Z 1) with 1%Q. lra. }
    destruct (IH (b64 (acc + x)) (n + 1) ltac:(lia) Hstep0 Hstep1)
      as [Hlo Hhi].
    split; [exact Hlo|].
    replace (n + Z.of_nat (List.length (x :: xs)))
      with (n + 1 + Z.of_nat (List.length xs))
      by (cbn [List.length]; lia).
    exact Hhi.
Qed.

Lemma py_sum_nonneg (xs : list Q) :
  Forall (Qle 0) xs ->
  forall acc, (0 <= acc)%Q ->
    (0 <= fold_left (fun acc x => b64 (acc + x)) xs acc)%Q.
Proof.
  induction 1 as [| x xs Hx Hxs IH]; intros acc H0; cbn [fold_left].
  - assumption.
  - apply IH. apply b64_nonneg. lra.
Qed.

(** [float(len(xs))] of a non-empty list is at least 1. *)
Lemma float_length_pos (n : Z) : 1 <= n -> (1 <= b64 (inject_Z n))%Q.
Proof.
  intros Hn. apply (b64_ge_int _ 1); [cbn; lia|].
  rewrite <- Zle_Qle. lia.
Qed.

Lemma py_mean_unit (xs : list Q) (q : Q) :
  Forall in_unit xs -> py_mean xs = Ok q -> in_unit q.
Proof.
  intros Hxs H. destruct xs as [| x xs]; [discriminate|].
  set (len := Z.of_nat (List.length (x :: xs))).
  assert (Hq : q = b64 (py_sum (x :: xs) / b64 (inject_Z len)))
    by (unfold py_mean in H; injection H as <-; reflexivity).
  subst q.
  assert (Hlen : 1 <= len) by (unfold len; cbn [List.length]; lia).
  destruct (py_sum_bounds _ Hxs 0%Q 0 ltac:(lia) ltac:(lra)
              ltac:(vm_compute; discriminate)) as [Hlo Hhi].
  cbn zeta in Hlo, Hhi. fold (py_sum (x :: xs)) in Hlo, Hhi.
  rewrite Z.add_0_l in Hhi. fold len in Hhi.
  pose proof (float_length_pos len Hlen) as Hpos.
  assert (Hge : (inject_Z (Z.min len (2 ^ 53)) <= b64 (inject_Z len))%Q).
  { apply b64_ge_int; [lia|]. rewrite <- Zle_Qle. lia. }
  set (total := py_sum (x :: xs)) in *. set (L := b64 (inject_Z len)) in *.
  set (M := inject_Z (Z.min len (2 ^ 53))) in *. clearbody total L M.
  apply b64_unit. split.
  - apply Qle_shift_div_l; lra.
  - apply Qle_shift_div_r; lra.
Qed.

Lemma py_mean_nonneg (xs : list Q) (q : Q) :
  Forall (Qle 0) xs -> py_mean xs = Ok q -> (0 <= q)%Q.
Proof.
  intros Hxs H. destruct xs as [| x xs]; [discriminate|].
  set (len := Z.of_nat (List.length (x :: xs))).
  assert (Hq : q = b64 (py_sum (x :: xs) / b64 (inject_Z len)))
    by (unfold py_mean in H; injection H as <-; reflexivity).
  subst q.
  assert (Hlen : 1 <= len) by (unfold len; cbn [List.length]; lia).
  pose proof (py_sum_nonneg _ Hxs 0%Q ltac:(lra)) as Hlo.
  fold (py_sum (x :: xs)) in Hlo.
  pose proof (float_length_pos len Hlen) as Hpos.
  set (total := py_sum (x :: xs)) in *. set (L := b64 (inject_Z len)) in *.
  clearbody total L.
  apply b64_nonneg. apply Qle_shift_div_l; lra.
Qed.

Lemma inject_Z_pos (t : Z) : 0 < t -> (0 < inject_Z t)%Q.
Proof. intros H. unfold Qlt. simpl. lia. Qed.

Lemma inject_Z_nonneg (x : Z) : 0 <= x -> (0 <= inject_Z x)%Q.
Proof. intros H. unfold Qle. simpl. lia. Qed.

Lemma quotient_in_unit (x total : Z) :
  0 <= x <= total -> total <> 0 -> in_unit (inject_Z x / inject_Z total).
Proof.
  intros Hx Hne.
  assert (Hpos : (0 < inject_Z total)%Q) by (apply inject_Z_pos; lia).
  split.
  - apply Qle_shift_div_l; [exact Hpos|].
    rewrite Qmult_0_l. apply inject_Z_nonneg. lia.
  - apply Qle_shift_div_r; [exact Hpos|].
    rewrite Qmult_1_l, <- (Zle_Qle x total). lia.
Qed.

Lemma py_div_in_unit (x total : Z) (q : Q) :
  0 <= x <= total -> py_div x total = Ok q -> in_unit q.
Proof.
  unfold py_div. intros Hx H.
  destruct (Z.eqb_spec total 0) as [|Hne]; [discriminate|].
  inversion H; subst q; clear H.
  apply b64_unit. now apply quotient_in_unit.
Qed.

Lemma py_div_nonneg (x total : Z) (q : Q) :
  0 <= x -> 0 <= total -> py_div x total = Ok q -> (0 <= q)%Q.
Proof.
  unfold py_div. intros Hx Ht H.
  destruct (Z.eqb_spec total 0) as [|Hne]; [discriminate|].
  inversion H; subst q; clear H.
  apply b64_nonneg. apply Qle_shift_div_l.
  - apply inject_Z_pos. lia.
  - rewrite Qmult_0_l. apply inject_Z_nonneg. lia.
Qed.

(** ** [get_summoner_rank] *)

(** C8: when the rank service answers with no entries, [get_summoner_rank]
    returns the empty string and raises nothing; when it answers with at
    least one entry, the result is the tier and the division of the first
    entry joined by a space. *)
Theorem get_summoner_rank_entries (api : Api) (p : string)
    (entries : list LeagueEntry)
    (Hres : assert_200 (league_entries api p) = Ok entries) :
  (entries = [] -> get_summoner_rank api p = Ok "") /\
  (forall data others, entries = data :: others ->
     get_summoner_rank api p = Ok (tier data ++ " " ++ rank data)%string).
Proof.
  unfold get_summoner_rank. rewrite Hres. simpl. split.
  - now intros ->.
  - now intros data others ->.
Qed.

Lemma get_summoner_rank_entries_witness :
  get_summoner_rank Demo.unranked "me" = Ok "" /\
  get_summoner_rank Demo.offline "me" = Ok "GOLD II".
Proof.
  split.
  - apply (proj1 (get_summoner_rank_entries Demo.unranked "me" [] eq_refl)).
    reflexivity.
  - apply (proj2 (get_summoner_rank_entries Demo.offline "me"
                    [mkLeagueEntry "GOLD" "II"] eq_refl)
             (mkLeagueEntry "GOLD" "II") []).
    reflexivity.
Defined.

(** ** [get_match_stats]: the empty input *)

(** C3: on the empty list of match ids the loop body never runs, so
    [start_time] and [end_time] are still unassigned when the metadata block
    is built; the call raises and returns no aggregate. When both account
    look-ups answer, the exception is the unbound [start_time]. *)
Theorem get_match_stats_empty (api : Api) (p : string) :
  (exists st, match_loop api p 0 0 [] init_locals = Ok st
              /\ l_start_time st = None /\ l_end_time st = None) /\
  (exists e, get_match_stats api p [] = Err e) /\
  (forall n r, get_summoner_name api p = Ok n ->
               get_summoner_rank api p = Ok r ->
               get_match_stats api p [] = Err (UnboundLocalError "start_time")).
Proof.
  split; [| split].
  - exists init_locals. now simpl.
  - unfold get_match_stats. simpl.
    destruct (get_summoner_name api p) as [n|e]; simpl; [| now exists e].
    destruct (get_summoner_rank api p) as [r|e]; simpl; [| now exists e].
    now eexists.
  - intros n r Hn Hr. unfold get_match_stats. simpl.
    now rewrite Hn, Hr.
Qed.

Lemma get_match_stats_empty_witness :
  get_match_stats Demo.api "me" [] = Err (UnboundLocalError "start_time").
Proof.
  apply (proj2 (proj2 (get_match_stats_empty Demo.api "me"))
           "AD KING#LYON" "GOLD II"); reflexivity.
Defined.

(** ** [get_match_stats]: one iteration *)

Lemma scan_absent (p : string) (team_id : nat) (roster : list Summoner)
    (pt : option nat) :
  on_roster p roster = false ->
  fold_left (fun pt summoner =>
               if String.eqb (puuid summoner) p then Some team_id else pt)
            roster pt = pt.
Proof.
  revert pt. induction roster as [|s roster IH]; simpl; intros pt H; [easy|].
  apply orb_false_iff in H. destruct H as [Hs Hr].
  rewrite Hs. now apply IH.
Qed.

Lemma find_team_absent (p : string) (m : MatchData) (pt : option nat) :
  on_roster p (team m 0) = false ->
  on_roster p (team m 1) = false ->
  find_team p m pt = pt.
Proof.
  intros H0 H1. unfold find_team. cbn [fold_left].
  now rewrite (scan_absent p 0 _ pt H0), (scan_absent p 1 _ pt H1).
Qed.

Lemma foldM_collect_absent (p : string) (t : nat) (m : MatchData)
    (tot : Totals) (roster : list Summoner) (tmp : tmp_t) :
  on_roster p roster = false ->
  foldM (collect_step p t m tot) roster tmp = Ok tmp.
Proof.
  induction roster as [|s roster IH]; simpl; intros H; [easy|].
  apply orb_false_iff in H. destruct H as [Hs Hr].
  unfold collect_step at 1. rewrite Hs. simpl. now apply IH.
Qed.

(** An iteration on a match of at most 5 minutes raises nothing and leaves
    the buckets, the count of qualifying matches and the team index as they
    were. *)
Lemma loop_body_short (p : string) (n i : Z) (m : MatchData) (st : Locals) :
  duration m <= 5 ->
  exists st', loop_body p n i m st = Ok st'
              /\ l_tmp st' = l_tmp st
              /\ l_valid_matches st' = l_valid_matches st
              /\ l_puuid_team st' = l_puuid_team st.
Proof.
  intros Hshort. unfold loop_body.
  destruct (Z.leb_spec (duration m) 5) as [_|Hlt]; [| lia].
  eexists. split; [reflexivity|]. now simpl.
Qed.

Lemma foldM_collect_zero_gold (p : string) (t : nat) (m : MatchData)
    (tot : Totals) (roster : list Summoner) (tmp : tmp_t) :
  team_gold tot = 0 ->
  on_roster p roster = true ->
  foldM (collect_step p t m tot) roster tmp = Err ZeroDivisionError.
Proof.
  intros Hg. induction roster as [|s roster IH]; simpl; intros H; [discriminate|].
  unfold collect_step at 1.
  destruct (String.eqb (puuid s) p) eqn:Hs.
  - unfold record_summoner, py_div. rewrite Hg. reflexivity.
  - simpl in H. simpl. now apply IH.
Qed.

(** Whenever the player's team passes both filters with a gold total of
    zero, the iteration stops on the first division. *)
Lemma loop_body_zero_gold (p : string) (n i : Z) (m : MatchData) (st : Locals)
    (t : nat) :
  5 < duration m ->
  find_team p m (l_puuid_team st) = Some t ->
  on_roster p (team m t) = true ->
  degenerate (team_totals (team m t)) = false ->
  team_gold (team_totals (team m t)) = 0 ->
  loop_body p n i m st = Err ZeroDivisionError.
Proof.
  intros Hd Ht Hon Hdeg Hg. unfold loop_body.
  destruct (Z.leb_spec (duration m) 5) as [Hle|_]; [lia|].
  rewrite Ht. cbn [read_local bind]. rewrite Hdeg.
  unfold collect. now rewrite foldM_collect_zero_gold.
Qed.

(** C9: the second filter looks at four totals and not at the gold total,
    which the gold share divides by: there is a match, longer than 5 minutes
    and with the four checked totals of the player's team nonzero, whose team
    gold total is zero, and on it [get_match_stats] raises
    [ZeroDivisionError]. *)
Theorem zero_team_gold_raises :
  exists (api : Api) (p match_id : string) (m : MatchData),
    fetch api match_id = Ok m
    /\ 5 < duration m
    /\ find_team p m None = Some 0%nat
    /\ degenerate (team_totals (team m 0)) = false
    /\ team_gold (team_totals (team m 0)) = 0
    /\ loop_body p 1 0 m init_locals = Err ZeroDivisionError
    /\ get_match_stats api p [match_id] = Err ZeroDivisionError.
Proof.
  exists Demo.api, "me", "NA1_3", (Demo.fmt Demo.g3).
  assert (Hd : 5 < duration (Demo.fmt Demo.g3)) by (vm_compute; reflexivity).
  split; [vm_compute; reflexivity|]. split; [exact Hd|].
  split; [vm_compute; reflexivity|]. split; [vm_compute; reflexivity|].
  split; [vm_compute; reflexivity|]. split.
  - apply (loop_body_zero_gold "me" 1 0 _ init_locals 0%nat Hd);
      vm_compute; reflexivity.
  - vm_compute; reflexivity.
Qed.

(** C10: the team index is assigned only when the player's id is found on a
    roster. On a match past the duration filter with the player on neither
    team, an iteration that inherits no index raises on the unbound
    [puuid_team]; one that inherits the index [t] of an earlier iteration
    keeps it, takes the team totals of roster [t] of this match, lets them
    decide the second filter and the count of qualifying matches, scans roster
    [t] for the player's shares (it holds no entry of the player) and raises
    nothing. *)
Theorem stale_team_index (p : string) (n i : Z) (m : MatchData) (st : Locals)
    (Hlong : 5 < duration m)
    (Habsent0 : on_roster p (team m 0) = false)
    (Habsent1 : on_roster p (team m 1) = false) :
  (l_puuid_team st = None ->
     loop_body p n i m st = Err (UnboundLocalError "puuid_team")) /\
  (forall t, l_puuid_team st = Some t ->
     find_team p m (l_puuid_team st) = Some t /\
     collect p t m (team_totals (team m t)) (l_tmp st) = Ok (l_tmp st) /\
     exists st',
       loop_body p n i m st = Ok st'
       /\ l_puuid_team st' = Some t
       /\ l_tmp st' = l_tmp st
       /\ l_valid_matches st' =
            if degenerate (team_totals (team m t)) then l_valid_matches st
            else l_valid_matches st + 1).
Proof.
  assert (Hf : find_team p m (l_puuid_team st) = l_puuid_team st)
    by now apply find_team_absent.
  assert (Hc : forall t, collect p t m (team_totals (team m t)) (l_tmp st)
                         = Ok (l_tmp st)).
  { intros t. unfold collect. apply foldM_collect_absent.
    destruct t; [exact Habsent0 | exact Habsent1]. }
  unfold loop_body.
  destruct (Z.leb_spec (duration m) 5) as [Hle|_]; [lia|].
  rewrite Hf. split.
  - now intros ->.
  - intros t Ht. rewrite Ht. cbn [read_local bind].
    split; [reflexivity|]. split; [apply Hc|].
    rewrite Hc. cbn [bind].
    destruct (degenerate (team_totals (team m t)));
      eexists; (split; [reflexivity|]); now simpl.
Qed.

Lemma stale_team_index_witness :
  loop_body "me" 2 0 (Demo.fmt Demo.g4) init_locals
    = Err (UnboundLocalError "puuid_team")
  /\ exists st',
       loop_body "me" 2 1 (Demo.fmt Demo.g4)
         (mkLocals [] 1 (Some 0%nat) None (Some "t")) = Ok st'
       /\ l_puuid_team st' = Some 0%nat
       /\ l_tmp st' = []
       /\ l_valid_matches st' = 2.
Proof.
  assert (Hd : 5 < duration (Demo.fmt Demo.g4)) by (vm_compute; reflexivity).
  split.
  - apply (proj1 (stale_team_index "me" 2 0 (Demo.fmt Demo.g4) init_locals
                    Hd eq_refl eq_refl)).
    reflexivity.
  - apply (proj2 (stale_team_index "me" 2 1 (Demo.fmt Demo.g4)
                    (mkLocals [] 1 (Some 0%nat) None (Some "t"))
                    Hd eq_refl eq_refl) 0%nat eq_refl).
Defined.

(** The same on whole runs: the player is absent from "NA1_4". Alone, the
    match makes the call raise; after "NA1_1" it is counted as a qualifying
    match although no champion gains a match from it. *)
Example absent_player_runs :
  get_match_stats Demo.api "me" ["NA1_4"]
    = Err (UnboundLocalError "puuid_team")
  /\ exists r, get_match_stats Demo.api "me" ["NA1_1"; "NA1_4"] = Ok r
               /\ Metadata.matches (metadata r) = 2
               /\ map (fun kv => (fst kv, Row.matches (snd kv))) (champions r)
                  = [("Ahri", 1)].
Proof.
  split; [vm_compute; reflexivity|].
  eexists. split; [vm_compute; reflexivity|]. split; reflexivity.
Qed.

(** The stale index yields no share. "NA1_1" has put "me" on team 0; on
    "NA1_4", where "me" is on neither roster, the iteration keeps index 0,
    finds the totals of roster 0 past the second filter and counts the match
    as qualifying, but the scan of roster 0 meets no entry of "me": the
    buckets are the same before and after, with one value in every share
    list of the one bucket. *)
Lemma stale_index_appends_no_share :
  match_loop Demo.api "me" 2 0 ["NA1_1"] init_locals = Ok Samples.after_g1
  /\ l_puuid_team Samples.after_g1 = Some 0%nat
  /\ 5 < duration (Demo.fmt Demo.g4)
  /\ on_roster "me" (team (Demo.fmt Demo.g4) 0) = false
  /\ on_roster "me" (team (Demo.fmt Demo.g4) 1) = false
  /\ find_team "me" (Demo.fmt Demo.g4) (l_puuid_team Samples.after_g1)
     = Some 0%nat
  /\ team_totals (team (Demo.fmt Demo.g4) 0) = mkTotals 800 10 10 1 2
  /\ degenerate (team_totals (team (Demo.fmt Demo.g4) 0)) = false
  /\ loop_body "me" 2 1 (Demo.fmt Demo.g4) Samples.after_g1
     = Ok Samples.after_g4
  /\ l_valid_matches Samples.after_g4 = l_valid_matches Samples.after_g1 + 1
  /\ l_tmp Samples.after_g4 = l_tmp Samples.after_g1
  /\ map (fun kv =>
            (fst kv,
             List.length (Bucket.gold_share (snd kv)),
             List.length (Bucket.damage_dealt_to_champions_share (snd kv)),
             List.length (Bucket.damage_taken_share (snd kv)),
             List.length (Bucket.vision_score_share (snd kv)),
             List.length (Bucket.kill_participation (snd kv))))
         (l_tmp Samples.after_g4)
     = [("Ahri", 1%nat, 1%nat, 1%nat, 1%nat, 1%nat)].
Proof. repeat split; vm_compute; reflexivity. Qed.

(** ** [get_match_stats]: the match loop *)

Lemma match_loop_cons (api : Api) (p : string) (n i : Z) (match_id : string)
    (rest : list string) (st : Locals) :
  match_loop api p n i (match_id :: rest) st =
  (m <- fetch api match_id ;;
   st' <- loop_body p n i m st ;;
   match_loop api p n (i + 1) rest st').
Proof.
  simpl. unfold fetch. now destruct (get_match_data api match_id).
Qed.

(** Every way out of an iteration that does not raise has set the two window
    variables in the same way. *)
Lemma loop_body_window (p : string) (n i : Z) (m : MatchData) (st st' : Locals) :
  loop_body p n i m st = Ok st' ->
  l_end_time st' = (if i =? 0 then Some (start_time m) else l_end_time st) /\
  l_start_time st' =
    (if i =? n - 1 then Some (start_time m) else l_start_time st).
Proof.
  unfold loop_body. intros H.
  destruct (duration m <=? 5).
  - now inversion H.
  - inv_bind H. destruct (degenerate _).
    + now inversion H.
    + inv_bind H. now inversion H.
Qed.

Lemma match_loop_keeps_end_time (api : Api) (p : string) (n : Z)
    (ids : list string) :
  forall i st st', 0 < i -> match_loop api p n i ids st = Ok st' ->
                   l_end_time st' = l_end_time st.
Proof.
  induction ids as [|x ids IH]; intros i st st' Hi H.
  - now inversion H.
  - rewrite match_loop_cons in H. inv_bind H. inv_bind H.
    apply IH in H; [| lia]. rewrite H.
    apply loop_body_window in Ha0. destruct Ha0 as [He _].
    rewrite He. destruct (Z.eqb_spec i 0); [lia | reflexivity].
Qed.

Lemma last_indep {A : Type} (l : list A) (x d d' : A) :
  last (x :: l) d = last (x :: l) d'.
Proof.
  revert x. induction l as [|y l IH]; intros x; [reflexivity|].
  change (last (x :: y :: l) d) with (last (y :: l) d).
  change (last (x :: y :: l) d') with (last (y :: l) d').
  apply IH.
Qed.

Lemma match_loop_sets_start_time (api : Api) (p : string) (n : Z)
    (ids : list string) :
  forall i x st st',
    i + Z.of_nat (List.length (x :: ids)) = n ->
    match_loop api p n i (x :: ids) st = Ok st' ->
    exists m, fetch api (last (x :: ids) x) = Ok m
              /\ l_start_time st' = Some (start_time m).
Proof.
  induction ids as [|y ids IH]; intros i x st st' Hn H.
  - rewrite match_loop_cons in H. inv_bind H. inv_bind H.
    inversion H; subst st'. exists a. split; [exact Ha|].
    apply loop_body_window in Ha0. destruct Ha0 as [_ Hs]. rewrite Hs.
    simpl in Hn. destruct (Z.eqb_spec i (n - 1)); [reflexivity | lia].
  - rewrite match_loop_cons in H. inv_bind H. inv_bind H.
    apply IH in H.
    + destruct H as (m & Hm & Hs). exists m. split; [| exact Hs].
      change (last (x :: y :: ids) x) with (last (y :: ids) x).
      now rewrite (last_indep ids y x y).
    + cbn [List.length] in *. lia.
Qed.

(** C7: for a non-empty list of match ids, a result of [get_match_stats]
    carries as [end_time] the start time of the first match of the list and
    as [start_time] the start time of the last match of the list. Nothing is
    asked of these two matches: they may be skipped by either filter, and no
    timestamp is compared. *)
Theorem window_from_input_order (api : Api) (p : string) (first : string)
    (others : list string) (r : MatchStats)
    (Hrun : get_match_stats api p (first :: others) = Ok r) :
  exists m_first m_last,
    fetch api first = Ok m_first
    /\ fetch api (last (first :: others) first) = Ok m_last
    /\ Metadata.end_time (metadata r) = start_time m_first
    /\ Metadata.start_time (metadata r) = start_time m_last.
Proof.
  unfold get_match_stats in Hrun.
  inv_bind Hrun. rename a into st, Ha into Hloop.
  inv_bind Hrun. inv_bind Hrun.
  inv_bind Hrun. rename a1 into s_time, Ha1 into Hst.
  inv_bind Hrun. rename a1 into e_time, Ha1 into Het.
  inv_bind Hrun.
  inversion Hrun; subst r; clear Hrun.
  cbn [metadata Metadata.end_time Metadata.start_time].
  destruct (match_loop_sets_start_time api p _ others 0 first init_locals st
              eq_refl Hloop) as (m_last & Hlast & Hs).
  rewrite match_loop_cons in Hloop.
  inv_bind Hloop. rename a2 into m_first, Ha2 into Hfirst.
  inv_bind Hloop. rename Ha2 into Hbody.
  exists m_first, m_last. split; [assumption|]. split; [assumption|].
  apply match_loop_keeps_end_time in Hloop; [| lia].
  apply loop_body_window in Hbody. destruct Hbody as [He _]. simpl in He.
  rewrite He in Hloop. split.
  - rewrite Hloop in Het. simpl in Het. now inversion Het.
  - rewrite Hs in Hst. simpl in Hst. now inversion Hst.
Qed.

Lemma window_from_input_order_witness :
  exists m_first m_last,
    fetch Demo.api "NA1_2" = Ok m_first
    /\ fetch Demo.api (last ["NA1_2"; "NA1_1"; "NA1_4"] "NA1_2") = Ok m_last
    /\ "1700000200000" = start_time m_first
    /\ "1700000000000" = start_time m_last.
Proof.
  refine (window_from_input_order Demo.api "me" "NA1_2" ["NA1_1"; "NA1_4"]
            (mkMatchStats
               (Metadata.mk "AD KING#LYON" "GOLD II" "1700000000000"
                  "1700000200000" 1 2) _) _).
  vm_compute. reflexivity.
Defined.

(** Apart from the window variables, an iteration depends on the index and on
    the length of the list in nothing. *)
Lemma loop_body_carried (p : string) (n i n' i' : Z) (m : MatchData)
    (st1 st2 : Locals) :
  carried st1 = carried st2 ->
  map_result carried (loop_body p n i m st1)
  = map_result carried (loop_body p n' i' m st2).
Proof.
  unfold carried. intros H. inversion H as [[Htmp Hvalid Hteam]].
  unfold loop_body. rewrite Htmp, Hvalid, Hteam.
  destruct (duration m <=? 5); [reflexivity|].
  destruct (find_team p m (l_puuid_team st2)) as [t|]; [| reflexivity].
  cbn [read_local bind].
  destruct (degenerate _); [reflexivity|].
  now destruct (collect p t m _ (l_tmp st2)).
Qed.

Lemma match_loop_carried (api : Api) (p : string) (ids : list string) :
  forall n i n' i' st1 st2,
    carried st1 = carried st2 ->
    map_result carried (match_loop api p n i ids st1)
    = map_result carried (match_loop api p n' i' ids st2).
Proof.
  induction ids as [|x ids IH]; intros n i n' i' st1 st2 H.
  - simpl. now rewrite H.
  - rewrite !match_loop_cons.
    destruct (fetch api x) as [m|e]; [| reflexivity]. cbn [bind].
    pose proof (loop_body_carried p n i n' i' m st1 st2 H) as Hb.
    destruct (loop_body p n i m st1) as [a1|e1],
             (loop_body p n' i' m st2) as [a2|e2];
      cbn [map_result] in Hb; try discriminate; cbn [bind].
    + apply IH. congruence.
    + exact Hb.
Qed.

Lemma match_loop_without_short (api : Api) (p x : string) (m : MatchData)
    (l1 l2 : list string) :
  fetch api x = Ok m ->
  duration m <= 5 ->
  forall n i n' i' st1 st2,
    carried st1 = carried st2 ->
    map_result carried (match_loop api p n i (l1 ++ x :: l2) st1)
    = map_result carried (match_loop api p n' i' (l1 ++ l2) st2).
Proof.
  intros Hx Hshort.
  induction l1 as [|y l1 IH]; intros n i n' i' st1 st2 H.
  - cbn [app]. rewrite match_loop_cons, Hx. cbn [bind].
    destruct (loop_body_short p n i m st1 Hshort)
      as (st' & -> & Htmp & Hvalid & Hteam).
    cbn [bind]. apply match_loop_carried.
    rewrite <- H. unfold carried. now rewrite Htmp, Hvalid, Hteam.
  - cbn [app]. rewrite !match_loop_cons.
    destruct (fetch api y) as [my|e]; [| reflexivity]. cbn [bind].
    pose proof (loop_body_carried p n i n' i' my st1 st2 H) as Hb.
    destruct (loop_body p n i my st1) as [a1|e1],
             (loop_body p n' i' my st2) as [a2|e2];
      cbn [map_result] in Hb; try discriminate; cbn [bind].
    + apply IH. congruence.
    + exact Hb.
Qed.

(** C4: a match whose normalized duration is at most 5 minutes is skipped
    entirely. Its iteration raises nothing and changes no bucket (wins,
    matches, kills, deaths, assists, cs, share lists) and not the count of
    qualifying matches; the loop over a list that holds the match ends with
    the same buckets and the same count, or with the same exception, as the
    loop over the list without it; and two results, with and without the
    match, agree on the champions and on the count. *)
Theorem short_match_is_skipped (api : Api) (p x : string) (m : MatchData)
    (Hfetch : fetch api x = Ok m)
    (Hshort : duration m <= 5) :
  (forall n i st,
     exists st', loop_body p n i m st = Ok st'
                 /\ l_tmp st' = l_tmp st
                 /\ l_valid_matches st' = l_valid_matches st) /\
  (forall l1 l2,
     map_result carried
       (match_loop api p (Z.of_nat (List.length (l1 ++ x :: l2))) 0
          (l1 ++ x :: l2) init_locals)
     = map_result carried
         (match_loop api p (Z.of_nat (List.length (l1 ++ l2))) 0
            (l1 ++ l2) init_locals)) /\
  (forall l1 l2 r r',
     get_match_stats api p (l1 ++ x :: l2) = Ok r ->
     get_match_stats api p (l1 ++ l2) = Ok r' ->
     champions r = champions r'
     /\ Metadata.matches (metadata r) = Metadata.matches (metadata r')
     /\ Metadata.unique_champions (metadata r)
        = Metadata.unique_champions (metadata r')).
Proof.
  assert (Hrun : forall l1 l2,
     map_result carried
       (match_loop api p (Z.of_nat (List.length (l1 ++ x :: l2))) 0
          (l1 ++ x :: l2) init_locals)
     = map_result carried
         (match_loop api p (Z.of_nat (List.length (l1 ++ l2))) 0
            (l1 ++ l2) init_locals))
    by (intros; now apply (match_loop_without_short api p x m)).
  split; [| split].
  - intros n i st.
    destruct (loop_body_short p n i m st Hshort) as (st' & H1 & H2 & H3 & _).
    now exists st'.
  - exact Hrun.
  - intros l1 l2 r r' Hr Hr'. specialize (Hrun l1 l2).
    unfold get_match_stats in Hr, Hr'.
    inv_bind Hr. rename a into st, Ha into Hloop.
    inv_bind Hr'. rename a into st', Ha into Hloop'.
    rewrite Hloop, Hloop' in Hrun. simpl in Hrun.
    unfold carried in Hrun. inversion Hrun as [[Htmp Hvalid Hteam]].
    do 4 inv_bind Hr. inv_bind Hr. rename a3 into rows, Ha3 into Hrows.
    do 4 inv_bind Hr'. inv_bind Hr'. rename a7 into rows', Ha7 into Hrows'.
    rewrite Htmp, Hrows' in Hrows. inversion Hrows; subst rows'.
    inversion Hr; subst r. inversion Hr'; subst r'. simpl.
    now rewrite Htmp, Hvalid.
Qed.

Lemma short_match_is_skipped_witness :
  map_result carried
    (match_loop Demo.api "me" 3 0 ["NA1_1"; "NA1_2"; "NA1_5"] init_locals)
  = map_result carried
      (match_loop Demo.api "me" 2 0 ["NA1_1"; "NA1_5"] init_locals).
Proof.
  assert (Hshort : duration (Demo.fmt Demo.g2) <= 5)
    by (vm_compute; discriminate).
  assert (Hfetch : fetch Demo.api "NA1_2" = Ok (Demo.fmt Demo.g2))
    by (vm_compute; reflexivity).
  exact (proj1 (proj2 (short_match_is_skipped Demo.api "me" "NA1_2"
                         (Demo.fmt Demo.g2) Hfetch Hshort))
           ["NA1_1"] ["NA1_5"]).
Defined.

(** ** The final sort *)

Lemma key_ltb_lt (a b : Z * Z) :
  key_ltb a b = true <->
  fst a < fst b \/ (fst a = fst b /\ snd a < snd b).
Proof.
  unfold key_ltb.
  rewrite orb_true_iff, andb_true_iff, !Z.ltb_lt, Z.eqb_eq. tauto.
Qed.

Lemma key_ltb_ge (a b : Z * Z) :
  key_ltb a b = false <->
  fst b < fst a \/ (fst a = fst b /\ snd b <= snd a).
Proof.
  unfold key_ltb.
  rewrite orb_false_iff, andb_false_iff, !Z.ltb_ge, Z.eqb_neq. lia.
Qed.

Lemma desc_trans {A : Type} (key : A -> Z * Z) (x y z : A) :
  desc key x y -> desc key y z -> desc key x z.
Proof. unfold desc. rewrite !key_ltb_ge. lia. Qed.

Lemma ltb_desc {A : Type} (key : A -> Z * Z) (x y : A) :
  key_ltb (key x) (key y) = true -> desc key y x.
Proof. unfold desc. rewrite key_ltb_lt, key_ltb_ge. lia. Qed.

Lemma insert_desc_perm {A : Type} (key : A -> Z * Z) (x : A) (l : list A) :
  Permutation (x :: l) (insert_desc key x l).
Proof.
  induction l as [|y l IH]; simpl; [reflexivity|].
  destruct (key_ltb (key x) (key y)); [| reflexivity].
  rewrite perm_swap. now apply perm_skip.
Qed.

Lemma sorted_reverse_perm {A : Type} (key : A -> Z * Z) (l : list A) :
  Permutation l (sorted_reverse key l).
Proof.
  induction l as [|x l IH]; simpl; [reflexivity|].
  rewrite <- insert_desc_perm. now apply perm_skip.
Qed.

Lemma insert_desc_sorted {A : Type} (key : A -> Z * Z) (x : A) (l : list A) :
  StronglySorted (desc key) l -> StronglySorted (desc key) (insert_desc key x l).
Proof.
  induction l as [|y l IH]; simpl; intros Hs.
  - repeat constructor.
  - apply StronglySorted_inv in Hs. destruct Hs as [Hl Hy].
    destruct (key_ltb (key x) (key y)) eqn:Hxy.
    + constructor; [now apply IH|].
      apply (Permutation_Forall (insert_desc_perm key x l)).
      constructor; [now apply ltb_desc | exact Hy].
    + constructor; [now constructor|].
      constructor; [exact Hxy|].
      eapply Forall_impl; [| exact Hy].
      intros z Hz. now apply (desc_trans key x y z).
Qed.

Lemma sorted_reverse_sorted {A : Type} (key : A -> Z * Z) (l : list A) :
  StronglySorted (desc key) (sorted_reverse key l).
Proof.
  induction l as [|x l IH]; simpl; [constructor|].
  now apply insert_desc_sorted.
Qed.

Lemma StronglySorted_middle {A : Type} (R : A -> A -> Prop) (l1 l2 : list A)
    (x : A) :
  StronglySorted R (l1 ++ x :: l2) -> Forall (R x) l2.
Proof.
  induction l1 as [|y l1 IH]; simpl; intros H;
    apply StronglySorted_inv in H; destruct H as [H1 H2]; auto.
Qed.

(** In a list sorted by descending key, an item with a strictly greater key
    stands before any item with a smaller one. *)
Lemma sorted_before {A : Type} (key : A -> Z * Z) (l : list A) (a b : A) :
  StronglySorted (desc key) l ->
  In a l -> In b l ->
  key_ltb (key b) (key a) = true ->
  before a b l.
Proof.
  intros Hs Ha Hb Hlt.
  destruct (in_split _ _ Ha) as (l1 & l2 & ->).
  apply in_app_or in Hb. destruct Hb as [Hb | [Hb | Hb]].
  - destruct (in_split _ _ Hb) as (l3 & l4 & ->).
    rewrite <- app_assoc in Hs. simpl in Hs.
    apply StronglySorted_middle in Hs.
    rewrite Forall_forall in Hs.
    assert (Hba : desc key b a) by (apply Hs, in_or_app; right; now left).
    unfold desc in Hba. congruence.
  - subst b. rewrite key_ltb_lt in Hlt. lia.
  - destruct (in_split _ _ Hb) as (l3 & l4 & ->).
    now exists l1, l3, l4.
Qed.

(** C6: the champions of a result are ordered by descending matches played,
    ties broken by descending wins: of two champions of the output, the one
    with more matches, or with as many matches and more wins, stands before
    the other. *)
Theorem champions_sorted (api : Api) (p : string) (match_ids : list string)
    (r : MatchStats) (a b : string * Row.t)
    (Hrun : get_match_stats api p match_ids = Ok r)
    (Ha : In a (champions r))
    (Hb : In b (champions r))
    (Hgt : Row.matches (snd b) < Row.matches (snd a)
           \/ (Row.matches (snd b) = Row.matches (snd a)
               /\ Row.wins (snd b) < Row.wins (snd a))) :
  before a b (champions r).
Proof.
  unfold get_match_stats in Hrun.
  do 6 inv_bind Hrun. inversion Hrun; subst r; clear Hrun.
  cbn [champions] in *.
  apply (sorted_before sort_key); auto using sorted_reverse_sorted.
  apply key_ltb_lt. exact Hgt.
Qed.

(** ** Invariants of the accumulator *)

Lemma foldM_invariant_In {A B : Type} (P : A -> Prop) (f : A -> B -> result A)
    (l : list B) :
  (forall a x a', In x l -> P a -> f a x = Ok a' -> P a') ->
  forall a a', P a -> foldM f l a = Ok a' -> P a'.
Proof.
  induction l as [|x l IH]; simpl; intros Hstep a a' Pa H.
  - now inversion H; subst.
  - inv_bind H. apply (IH (fun a x a' Hx => Hstep a x a' (or_intror Hx)) a0);
      [| assumption].
    apply (Hstep a x a0); auto.
Qed.

Lemma tmp_get_cases (P : Bucket.t -> Prop) (key : string) (tmp : tmp_t) :
  all_buckets P tmp ->
  P (tmp_get key tmp) \/ tmp_get key tmp = Bucket.default.
Proof.
  unfold tmp_get, all_buckets.
  induction tmp as [|[k b] tmp IH]; simpl; intros H; [now right|].
  apply Forall_cons_iff in H. destruct H as [Hb Ht].
  destruct (String.eqb k key); [now left | now apply IH].
Qed.

Lemma tmp_set_all (P : Bucket.t -> Prop) (key : string) (b : Bucket.t)
    (tmp : tmp_t) :
  all_buckets P tmp -> P b -> all_buckets P (tmp_set key b tmp).
Proof.
  unfold all_buckets.
  induction tmp as [|[k b0] tmp IH]; simpl; intros H Hb.
  - now repeat constructor.
  - apply Forall_cons_iff in H. destruct H as [Hb0 Ht].
    destruct (String.eqb k key); constructor; auto.
Qed.

Lemma tmp_find_set_same (key : string) (b : Bucket.t) (tmp : tmp_t) :
  tmp_find key (tmp_set key b tmp) = Some b.
Proof.
  induction tmp as [|[k b0] tmp IH]; simpl.
  - now rewrite String.eqb_refl.
  - destruct (String.eqb k key) eqn:Hk; simpl; now rewrite Hk.
Qed.

Lemma tmp_find_set_other (key key' : string) (b : Bucket.t) (tmp : tmp_t) :
  key <> key' -> tmp_find key (tmp_set key' b tmp) = tmp_find key tmp.
Proof.
  intros Hne. induction tmp as [|[k b0] tmp IH]; simpl.
  - destruct (String.eqb_spec key' key); [congruence | reflexivity].
  - destruct (String.eqb_spec k key') as [-> | Hk]; simpl.
    + destruct (String.eqb_spec key' key); [congruence | reflexivity].
    + now rewrite IH.
Qed.

Lemma tmp_get_set_same (key : string) (b : Bucket.t) (tmp : tmp_t) :
  tmp_get key (tmp_set key b tmp) = b.
Proof. unfold tmp_get. now rewrite tmp_find_set_same. Qed.

Lemma tmp_get_set_other (key key' : string) (b : Bucket.t) (tmp : tmp_t) :
  key <> key' -> tmp_get key (tmp_set key' b tmp) = tmp_get key tmp.
Proof. intros H. unfold tmp_get. now rewrite tmp_find_set_other. Qed.

Lemma collect_keeps (p : string) (P : Bucket.t -> Prop) (t : nat)
    (m : MatchData) (tmp tmp' : tmp_t) :
  records_keep p P m ->
  all_buckets P tmp ->
  collect p t m (team_totals (team m t)) tmp = Ok tmp' ->
  all_buckets P tmp'.
Proof.
  intros Hm. unfold collect.
  apply foldM_invariant_In. intros a s a' Hs Pa H.
  unfold collect_step in H. destruct (String.eqb (puuid s) p) eqn:Hp.
  - inv_bind H. inversion H; subst a'. apply tmp_set_all; [assumption|].
    eapply Hm; eauto using tmp_get_cases.
  - now inversion H; subst.
Qed.

Lemma loop_body_keeps (p : string) (P : Bucket.t -> Prop) (n i : Z)
    (m : MatchData) (st st' : Locals) :
  records_keep p P m ->
  all_buckets P (l_tmp st) ->
  loop_body p n i m st = Ok st' ->
  all_buckets P (l_tmp st').
Proof.
  intros Hm Hst H. unfold loop_body in H.
  destruct (duration m <=? 5).
  - now inversion H; subst.
  - inv_bind H. destruct (degenerate _).
    + now inversion H; subst.
    + inv_bind H. inversion H; subst st'. simpl.
      eapply collect_keeps; eauto.
Qed.

Lemma match_loop_keeps (api : Api) (p : string) (P : Bucket.t -> Prop) (n : Z)
    (ids : list string) :
  (forall match_id m, In match_id ids -> fetch api match_id = Ok m ->
                      records_keep p P m) ->
  forall i st st',
    all_buckets P (l_tmp st) ->
    match_loop api p n i ids st = Ok st' ->
    all_buckets P (l_tmp st').
Proof.
  induction ids as [|x ids IH]; intros Hm i st st' Hst H.
  - now inversion H; subst.
  - rewrite match_loop_cons in H. inv_bind H. inv_bind H.
    apply (IH (fun y m Hy => Hm y m (or_intror Hy)) (i + 1) a0); [| assumption].
    eapply loop_body_keeps; eauto. apply (Hm x); [now left | assumption].
Qed.

Lemma record_summoner_inv (t : nat) (m : MatchData) (tot : Totals)
    (b b' : Bucket.t) (c : Champion) :
  record_summoner t m tot b c = Ok b' ->
  exists g dd dt vs kp,
    py_div (gold c) (team_gold tot) = Ok g
    /\ py_div (damage_dealt_to_champions c)
              (team_damage_dealt_to_champions tot) = Ok dd
    /\ py_div (damage_taken c) (team_damage_taken tot) = Ok dt
    /\ py_div (vision_score c) (team_vision_score tot) = Ok vs
    /\ py_div (kills c + assists c) (team_kills tot) = Ok kp
    /\ Bucket.wins b' = (if Nat.eqb t (wining_team m) then Bucket.wins b + 1
                         else Bucket.wins b)
    /\ Bucket.matches b' = Bucket.matches b + 1
    /\ Bucket.gold_share b' = Bucket.gold_share b ++ [g]
    /\ Bucket.damage_dealt_to_champions_share b' =
         Bucket.damage_dealt_to_champions_share b ++ [dd]
    /\ Bucket.damage_taken_share b' = Bucket.damage_taken_share b ++ [dt]
    /\ Bucket.vision_score_share b' = Bucket.vision_score_share b ++ [vs]
    /\ Bucket.kill_participation b' = Bucket.kill_participation b ++ [kp].
Proof.
  unfold record_summoner. intros H.
  inv_bind H. inv_bind H. inv_bind H. inv_bind H. inv_bind H.
  inversion H; subst b'; clear H. simpl.
  exists a, a0, a1, a2, a3. repeat split; assumption.
Qed.

(** Each recorded entry adds one match and at most one win. *)
Lemma counters_kept (p : string) (m : MatchData) :
  records_keep p counters_ok m.
Proof.
  intros t s b b' _ _ Hb H. apply record_summoner_inv in H.
  destruct H as (g & dd & dt & vs & kp & _ & _ & _ & _ & _ & Hw & Hm & _).
  unfold counters_ok in *. rewrite Hw, Hm.
  destruct Hb as [Hb | ->]; simpl; destruct (Nat.eqb t (wining_team m)); lia.
Qed.

Lemma finalize_bucket_row (b : Bucket.t) (row : Row.t) :
  finalize_bucket b = Ok row ->
  Row.wins row = Bucket.wins b
  /\ Row.matches row = Bucket.matches b
  /\ Row.win_rate row =
       py_round2 (b64 (inject_Z (Bucket.wins b) / inject_Z (Bucket.matches b))).
Proof.
  unfold finalize_bucket. intros H.
  inv_bind H. rename a into wr, Ha into Hwr.
  do 9 inv_bind H. inversion H; subst row; clear H. simpl.
  unfold py_div in Hwr. destruct (Bucket.matches b =? 0); [discriminate|].
  now inversion Hwr.
Qed.

Lemma finalize_rows (tmp : tmp_t) :
  forall acc rows,
    foldM finalize_step tmp acc = Ok rows ->
    forall kv, In kv rows ->
      In kv acc
      \/ exists b, In (fst kv, b) tmp /\ finalize_bucket b = Ok (snd kv).
Proof.
  induction tmp as [|[k b] tmp IH]; simpl; intros acc rows H kv Hkv.
  - inversion H; subst. now left.
  - inv_bind H. unfold finalize_step in Ha. inv_bind Ha.
    inversion Ha; subst a; clear Ha. simpl in *.
    destruct (IH _ _ H kv Hkv) as [Hacc | (b' & Hb' & Hf)].
    + apply in_app_or in Hacc. destruct Hacc as [Hacc | [<- | []]].
      * now left.
      * right. exists b. simpl. auto.
    + right. exists b'. auto.
Qed.



(** The float nearest to 1/10, and two quotients next to a tie: a win in 40
    matches is reported as 0.03 and three wins in 40 as 0.07, the float
    quotients lying just above 0.025 and just below 0.075. *)
Example b64_of_a_tenth :
  b64 (1 # 10) = (3602879701896397 # 36028797018963968)%Q
  /\ b64 (b64 (1 # 10)) = b64 (1 # 10)
  /\ (1 # 40 < b64 (1 # 40))%Q
  /\ (b64 (3 # 40) < 3 # 40)%Q.
Proof. repeat split. Qed.

Example win_rate_of_near_ties :
  map_result py_round2 (py_div 1 40) = Ok (b64 (3 # 100))
  /\ map_result py_round2 (py_div 3 40) = Ok (b64 (7 # 100)).
Proof. split; vm_compute; reflexivity. Qed.

Lemma champions_sorted_witness :
  before (nth 0 (champions Demo.report) Demo.blank_row)
         (nth 1 (champions Demo.report) Demo.blank_row)
         (champions Demo.report).
Proof.
  apply (champions_sorted Demo.api "me" Demo.season).
  - vm_compute. reflexivity.
  - vm_compute. left. reflexivity.
  - vm_compute. right. left. reflexivity.
  - left. vm_compute. reflexivity.
Defined.

(** ** The per-match shares *)

Lemma nonneg_stats_spec (s : Summoner) :
  nonneg_stats s = true ->
  0 <= gold (champion s)
  /\ 0 <= damage_dealt_to_champions (champion s)
  /\ 0 <= damage_taken (champion s)
  /\ 0 <= vision_score (champion s)
  /\ 0 <= kills (champion s)
  /\ 0 <= assists (champion s).
Proof.
  unfold nonneg_stats. rewrite !andb_true_iff, !Z.leb_le. tauto.
Qed.

Lemma totals_grow (roster : list Summoner) :
  forallb nonneg_stats roster = true ->
  forall acc,
    totals_le acc (fold_left add_to_totals roster acc)
    /\ forall s, In s roster ->
         totals_le (add_to_totals acc s) (fold_left add_to_totals roster acc).
Proof.
  induction roster as [|x roster IH]; simpl; intros Hnn acc.
  - split; [unfold totals_le; lia | intros s []].
  - apply andb_true_iff in Hnn. destruct Hnn as [Hx Hr].
    apply nonneg_stats_spec in Hx.
    destruct (IH Hr (add_to_totals acc x)) as [Hmono Hmem].
    assert (Hstep : totals_le acc (add_to_totals acc x))
      by (unfold totals_le; simpl; lia).
    split.
    + unfold totals_le in *. lia.
    + intros s [<- | Hs]; [exact Hmono|].
      specialize (Hmem s Hs).
      unfold totals_le in *. simpl in *. lia.
Qed.

Lemma member_below_total (roster : list Summoner) (s : Summoner) :
  forallb nonneg_stats roster = true ->
  In s roster ->
  0 <= gold (champion s) <= team_gold (team_totals roster)
  /\ 0 <= damage_dealt_to_champions (champion s)
       <= team_damage_dealt_to_champions (team_totals roster)
  /\ 0 <= damage_taken (champion s) <= team_damage_taken (team_totals roster)
  /\ 0 <= vision_score (champion s) <= team_vision_score (team_totals roster)
  /\ 0 <= kills (champion s) <= team_kills (team_totals roster)
  /\ 0 <= assists (champion s).
Proof.
  intros Hnn Hs.
  destruct (totals_grow roster Hnn (mkTotals 0 0 0 0 0)) as [_ Hmem].
  specialize (Hmem s Hs).
  assert (Hx : nonneg_stats s = true)
    by (rewrite forallb_forall in Hnn; now apply Hnn).
  apply nonneg_stats_spec in Hx.
  unfold team_totals, totals_le in *. simpl in Hmem. lia.
Qed.

Lemma team_nonneg (m : MatchData) (t : nat) :
  nonneg_match m = true -> forallb nonneg_stats (team m t) = true.
Proof.
  unfold nonneg_match. rewrite andb_true_iff. intros [H0 H1].
  destruct t; [exact H0 | exact H1].
Qed.

Lemma Forall_snoc {A : Type} (P : A -> Prop) (l : list A) (x : A) :
  Forall P l -> P x -> Forall P (l ++ [x]).
Proof. intros Hl Hx. apply Forall_app. auto. Qed.

Lemma shares_kept (p : string) (m : MatchData) :
  nonneg_match m = true -> records_keep p shares_ok m.
Proof.
  intros Hnn t s b b' Hs _ Hb H.
  destruct (member_below_total _ s (team_nonneg m t Hnn) Hs)
    as (Hg & Hdd & Hdt & Hvs & Hk & Ha).
  apply record_summoner_inv in H.
  destruct H as (g & dd & dt & vs & kp & Eg & Edd & Edt & Evs & Ekp
                 & _ & _ & Lg & Ldd & Ldt & Lvs & Lkp).
  assert (Hold : shares_ok b)
    by (destruct Hb as [Hb | ->]; [exact Hb | repeat split; constructor]).
  destruct Hold as (Og & Odd & Odt & Ovs & Okp).
  unfold shares_ok. rewrite Lg, Ldd, Ldt, Lvs, Lkp.
  repeat split; apply Forall_snoc; try assumption.
  - now apply (py_div_in_unit _ _ _ Hg).
  - now apply (py_div_in_unit _ _ _ Hdd).
  - now apply (py_div_in_unit _ _ _ Hdt).
  - now apply (py_div_in_unit _ _ _ Hvs).
  - refine (py_div_nonneg _ _ _ _ _ Ekp); lia.
Qed.

Lemma collect_appends (p : string) (t : nat) (m : MatchData)
    (key : string) (roster : list Summoner) :
  forallb nonneg_stats (team m t) = true ->
  (forall s, In s roster -> In s (team m t)) ->
  forall tmp tmp',
    foldM (collect_step p t m (team_totals (team m t))) roster tmp = Ok tmp' ->
    exists g dd dt vs kp,
      appends (tmp_get key tmp) (tmp_get key tmp') g dd dt vs kp
      /\ Forall in_unit g
      /\ Forall in_unit dd
      /\ Forall in_unit dt
      /\ Forall in_unit vs
      /\ Forall (Qle 0) kp
      /\ (kp_bounded_on p (team m t) = true -> Forall in_unit kp).
Proof.
  intros Hnn. induction roster as [|s roster IH]; intros Hsub tmp tmp' H.
  - inversion H; subst tmp'. exists [], [], [], [], [].
    unfold appends. rewrite !app_nil_r. repeat split; constructor.
  - cbn [foldM] in H. inv_bind H. rename a into tmp1, Ha into Hstep.
    destruct (IH (fun x Hx => Hsub x (or_intror Hx)) tmp1 tmp' H)
      as (g & dd & dt & vs & kp & Happ & Hg & Hdd & Hdt & Hvs & Hkp0 & Hkp1).
    unfold collect_step in Hstep.
    destruct (String.eqb (puuid s) p) eqn:Hp;
      [| inversion Hstep; subst tmp1; exists g, dd, dt, vs, kp; tauto].
    inv_bind Hstep. rename a into b1, Ha into Hrec.
    inversion Hstep; subst tmp1; clear Hstep.
    destruct (String.eqb_spec (name (champion s)) key) as [Hkey | Hkey].
    + subst key. rewrite tmp_get_set_same in Happ.
      assert (Hs : In s (team m t)) by (apply Hsub; now left).
      destruct (member_below_total _ s Hnn Hs)
        as (Bg & Bdd & Bdt & Bvs & Bk & Ba).
      apply record_summoner_inv in Hrec.
      destruct Hrec as (g0 & dd0 & dt0 & vs0 & kp0 & Eg & Edd & Edt & Evs
                        & Ekp & _ & _ & Lg & Ldd & Ldt & Lvs & Lkp).
      destruct Happ as (Ag & Add & Adt & Avs & Akp).
      exists (g0 :: g), (dd0 :: dd), (dt0 :: dt), (vs0 :: vs), (kp0 :: kp).
      unfold appends.
      rewrite Ag, Add, Adt, Avs, Akp, Lg, Ldd, Ldt, Lvs, Lkp.
      rewrite <- !app_assoc. cbn [app].
      split; [repeat split|].
      split; [constructor; [apply (py_div_in_unit _ _ _ Bg Eg) | exact Hg]|].
      split; [constructor; [apply (py_div_in_unit _ _ _ Bdd Edd) | exact Hdd]|].
      split; [constructor; [apply (py_div_in_unit _ _ _ Bdt Edt) | exact Hdt]|].
      split; [constructor; [apply (py_div_in_unit _ _ _ Bvs Evs) | exact Hvs]|].
      split.
      * constructor; [| exact Hkp0].
        refine (py_div_nonneg _ _ _ _ _ Ekp); lia.
      * intros Hbound. constructor; [| exact (Hkp1 Hbound)].
        unfold kp_bounded_on in Hbound. rewrite forallb_forall in Hbound.
        specialize (Hbound s Hs). rewrite Hp in Hbound. simpl in Hbound.
        apply Z.leb_le in Hbound.
        refine (py_div_in_unit _ _ _ _ Ekp). lia.
    + rewrite tmp_get_set_other in Happ by congruence.
      exists g, dd, dt, vs, kp. tauto.
Qed.

(** C1, as the code has it: on a qualifying match (longer than 5 minutes,
    with none of the four checked totals of the player's team zero) in which
    the numbers of the roster of the player's team are not negative, every
    gold, damage-dealt-to-champions, damage-taken and vision share that the
    iteration appends to a champion bucket lies in [0, 1], and every kill
    participation it appends is at least 0; the kill participations lie in
    [0, 1] as well when the player's kills plus assists do not exceed the
    kills of the player's team in this match. *)
Theorem shares_in_unit_interval (p : string) (n i : Z) (m : MatchData)
    (st st' : Locals) (t : nat) (champion_name : string)
    (Hlong : 5 < duration m)
    (Hteam : find_team p m (l_puuid_team st) = Some t)
    (Hfull : degenerate (team_totals (team m t)) = false)
    (Hnonneg : forallb nonneg_stats (team m t) = true)
    (Hbody : loop_body p n i m st = Ok st') :
  exists g dd dt vs kp,
    appends (tmp_get champion_name (l_tmp st))
            (tmp_get champion_name (l_tmp st')) g dd dt vs kp
    /\ Forall in_unit g
    /\ Forall in_unit dd
    /\ Forall in_unit dt
    /\ Forall in_unit vs
    /\ Forall (Qle 0) kp
    /\ (kp_bounded_on p (team m t) = true -> Forall in_unit kp).
Proof.
  unfold loop_body in Hbody.
  destruct (Z.leb_spec (duration m) 5) as [Hle|_]; [lia|].
  rewrite Hteam in Hbody. cbn [read_local bind] in Hbody.
  rewrite Hfull in Hbody. inv_bind Hbody. rename a into tmp', Ha into Hc.
  inversion Hbody; subst st'; clear Hbody. cbn [l_tmp].
  unfold collect in Hc.
  apply (collect_appends p t m champion_name (team m t) Hnonneg
           (fun s Hs => Hs) _ _ Hc).
Qed.

Lemma shares_in_unit_interval_witness :
  exists g dd dt vs kp,
    appends (tmp_get "Ahri" (l_tmp init_locals))
            (tmp_get "Ahri" (l_tmp Samples.after_first)) g dd dt vs kp
    /\ Forall in_unit g
    /\ Forall in_unit dd
    /\ Forall in_unit dt
    /\ Forall in_unit vs
    /\ Forall in_unit kp.
Proof.
  destruct (shares_in_unit_interval "me" 1 0 (Demo.fmt Demo.g1) init_locals
              Samples.after_first 0%nat "Ahri")
    as (g & dd & dt & vs & kp & Happ & Hg & Hdd & Hdt & Hvs & _ & Hkp).
  - vm_compute. reflexivity.
  - vm_compute. reflexivity.
  - vm_compute. reflexivity.
  - vm_compute. reflexivity.
  - vm_compute. reflexivity.
  - exists g, dd, dt, vs, kp. split; [exact Happ|].
    do 4 (split; [assumption|]).
    apply Hkp. vm_compute. reflexivity.
Defined.

(** The five values that "NA1_1" appends for "me": 3000 of 15000 gold,
    9000 of 30000 damage dealt, 4000 of 10000 damage taken, 20 of 50 vision
    and 12 kills and assists over 20 team kills, each as the nearest float. *)
Example shares_of_a_regular_game :
  exists b,
    tmp_find "Ahri" (l_tmp Samples.after_first) = Some b
    /\ Bucket.gold_share b = [b64 (1 # 5)]
    /\ Bucket.damage_dealt_to_champions_share b = [b64 (3 # 10)]
    /\ Bucket.damage_taken_share b = [b64 (2 # 5)]
    /\ Bucket.vision_score_share b = [b64 (2 # 5)]
    /\ Bucket.kill_participation b = [b64 (3 # 5)].
Proof. eexists. split; [vm_compute; reflexivity|]. repeat split. Qed.

(** Two qualifying matches with a value outside [0, 1]. On "NA1_5" all
    numbers are non-negative and the kill participation is 2: no kill and
    two assists in a team with one kill. On "NA1_7" the gold of a team mate
    is negative and the gold share of the player is 2: 200 gold in a team
    with a total of 100. *)
Lemma shares_outside_unit_interval :
  (exists m st b,
     fetch Demo.api "NA1_5" = Ok m
     /\ 5 < duration m
     /\ degenerate (team_totals (team m 0)) = false
     /\ nonneg_match m = true
     /\ map (fun s => (puuid s, kills (champion s), assists (champion s)))
            (team m 0) = [("me", 0, 2); ("ally", 1, 0)]
     /\ match_loop Demo.api "me" 1 0 ["NA1_5"] init_locals = Ok st
     /\ l_valid_matches st = 1
     /\ tmp_find "Ahri" (l_tmp st) = Some b
     /\ Bucket.kill_participation b = [2 # 1]%Q
     /\ ~ in_unit (2 # 1))
  /\ (exists m st b,
        fetch (Store.api Samples.refunds Demo.offline) "NA1_7" = Ok m
        /\ 5 < duration m
        /\ degenerate (team_totals (team m 0)) = false
        /\ kp_bounded "me" m = true
        /\ map (fun s => (puuid s, gold (champion s))) (team m 0)
           = [("me", 200); ("ally", -100)]
        /\ match_loop (Store.api Samples.refunds Demo.offline) "me" 1 0
             ["NA1_7"] init_locals = Ok st
        /\ l_valid_matches st = 1
        /\ tmp_find "Ahri" (l_tmp st) = Some b
        /\ Bucket.gold_share b = [2 # 1]%Q
        /\ ~ in_unit (2 # 1)).
Proof.
  split.
  - do 3 eexists.
    split; [vm_compute; reflexivity|].
    split; [vm_compute; reflexivity|].
    split; [vm_compute; reflexivity|].
    split; [vm_compute; reflexivity|].
    split; [vm_compute; reflexivity|].
    split; [vm_compute; reflexivity|].
    split; [reflexivity|].
    split; [reflexivity|].
    split; [reflexivity|].
    intros [_ H]. vm_compute in H. now apply H.
  - do 3 eexists.
    split; [vm_compute; reflexivity|].
    split; [vm_compute; reflexivity|].
    split; [vm_compute; reflexivity|].
    split; [vm_compute; reflexivity|].
    split; [vm_compute; reflexivity|].
    split; [vm_compute; reflexivity|].
    split; [reflexivity|].
    split; [reflexivity|].
    split; [reflexivity|].
    intros [_ H]. vm_compute in H. now apply H.
Qed.

(** ** [get_match_ids] against the match service *)

(** *** Lists sorted by a relation *)

Lemma sorted_filter {A : Type} (R : A -> A -> Prop) (f : A -> bool)
    (l : list A) :
  StronglySorted R l -> StronglySorted R (filter f l).
Proof.
  induction l as [|x l IH]; simpl; intros H; [constructor|].
  apply StronglySorted_inv in H. destruct H as [Hl Hx].
  destruct (f x); [| now apply IH].
  constructor; [now apply IH|].
  rewrite Forall_forall in *. intros y Hy. apply Hx.
  now apply filter_In in Hy.
Qed.

Lemma sorted_cross {A : Type} (R : A -> A -> Prop) (l1 l2 : list A) :
  StronglySorted R (l1 ++ l2) ->
  StronglySorted R l1 /\ StronglySorted R l2
  /\ forall a b, In a l1 -> In b l2 -> R a b.
Proof.
  induction l1 as [|x l1 IH]; simpl; intros H.
  - repeat split; [constructor | assumption | intros a b []].
  - apply StronglySorted_inv in H. destruct H as [Hl Hx].
    destruct (IH Hl) as (H1 & H2 & H12).
    rewrite Forall_forall in Hx.
    repeat split; [| assumption |].
    + constructor; [assumption|]. rewrite Forall_forall.
      intros y Hy. apply Hx, in_or_app. now left.
    + intros a b [<- | Ha] Hb; [| now apply H12].
      apply Hx, in_or_app. now right.
Qed.

Lemma sorted_app {A : Type} (R : A -> A -> Prop) (l1 l2 : list A) :
  StronglySorted R l1 -> StronglySorted R l2 ->
  (forall a b, In a l1 -> In b l2 -> R a b) ->
  StronglySorted R (l1 ++ l2).
Proof.
  induction l1 as [|x l1 IH]; simpl; intros H1 H2 H12; [assumption|].
  apply StronglySorted_inv in H1. destruct H1 as [Hl Hx].
  constructor.
  - apply IH; auto.
  - apply Forall_app. split; [assumption|].
    rewrite Forall_forall. intros y Hy. apply H12; auto.
Qed.

Lemma sorted_firstn {A : Type} (R : A -> A -> Prop) (n : nat) (l : list A) :
  StronglySorted R l -> StronglySorted R (firstn n l).
Proof.
  intros H. rewrite <- (firstn_skipn n l) in H.
  now apply sorted_cross in H.
Qed.

Lemma In_firstn {A : Type} (n : nat) (l : list A) (x : A) :
  In x (firstn n l) -> In x l.
Proof.
  intros H. rewrite <- (firstn_skipn n l). apply in_or_app. now left.
Qed.

Lemma last_In {A : Type} (l : list A) (x d : A) : In (last (x :: l) d) (x :: l).
Proof.
  revert x. induction l as [|y l IH]; intros x; [now left|].
  right. apply (IH y).
Qed.

(** The last item of a sorted list is below every item. *)
Lemma sorted_last {A : Type} (R : A -> A -> Prop) (l : list A) (x d : A) :
  (forall a, R a a) ->
  StronglySorted R (x :: l) ->
  forall a, In a (x :: l) -> R a (last (x :: l) d).
Proof.
  intros Hrefl. revert x. induction l as [|y l IH]; intros x Hs a Ha.
  - destruct Ha as [<- | []]. apply Hrefl.
  - apply StronglySorted_inv in Hs. destruct Hs as [Hl Hx].
    change (last (x :: y :: l) d) with (last (y :: l) d).
    destruct Ha as [<- | Ha]; [| now apply IH].
    rewrite Forall_forall in Hx. apply Hx, last_In.
Qed.

Lemma NoDup_map_filter {A B : Type} (f : A -> B) (g : A -> bool) (l : list A) :
  NoDup (map f l) -> NoDup (map f (filter g l)).
Proof.
  induction l as [|x l IH]; simpl; intros H; [constructor|].
  apply NoDup_cons_iff in H. destruct H as [Hx Hl].
  destruct (g x); [| now apply IH].
  simpl. constructor; [| now apply IH].
  intros Hin. apply Hx. apply in_map_iff in Hin.
  destruct Hin as (y & Hy & Hin). apply filter_In in Hin.
  apply in_map_iff. exists y. tauto.
Qed.

Lemma NoDup_map_firstn {A B : Type} (f : A -> B) (n : nat) (l : list A) :
  NoDup (map f l) -> NoDup (map f (firstn n l)).
Proof.
  intros H. rewrite <- (firstn_skipn n l), map_app in H.
  now apply NoDup_app_remove_r in H.
Qed.

Lemma NoDup_map_same {A B : Type} (f : A -> B) (l : list A) (a b : A) :
  NoDup (map f l) -> In a l -> In b l -> f a = f b -> a = b.
Proof.
  induction l as [|x l IH]; simpl; intros H Ha Hb Hf; [easy|].
  apply NoDup_cons_iff in H. destruct H as [Hx Hl].
  destruct Ha as [<- | Ha], Hb as [<- | Hb]; auto.
  - exfalso. apply Hx. rewrite Hf. now apply in_map.
  - exfalso. apply Hx. rewrite <- Hf. now apply in_map.
Qed.

Lemma filter_and {A : Type} (f g : A -> bool) (l : list A) :
  filter g (filter f l) = filter (fun x => f x && g x) l.
Proof.
  induction l as [|x l IH]; simpl; [reflexivity|].
  destruct (f x); simpl; [| assumption].
  destruct (g x); now rewrite IH.
Qed.

Lemma filter_length_lt {A : Type} (f g : A -> bool) (l : list A) (a : A) :
  (forall x, f x = true -> g x = true) ->
  In a l -> g a = true -> f a = false ->
  (List.length (filter f l) < List.length (filter g l))%nat.
Proof.
  intros Hfg. 
  assert (Hle : forall l', (List.length (filter f l')
                            <= List.length (filter g l'))%nat).
  { induction l' as [|x l' IH]; simpl; [lia|].
    destruct (f x) eqn:Hf.
    - rewrite (Hfg x Hf). simpl. lia.
    - destruct (g x); simpl; lia. }
  induction l as [|x l IH]; simpl; intros Ha Hg Hf; [easy|].
  destruct Ha as [-> | Ha].
  - rewrite Hf, Hg. simpl. specialize (Hle l). lia.
  - specialize (IH Ha Hg Hf). destruct (f x) eqn:Hfx.
    + rewrite (Hfg x Hfx). simpl. lia.
    + destruct (g x); simpl; lia.
Qed.

Lemma filter_length_bound {A : Type} (f : A -> bool) (l : list A) :
  (List.length (filter f l) <= List.length l)%nat.
Proof.
  induction l as [|x l IH]; simpl; [lia|]. destruct (f x); simpl; lia.
Qed.

(** *** The stored matches *)

Lemma desc_ts (x y : Store.entry) :
  desc Store.ts_key x y <->
  gameStartTimestamp (Store.raw y) <= gameStartTimestamp (Store.raw x).
Proof. unfold desc. rewrite key_ltb_ge. simpl. lia. Qed.

Lemma start_sec_mono (x y : Store.entry) :
  desc Store.ts_key x y -> Store.start_sec y <= Store.start_sec x.
Proof.
  rewrite desc_ts. unfold Store.start_sec. intros H.
  apply Z.div_le_mono; lia.
Qed.

Lemma start_sec_lt (x y : Store.entry) :
  Store.start_sec y < Store.start_sec x -> desc Store.ts_key x y.
Proof.
  rewrite desc_ts. unfold Store.start_sec. intros H.
  destruct (Z.le_gt_cases (gameStartTimestamp (Store.raw y))
              (gameStartTimestamp (Store.raw x))) as [Hle | Hgt];
    [assumption|].
  assert (gameStartTimestamp (Store.raw x) / 1000
          <= gameStartTimestamp (Store.raw y) / 1000)
    by (apply Z.div_le_mono; lia).
  lia.
Qed.

Lemma mine_In (p : string) (s : Store.t) (e : Store.entry) :
  In e (Store.mine p s) <->
  In e s /\ Store.ranked e = true /\ Store.played_by p e = true.
Proof.
  unfold Store.mine. rewrite filter_In, andb_true_iff. tauto.
Qed.

Lemma since_In (s : Store.t) (p : string) (S0 : Z) (e : Store.entry) :
  In e (Store.since s p S0) <->
  In e (Store.mine p s) /\ S0 <= Store.start_sec e.
Proof.
  unfold Store.since, Store.in_window, Store.newest_first.
  rewrite filter_In, andb_true_r, Z.leb_le.
  split; intros [H1 H2]; (split; [| assumption]).
  - apply (Permutation_in _ (Permutation_sym (sorted_reverse_perm _ _)) H1).
  - apply (Permutation_in _ (sorted_reverse_perm _ _) H1).
Qed.

Lemma since_sorted (s : Store.t) (p : string) (S0 : Z) :
  StronglySorted (desc Store.ts_key) (Store.since s p S0).
Proof. apply sorted_filter, sorted_reverse_sorted. Qed.

Lemma since_NoDup (s : Store.t) (p : string) (S0 : Z) :
  NoDup (map Store.id_of s) -> NoDup (map Store.id_of (Store.since s p S0)).
Proof.
  intros H. unfold Store.since, Store.newest_first.
  apply NoDup_map_filter.
  apply (Permutation_NoDup
           (Permutation_map Store.id_of (sorted_reverse_perm _ _))).
  now apply NoDup_map_filter.
Qed.

Lemma since_length (s : Store.t) (p : string) (S0 : Z) :
  (List.length (Store.since s p S0) <= List.length s)%nat.
Proof.
  unfold Store.since, Store.newest_first, Store.mine.
  etransitivity; [apply filter_length_bound|].
  rewrite <- (Permutation_length (sorted_reverse_perm _ _)).
  apply filter_length_bound.
Qed.

Lemma page_before (s : Store.t) (p : string) (S0 T : Z) :
  Store.page s p S0 (Some T) =
  firstn 100 (filter (older_than T) (Store.since s p S0)).
Proof.
  unfold Store.page, Store.since. rewrite filter_and. f_equal.
  apply filter_ext. intros e. unfold Store.in_window.
  now rewrite andb_true_r.
Qed.

Lemma find_stored (s : Store.t) (e : Store.entry) :
  NoDup (map Store.id_of s) -> In e s ->
  find (fun e' => String.eqb (Store.id_of e') (Store.id_of e)) s = Some e.
Proof.
  induction s as [|x s IH]; simpl; intros Hn He; [easy|].
  destruct (String.eqb_spec (Store.id_of x) (Store.id_of e)) as [Heq | Hne].
  - f_equal. apply (NoDup_map_same Store.id_of (x :: s)); simpl; auto.
  - apply NoDup_cons_iff in Hn. destruct He as [-> | He]; [easy|].
    now apply IH.
Qed.

Lemma get_match_data_stored (s : Store.t) (rest : Api) (e : Store.entry) :
  NoDup (map Store.id_of s) -> In e s ->
  get_match_data (Store.api s rest) (Store.id_of e) = Ok (Store.raw e).
Proof.
  intros Hn He. unfold get_match_data. simpl. unfold Store.find_match.
  now rewrite find_stored.
Qed.

Lemma rev_last {A : Type} (l : list A) (x d : A) :
  exists tl, rev (x :: l) = last (x :: l) d :: tl.
Proof.
  exists (rev (removelast (x :: l))).
  rewrite (app_removelast_last d (l := x :: l)) at 1 by discriminate.
  now rewrite rev_app_distr.
Qed.

Lemma last_start_time_stored (s : Store.t) (rest : Api) (b : Store.entry)
    (bs : list Store.entry) :
  NoDup (map Store.id_of s) ->
  (forall e, In e (b :: bs) -> In e s) ->
  last_start_time (Store.api s rest) (map Store.id_of (b :: bs))
  = Ok (Store.start_sec (last (b :: bs) b)).
Proof.
  intros Hn Hin. unfold last_start_time. rewrite <- map_rev.
  destruct (rev_last bs b b) as (tl & ->). cbn [map].
  rewrite (get_match_data_stored s rest (last (b :: bs) b) Hn);
    [reflexivity|].
  apply Hin, last_In.
Qed.



(** *** The paging loop *)

Lemma since_stored (s : Store.t) (p : string) (S0 : Z) (e : Store.entry) :
  In e (Store.since s p S0) -> In e s.
Proof. rewrite since_In, mine_In. tauto. Qed.

(** One more page keeps the invariant and leaves fewer entries to fetch. *)
Lemma next_page (s : Store.t) (p : string) (S0 T : Z)
    (acc : list Store.entry) (b : Store.entry) (bs : list Store.entry) :
  NoDup (map Store.id_of s) ->
  paging_inv s p S0 acc T ->
  firstn 100 (filter (older_than T) (Store.since s p S0))
    = b :: bs ->
  paging_inv s p S0 (acc ++ b :: bs) (Store.start_sec (last (b :: bs) b))
  /\ (List.length (filter (older_than (Store.start_sec (last (b :: bs) b)))
                          (Store.since s p S0))
      < List.length (filter (older_than T)
                            (Store.since s p S0)))%nat.
Proof.
  intros Hn (Hs & Hin & Hnd & HT & Hcov) Hb.
  set (L := filter (older_than T) (Store.since s p S0))
    in *.
  set (B := b :: bs) in *.
  assert (HL : StronglySorted (desc Store.ts_key) L)
    by apply sorted_filter, since_sorted.
  assert (HBL : forall e, In e B -> In e L)
    by (intros e He; rewrite <- Hb in He; now apply In_firstn in He).
  assert (HLs : forall e, In e L ->
                  In e (Store.since s p S0) /\ Store.start_sec e < T)
    by (intros e He; apply filter_In in He; unfold older_than in He;
        now rewrite Z.ltb_lt in He).
  assert (HBs : StronglySorted (desc Store.ts_key) B)
    by (rewrite <- Hb; now apply sorted_firstn).
  assert (Hrefl : forall a : Store.entry, desc Store.ts_key a a)
    by (intros a; apply desc_ts; lia).
  assert (Hlast : In (last B b) B) by apply last_In.
  destruct (HLs _ (HBL _ Hlast)) as [Hlast_s Hlast_T].
  assert (HBlast : forall e, In e B ->
                     Store.start_sec (last B b) <= Store.start_sec e).
  { intros e He. apply start_sec_mono.
    now apply (sorted_last _ bs b b Hrefl HBs). }
  split; [repeat split|].
  - apply sorted_app; auto. intros a e Ha He.
    apply start_sec_lt. specialize (HT a Ha).
    destruct (HLs e (HBL e He)). lia.
  - intros e He. apply in_app_or in He. destruct He as [He | He]; auto.
    now apply HLs, HBL.
  - rewrite map_app. apply NoDup_app; auto.
    + rewrite <- Hb. apply NoDup_map_firstn, NoDup_map_filter.
      now apply since_NoDup.
    + intros x Hx1 Hx2.
      apply in_map_iff in Hx1. destruct Hx1 as (a & Hax & Ha).
      apply in_map_iff in Hx2. destruct Hx2 as (e & Hex & He).
      destruct (HLs e (HBL e He)) as [Hes HeT].
      assert (a = e).
      { apply (NoDup_map_same Store.id_of s); eauto using since_stored.
        congruence. }
      subst e. specialize (HT a Ha). lia.
  - intros e He. apply in_app_or in He. destruct He as [He | He]; auto.
    specialize (HT e He). lia.
  - intros Hsec e He.
    destruct (Hcov Hsec e He) as [Hacc | HeT];
      [left; apply in_or_app; now left|].
    assert (HeL : In e L)
      by (apply filter_In; unfold older_than; now rewrite Z.ltb_lt).
    rewrite <- (firstn_skipn 100 L), Hb in HeL.
    apply in_app_or in HeL. destruct HeL as [HeB | Hrest];
      [left; apply in_or_app; now right|].
    rewrite <- (firstn_skipn 100 L), Hb in HL.
    apply sorted_cross in HL. destruct HL as (_ & _ & Hcross).
    pose proof (start_sec_mono _ _ (Hcross _ _ Hlast Hrest)) as Hle.
    destruct (Z.eq_dec (Store.start_sec e) (Store.start_sec (last B b)))
      as [Heq | Hne]; [| right; lia].
    left. apply in_or_app. right.
    replace e with (last B b); [assumption|].
    apply (NoDup_map_same Store.start_sec (Store.mine p s)); auto.
    + now apply since_In in Hlast_s.
    + now apply since_In in He.
  - apply (filter_length_lt _ _ _ (last B b)).
    + intros x. unfold older_than. rewrite !Z.ltb_lt. lia.
    + assumption.
    + now apply Z.ltb_lt.
    + apply Z.ltb_ge. lia.
Qed.

Lemma paging_loop_stored (s : Store.t) (rest : Api) (p : string) (S0 : Z) :
  NoDup (map Store.id_of s) ->
  forall fuel acc T,
    paging_inv s p S0 acc T ->
    (List.length (filter (older_than T)
                         (Store.since s p S0)) < fuel)%nat ->
    exists acc',
      paging_loop (Store.api s rest) p S0 fuel (map Store.id_of acc) T
        = Ok (map Store.id_of acc')
      /\ listed s p S0 acc'.
Proof.
  intros Hn. induction fuel as [|fuel IH]; intros acc T Hinv Hlen; [lia|].
  cbn [paging_loop]. rewrite Z.gtb_ltb.
  destruct (Z.ltb_spec S0 T) as [Hlt | Hge].
  - change (assert_200 (match_ids_by_puuid (Store.api s rest) p S0 (Some T)))
      with (Ok (Store.list_ids s p S0 (Some T))).
    cbn [bind]. unfold Store.list_ids. rewrite page_before.
    destruct (firstn 100 _) as [|b bs] eqn:Hb.
    + exists acc. split; [reflexivity|].
      destruct Hinv as (Hs & Hin & Hnd & HT & Hcov).
      repeat split; auto.
      intros Hsec e He. destruct (Hcov Hsec e He) as [Hacc | HeT]; auto.
      exfalso.
      assert (HeL : In e (filter (older_than T)
                            (Store.since s p S0)))
        by (apply filter_In; unfold older_than; now rewrite Z.ltb_lt).
      destruct (filter _ _); [easy | discriminate].
    + destruct (next_page s p S0 T acc b bs Hn Hinv Hb) as [Hinv' Hlen'].
      cbn [map]. change (Store.id_of b :: map Store.id_of bs)
        with (map Store.id_of (b :: bs)).
      rewrite (last_start_time_stored s rest b bs Hn).
      * cbn [bind]. rewrite <- map_app. apply IH; [assumption | lia].
      * intros e He. destruct Hinv' as (_ & Hin' & _).
        apply (since_stored s p S0), Hin', in_or_app. now right.
  - exists acc. split; [reflexivity|].
    destruct Hinv as (Hs & Hin & Hnd & HT & Hcov).
    repeat split; auto.
    intros Hsec e He. destruct (Hcov Hsec e He) as [Hacc | HeT]; auto.
    apply since_In in He. lia.
Qed.

Lemma nodupb_NoDup (l : list string) : nodupb l = true -> NoDup l.
Proof.
  induction l as [|x l IH]; simpl; intros H; [constructor|].
  apply andb_true_iff in H. destruct H as [Hx Hl].
  constructor; [| now apply IH].
  intros Hin. apply negb_true_iff in Hx.
  assert (existsb (String.eqb x) l = true); [| congruence].
  apply existsb_exists. exists x. split; [assumption | apply String.eqb_refl].
Qed.

Lemma start_sec_bound (l : list Store.entry) :
  exists T, forall e, In e l -> Store.start_sec e < T.
Proof.
  induction l as [|x l [T HT]].
  - exists 0. intros e [].
  - exists (Z.max T (Store.start_sec x + 1)).
    intros e [<- | He]; [lia|]. specialize (HT e He). lia.
Qed.

Lemma filter_all {A : Type} (f : A -> bool) (l : list A) :
  (forall x, In x l -> f x = true) -> filter f l = l.
Proof.
  induction l as [|x l IH]; simpl; intros H; [reflexivity|].
  rewrite (H x (or_introl eq_refl)). f_equal. apply IH. auto.
Qed.

(** The fetcher returns, and what it returns is [listed]. *)
Lemma get_match_ids_stored (s : Store.t) (rest : Api) (now : Z) (p : string) :
  NoDup (map Store.id_of s) ->
  exists acc,
    get_match_ids s rest now p = Ok (map Store.id_of acc)
    /\ listed s p (now - 365 * 86400) acc.
Proof.
  intros Hn. unfold get_match_ids, get_match_ids_fuel.
  set (S0 := now - 365 * 86400).
  change (assert_200 (match_ids_by_puuid (Store.api s rest) p S0 None))
    with (Ok (Store.list_ids s p S0 None)).
  cbn [bind]. unfold Store.list_ids, Store.page.
  fold (Store.since s p S0).
  destruct (firstn 100 (Store.since s p S0)) as [|b bs] eqn:Hb.
  - exists []. split; [reflexivity|].
    split; [constructor|]. split; [intros e []|]. split; [constructor|].
    intros _ e He. destruct (Store.since s p S0); [easy | discriminate].
  - destruct (start_sec_bound (Store.since s p S0)) as [T HT].
    assert (Hall : filter (older_than T) (Store.since s p S0)
                   = Store.since s p S0).
    { apply filter_all. intros e He. apply Z.ltb_lt. auto. }
    assert (Hinv : paging_inv s p S0 [] T).
    { split; [constructor|]. split; [intros e []|]. split; [constructor|].
      split; [intros e []|]. intros _ e He. right. auto. }
    destruct (next_page s p S0 T [] b bs Hn Hinv) as [Hinv' Hlen];
      [now rewrite Hall|].
    rewrite Hall in Hlen. pose proof (since_length s p S0) as Hs.
    cbn [map]. change (Store.id_of b :: map Store.id_of bs)
      with (map Store.id_of (b :: bs)).
    rewrite (last_start_time_stored s rest b bs Hn).
    + cbn [bind]. change ([] ++ map Store.id_of (b :: bs))
        with (map Store.id_of ([] ++ b :: bs)).
      apply paging_loop_stored; [assumption | assumption | lia].
    + intros e He. destruct Hinv' as (_ & Hin' & _).
      apply (since_stored s p S0), Hin'. exact He.
Qed.

Lemma sorted_ids (s : Store.t) (acc : list Store.entry) :
  StronglySorted (desc Store.ts_key) acc ->
  (forall e, In e acc -> In e s) ->
  StronglySorted (newer_or_same s) (map Store.id_of acc).
Proof.
  induction acc as [|x acc IH]; simpl; intros Hs Hin; [constructor|].
  apply StronglySorted_inv in Hs. destruct Hs as [Hacc Hx].
  constructor; [apply IH; auto|].
  rewrite Forall_forall in *. intros y Hy.
  apply in_map_iff in Hy. destruct Hy as (e & <- & He).
  exists x, e. repeat split; auto. now apply desc_ts, Hx.
Qed.

(** C2: run against a match service that stores one match per id,
    [get_match_ids] returns, and the list it returns holds no id twice, is
    ordered newest first (descending by match start time) and is made of the
    player's ranked matches of the last 365 days; it holds all of them when
    no two of the player's matches start in the same second. *)
Theorem get_match_ids_newest_first (s : Store.t) (rest : Api) (now : Z)
    (p : string) (Hstore : NoDup (map Store.id_of s)) :
  exists ids,
    get_match_ids s rest now p = Ok ids
    /\ NoDup ids
    /\ StronglySorted (newer_or_same s) ids
    /\ (forall match_id, In match_id ids ->
          exists e, In e s /\ Store.id_of e = match_id
                    /\ Store.ranked e = true
                    /\ Store.played_by p e = true
                    /\ now - 365 * 86400 <= Store.start_sec e)
    /\ (NoDup (map Store.start_sec (Store.mine p s)) ->
        forall e, In e s -> Store.ranked e = true ->
                  Store.played_by p e = true ->
                  now - 365 * 86400 <= Store.start_sec e ->
                  In (Store.id_of e) ids).
Proof.
  destruct (get_match_ids_stored s rest now p Hstore)
    as (acc & Hrun & Hs & Hin & Hnd & Hcov).
  exists (map Store.id_of acc). split; [exact Hrun|].
  split; [exact Hnd|]. split; [| split].
  - apply sorted_ids; [exact Hs|]. intros e He.
    now apply (since_stored s p (now - 365 * 86400)), Hin.
  - intros match_id Hid. apply in_map_iff in Hid.
    destruct Hid as (e & <- & He). exists e.
    apply Hin, since_In in He. destruct He as [He Hsec].
    apply mine_In in He. tauto.
  - intros Hsec e He Hr Hp Hw. apply in_map, Hcov; [assumption|].
    apply since_In. split; [| assumption]. apply mine_In. tauto.
Qed.

Lemma get_match_ids_newest_first_witness :
  exists ids,
    get_match_ids Demo.long_store Demo.offline 1700000000 "me" = Ok ids
    /\ NoDup ids
    /\ StronglySorted (newer_or_same Demo.long_store) ids
    /\ (forall match_id, In match_id ids ->
          exists e, In e Demo.long_store /\ Store.id_of e = match_id
                    /\ Store.ranked e = true
                    /\ Store.played_by "me" e = true
                    /\ 1700000000 - 365 * 86400 <= Store.start_sec e)
    /\ (NoDup (map Store.start_sec (Store.mine "me" Demo.long_store)) ->
        forall e, In e Demo.long_store -> Store.ranked e = true ->
                  Store.played_by "me" e = true ->
                  1700000000 - 365 * 86400 <= Store.start_sec e ->
                  In (Store.id_of e) ids).
Proof.
  apply (get_match_ids_newest_first Demo.long_store Demo.offline 1700000000
           "me").
  apply nodupb_NoDup. vm_compute. reflexivity.
Defined.

(** The long history takes three pages and a fourth, empty one: all 250 ids
    come back, the newest first. *)
Example get_match_ids_pages :
  exists ids,
    get_match_ids Demo.long_store Demo.offline 1700000000 "me" = Ok ids
    /\ List.length ids = 250%nat
    /\ firstn 2 ids = ["NA1_1000"; "NA1_1001"]
    /\ skipn 248 ids = ["NA1_1248"; "NA1_1249"].
Proof.
  eexists. split; [vm_compute; reflexivity|]. repeat split.
Qed.

(** The short history with the clock at second 1731536000: the window opens
    at 1700000000 and leaves out the two older games of "me". *)
Example get_match_ids_window :
  get_match_ids Demo.store Demo.offline 1731536000 "me"
  = Ok ["NA1_1"; "NA1_2"; "NA1_3"].
Proof. vm_compute. reflexivity. Qed.

(** The fetcher does not always cover the window. The second page asks for
    matches that start before the second of the oldest match of the first
    page: of 101 ranked matches of "me" that start in the same second, the
    first page lists 100 and the last one, "NA1_2100", is never listed. *)
Lemma same_second_match_dropped :
  NoDup (map Store.id_of Samples.burst)
  /\ exists ids e,
       get_match_ids Samples.burst Demo.offline 1700000400 "me" = Ok ids
       /\ List.length ids = 100%nat
       /\ In e Samples.burst
       /\ Store.id_of e = "NA1_2100"
       /\ Store.ranked e = true
       /\ Store.played_by "me" e = true
       /\ 1700000400 - 365 * 86400 <= Store.start_sec e <= 1700000400
       /\ ~ In (Store.id_of e) ids.
Proof.
  split; [apply nodupb_NoDup; vm_compute; reflexivity|].
  eexists. exists (nth 100 Samples.burst Demo.g1).
  split; [vm_compute; reflexivity|].
  split; [reflexivity|].
  split; [apply nth_In; vm_compute; lia|].
  split; [vm_compute; reflexivity|].
  split; [vm_compute; reflexivity|].
  split; [vm_compute; reflexivity|].
  split; [vm_compute; split; discriminate|].
  intros Hin.
  match type of Hin with
  | In ?x ?l =>
      assert (H : existsb (String.eqb x) l = true)
        by (apply existsb_exists; exists x; split;
            [exact Hin | apply String.eqb_refl])
  end.
  vm_compute in H. discriminate.
Qed.

(** * Further properties *)

(** ** [format_match_data]: the two rosters *)

Lemma filter_split_length (ps : list RawParticipant) :
  (List.length (filter blue ps) + List.length (filter red ps)
   = List.length ps)%nat.
Proof.
  induction ps as [|p ps IH]; simpl; [reflexivity|].
  unfold red at 1. destruct (blue p); simpl; lia.
Qed.

Lemma format_participant_carries (api : Api) (patch : string)
    (p : RawParticipant) (s : Summoner) :
  format_participant api patch p = Ok s -> carries p s.
Proof.
  unfold format_participant. intros H.
  inv_bind H. inv_bind H. inversion H; subst s. unfold carries. simpl.
  repeat split.
Qed.

Lemma add_participants_split (api : Api) (patch : string)
    (ps : list RawParticipant) :
  forall t0 t1 ts,
    foldM (add_participant api patch) ps (t0, t1) = Ok ts ->
    exists l0 l1,
      ts = (t0 ++ l0, t1 ++ l1)
      /\ Forall2 (fun p s => format_participant api patch p = Ok s)
                 (filter blue ps) l0
      /\ Forall2 (fun p s => format_participant api patch p = Ok s)
                 (filter red ps) l1.
Proof.
  induction ps as [|p ps IH]; simpl; intros t0 t1 ts H.
  - inversion H; subst ts. exists [], []. rewrite !app_nil_r.
    repeat split; constructor.
  - inv_bind H. unfold add_participant in Ha. inv_bind Ha.
    rename a0 into s, Ha0 into Hs. inversion Ha; subst a; clear Ha.
    unfold red, blue. simpl fst in H. simpl snd in H.
    destruct (teamId p =? 100); simpl negb; cbv iota;
      destruct (IH _ _ _ H) as (l0 & l1 & -> & H0 & H1).
    + exists (s :: l0), l1. rewrite <- app_assoc. simpl.
      repeat split; [constructor|]; assumption.
    + exists l0, (s :: l1). rewrite <- app_assoc. simpl.
      repeat split; [|constructor]; assumption.
Qed.

Lemma format_match_data_inv (api : Api) (raw : RawMatch) (m : MatchData) :
  format_match_data api raw = Ok m ->
  exists win0 rest,
    teams_win raw = win0 :: rest
    /\ match_id m = matchId raw
    /\ strftime api (gameStartTimestamp raw) = Ok (start_time m)
    /\ duration m = gameDuration raw / 60
    /\ patch m = String.concat "." (firstn 2 (split_dot (gameVersion raw)))
    /\ wining_team m = (if win0 then 0%nat else 1%nat)
    /\ Forall2 (fun p s => format_participant api (patch m) p = Ok s)
               (filter blue (participants raw)) (team m 0)
    /\ Forall2 (fun p s => format_participant api (patch m) p = Ok s)
               (filter red (participants raw)) (team m 1).
Proof.
  unfold format_match_data. intros H.
  inv_bind H. rename a into start, Ha into Hstart.
  destruct (teams_win raw) as [|win0 rest]; [discriminate|].
  cbn [bind] in H. inv_bind H. rename a into ts, Ha into Hts.
  inversion H; subst m; clear H. simpl.
  apply add_participants_split in Hts.
  destruct Hts as (l0 & l1 & -> & H0 & H1). simpl.
  exists win0, rest. repeat split; assumption.
Qed.

Lemma rosters_carry (api : Api) (raw : RawMatch) (m : MatchData) :
  format_match_data api raw = Ok m ->
  Forall2 carries (filter blue (participants raw)) (team m 0)
  /\ Forall2 carries (filter red (participants raw)) (team m 1).
Proof.
  intros Hfmt. apply format_match_data_inv in Hfmt.
  destruct Hfmt as (win0 & rest & _ & _ & _ & _ & _ & _ & H0 & H1).
  assert (Hc : forall ps l,
             Forall2 (fun p s => format_participant api (patch m) p = Ok s)
                     ps l -> Forall2 carries ps l).
  { intros ps l H. induction H; constructor;
      eauto using format_participant_carries. }
  split; now apply Hc.
Qed.

(** X1: [format_match_data] puts every participant on exactly one roster:
    the participants with team id 100 make up team 0 and all the others
    team 1, each roster in the order of the payload, and every entry holds
    the numbers of its participant (cs being lane plus jungle minions). *)
Theorem format_match_data_rosters (api : Api) (raw : RawMatch) (m : MatchData)
    (Hfmt : format_match_data api raw = Ok m) :
  Forall2 carries (filter blue (participants raw)) (team m 0)
  /\ Forall2 carries (filter red (participants raw)) (team m 1)
  /\ (List.length (team m 0) + List.length (team m 1)
      = List.length (participants raw))%nat.
Proof.
  destruct (rosters_carry api raw m Hfmt) as [H0 H1].
  split; [assumption|]. split; [assumption|].
  rewrite <- (Forall2_length H0), <- (Forall2_length H1).
  apply filter_split_length.
Qed.

Lemma fold_totals (roster : list Summoner) :
  forall acc,
    fold_left add_to_totals roster acc =
    {| team_gold := team_gold acc + roster_sum gold roster;
       team_damage_dealt_to_champions :=
         team_damage_dealt_to_champions acc
         + roster_sum damage_dealt_to_champions roster;
       team_damage_taken :=
         team_damage_taken acc + roster_sum damage_taken roster;
       team_vision_score :=
         team_vision_score acc + roster_sum vision_score roster;
       team_kills := team_kills acc + roster_sum kills roster |}.
Proof.
  induction roster as [|s roster IH]; intros acc.
  - destruct acc. simpl. f_equal; lia.
  - simpl. rewrite IH. unfold add_to_totals. simpl. f_equal; lia.
Qed.

Lemma carried_sum (f : RawParticipant -> Z) (g : Champion -> Z)
    (ps : list RawParticipant) (roster : list Summoner) :
  Forall2 (fun p s => g (champion s) = f p) ps roster ->
  roster_sum g roster = total_of f ps.
Proof.
  intros H. induction H as [|p s ps roster Hps _ IH]; simpl; [reflexivity|].
  now rewrite Hps, IH.
Qed.

Lemma totals_of_carried (ps : list RawParticipant) (roster : list Summoner) :
  Forall2 carries ps roster ->
  team_totals roster =
  {| team_gold := total_of goldEarned ps;
     team_damage_dealt_to_champions := total_of totalDamageDealtToChampions ps;
     team_damage_taken := total_of totalDamageTaken ps;
     team_vision_score := total_of visionScore ps;
     team_kills := total_of rp_kills ps |}.
Proof.
  intros H. unfold team_totals. rewrite fold_totals. simpl.
  f_equal; apply carried_sum; (eapply Forall2_impl; [| exact H]);
    unfold carries; intros p s Hc; tauto.
Qed.

(** X2: the team totals that [get_match_stats] computes on a formatted match
    are the sums of the raw numbers over the participants of that side: gold
    earned, damage dealt to champions, damage taken, vision score, kills. *)
Theorem format_match_data_totals (api : Api) (raw : RawMatch) (m : MatchData)
    (Hfmt : format_match_data api raw = Ok m) :
  team_totals (team m 0) =
    {| team_gold := total_of goldEarned (filter blue (participants raw));
       team_damage_dealt_to_champions :=
         total_of totalDamageDealtToChampions (filter blue (participants raw));
       team_damage_taken :=
         total_of totalDamageTaken (filter blue (participants raw));
       team_vision_score := total_of visionScore (filter blue (participants raw));
       team_kills := total_of rp_kills (filter blue (participants raw)) |}
  /\ team_totals (team m 1) =
    {| team_gold := total_of goldEarned (filter red (participants raw));
       team_damage_dealt_to_champions :=
         total_of totalDamageDealtToChampions (filter red (participants raw));
       team_damage_taken :=
         total_of totalDamageTaken (filter red (participants raw));
       team_vision_score := total_of visionScore (filter red (participants raw));
       team_kills := total_of rp_kills (filter red (participants raw)) |}.
Proof.
  destruct (rosters_carry api raw m Hfmt) as [H0 H1].
  split; now apply totals_of_carried.
Qed.

(** ** [format_match_data]: roles *)

Lemma lower_ascii_twice (c : ascii) :
  lower_ascii (lower_ascii c) = lower_ascii c.
Proof.
  destruct c as [[] [] [] [] [] [] [] []]; reflexivity.
Qed.

Lemma lower_twice (s : string) : lower (lower s) = lower s.
Proof.
  induction s as [|c s IH]; simpl; [reflexivity|].
  now rewrite lower_ascii_twice, IH.
Qed.

Lemma format_participant_position (api : Api) (patch : string)
    (p : RawParticipant) (s : Summoner) :
  format_participant api patch p = Ok s ->
  position (champion s) =
    (if String.eqb (lower (teamPosition p)) "utility" then "support"
     else lower (teamPosition p)).
Proof.
  unfold format_participant. intros H.
  inv_bind H. inv_bind H. now inversion H.
Qed.

Lemma Forall2_right {A B : Type} (R : A -> B -> Prop) (P : B -> Prop)
    (l : list A) (l' : list B) :
  (forall a b, R a b -> P b) -> Forall2 R l l' -> Forall P l'.
Proof.
  intros HRP H. induction H; constructor; eauto.
Qed.

(** X3: no entry of a formatted match has the position "utility" (it is
    renamed to "support"), and every position is in lower case. *)
Theorem format_match_data_roles (api : Api) (raw : RawMatch) (m : MatchData)
    (s : Summoner)
    (Hfmt : format_match_data api raw = Ok m)
    (Hs : In s (team m 0) \/ In s (team m 1)) :
  position (champion s) <> "utility"
  /\ lower (position (champion s)) = position (champion s).
Proof.
  apply format_match_data_inv in Hfmt.
  destruct Hfmt as (win0 & rest & _ & _ & _ & _ & _ & _ & H0 & H1).
  assert (Hall : forall ps l,
             Forall2 (fun p s => format_participant api (patch m) p = Ok s)
                     ps l ->
             Forall (fun s => position (champion s) <> "utility"
                              /\ lower (position (champion s))
                                 = position (champion s)) l).
  { intros ps l. apply Forall2_right. intros p s' Hp.
    rewrite (format_participant_position _ _ _ _ Hp).
    destruct (String.eqb_spec (lower (teamPosition p)) "utility") as [He|Hne].
    - split; [discriminate | reflexivity].
    - split; [assumption | apply lower_twice]. }
  destruct Hs as [Hs | Hs];
    [apply Hall in H0 | apply Hall in H1];
    rewrite Forall_forall in *; auto.
Qed.

(** ** [format_match_data]: when it returns *)

Lemma get_champion_name_answer (api : Api) (champion_id : Z) (patch v : string)
    (vs : list string) (data : list (Z * string)) :
  assert_200 (versions api) = Ok (v :: vs) ->
  assert_200 (champion_json api v) = Ok data ->
  get_champion_name api champion_id patch =
  Ok (match champion_lookup champion_id data with
      | None => ""
      | Some name => name
      end).
Proof.
  intros Hv Hd. unfold get_champion_name, get_latest_patch, get_champion_data.
  rewrite Hv. cbn [bind]. now rewrite Hd.
Qed.

Lemma foldM_returns {A B : Type} (f : A -> B -> result A) (l : list B) :
  (forall a x, In x l -> exists a', f a x = Ok a') ->
  forall a, exists a', foldM f l a = Ok a'.
Proof.
  induction l as [|x l IH]; simpl; intros Hf a; [now exists a|].
  destruct (Hf a x (or_introl eq_refl)) as [a1 ->]. cbn [bind].
  apply IH. auto.
Qed.

(** X4: [format_match_data] returns when the start timestamp of the payload
    can be formatted as a local time, the reference data answer (a non-empty
    version list and a champion catalog for the latest version), the payload
    has a first team entry and every participant carries both halves of the
    riot id; the account service is not needed then. *)
Theorem format_match_data_returns (api : Api) (raw : RawMatch) (t v : string)
    (vs : list string) (data : list (Z * string))
    (Hstart : strftime api (gameStartTimestamp raw) = Ok t)
    (Hversions : assert_200 (versions api) = Ok (v :: vs))
    (Hchampions : assert_200 (champion_json api v) = Ok data)
    (Hteams : teams_win raw <> [])
    (Hids : forallb has_riot_id (participants raw) = true) :
  exists m, format_match_data api raw = Ok m.
Proof.
  unfold format_match_data. rewrite Hstart. cbn [bind].
  destruct (teams_win raw) as [|win0 rest]; [congruence|]. cbn [bind].
  set (patch := String.concat "." (firstn 2 (split_dot (gameVersion raw)))).
  destruct (foldM_returns (add_participant api patch) (participants raw))
    with (a := ([] : list Summoner, [] : list Summoner)) as [ts ->].
  - intros a p Hp. rewrite forallb_forall in Hids. specialize (Hids p Hp).
    unfold add_participant, format_participant. unfold has_riot_id in Hids.
    destruct (riotIdGameName p), (riotIdTagline p); try discriminate.
    cbn [bind].
    rewrite (get_champion_name_answer api _ patch v vs data Hversions
               Hchampions).
    cbn [bind]. eauto.
  - cbn [bind]. eauto.
Qed.

Lemma foldM_raises {A B : Type} (f : A -> B -> result A) (e : PyError)
    (l : list B) :
  (forall a x, In x l -> f a x = Err e \/ exists a', f a x = Ok a') ->
  (exists x, In x l /\ forall a, f a x = Err e) ->
  forall a, foldM f l a = Err e.
Proof.
  induction l as [|x l IH]; simpl; intros Hf (y & Hy & Hey) a; [easy|].
  destruct (Hf a x (or_introl eq_refl)) as [-> | [a1 Ha1]]; [reflexivity|].
  rewrite Ha1. cbn [bind]. apply IH; [auto|].
  destruct Hy as [-> | Hy]; [| eauto].
  rewrite Hey in Ha1. discriminate.
Qed.

(** X5: on a payload whose start timestamp can be formatted and that has a
    first team entry, with the reference data answering (a non-empty version
    list and a champion catalog for the latest version): when a participant
    lacks a half of the riot id and the account service answers every
    request with one status other than 200, [format_match_data] raises the
    assertion error of that status: the name fallback is not recovered. *)
Theorem format_match_data_fallback_fails (api : Api) (raw : RawMatch)
    (t v : string) (vs : list string) (data : list (Z * string)) (status : Z)
    (Hstart : strftime api (gameStartTimestamp raw) = Ok t)
    (Hversions : assert_200 (versions api) = Ok (v :: vs))
    (Hchampions : assert_200 (champion_json api v) = Ok data)
    (Hteams : teams_win raw <> [])
    (Hdown : forall q, assert_200 (account_by_puuid api q)
                       = Err (AssertionError status))
    (Hmissing : forallb has_riot_id (participants raw) = false) :
  format_match_data api raw = Err (AssertionError status).
Proof.
  unfold format_match_data. rewrite Hstart. cbn [bind].
  destruct (teams_win raw) as [|win0 rest]; [congruence|]. cbn [bind].
  set (patch := String.concat "." (firstn 2 (split_dot (gameVersion raw)))).
  rewrite (foldM_raises (add_participant api patch) (AssertionError status));
    [reflexivity | |].
  - intros a p _. unfold add_participant, format_participant.
    rewrite (get_champion_name_answer api _ patch v vs data Hversions
               Hchampions).
    unfold get_summoner_name. rewrite Hdown.
    destruct (riotIdGameName p), (riotIdTagline p); cbn [bind]; eauto.
  - assert (Hex : exists p, In p (participants raw) /\ has_riot_id p = false).
    { clear - Hmissing. induction (participants raw) as [|p ps IH];
        simpl in Hmissing; [discriminate|].
      apply andb_false_iff in Hmissing. destruct Hmissing as [Hp | Hps].
      - exists p. split; [now left | assumption].
      - destruct (IH Hps) as (q & Hq & Hqid). exists q. split; [now right|].
        assumption. }
    destruct Hex as (p & Hp & Hid). exists p. split; [assumption|].
    intros a. unfold add_participant, format_participant, get_summoner_name.
    rewrite Hdown. unfold has_riot_id in Hid.
    destruct (riotIdGameName p), (riotIdTagline p); try discriminate;
      reflexivity.
Qed.

(** The start time is formatted before the team entry is read and before
    any participant is looked at: on a payload from the year 10000 without
    team entries, the account service down, the error is the one of the
    timestamp. *)
Example format_match_data_start_time_first :
  format_match_data Samples.account_down Samples.far_future = Err ValueError.
Proof. reflexivity. Qed.

(** ** [format_match_data]: the patch *)

Lemma split_dot_nonempty (s : string) : split_dot s <> [].
Proof.
  induction s as [|c s IH]; simpl; [discriminate|].
  destruct (Ascii.eqb c "."); [discriminate|].
  destruct (split_dot s); [congruence | discriminate].
Qed.

Lemma split_dot_dotless (a : string) : dotless a = true -> split_dot a = [a].
Proof.
  induction a as [|c a IH]; simpl; intros H; [reflexivity|].
  apply andb_true_iff in H. destruct H as [Hc Ha].
  apply negb_true_iff in Hc. rewrite Hc, (IH Ha). reflexivity.
Qed.

Lemma split_dot_app (a r : string) :
  dotless a = true ->
  split_dot (a ++ String "." r) = a :: split_dot r.
Proof.
  induction a as [|c a IH]; simpl; intros H; [reflexivity|].
  apply andb_true_iff in H. destruct H as [Hc Ha].
  apply negb_true_iff in Hc. rewrite Hc, (IH Ha). reflexivity.
Qed.

(** X6: the patch of a formatted match is the first two dot-separated
    components of the game version joined by a dot; a version with fewer
    than three components is kept whole. *)
Theorem format_match_data_patch (api : Api) (raw : RawMatch) (m : MatchData)
    (Hfmt : format_match_data api raw = Ok m) :
  (forall a b r,
     dotless a = true -> dotless b = true ->
     gameVersion raw = (a ++ "." ++ b ++ "." ++ r)%string ->
     patch m = (a ++ "." ++ b)%string)
  /\ (forall a b,
        dotless a = true -> dotless b = true ->
        gameVersion raw = (a ++ "." ++ b)%string ->
        patch m = gameVersion raw)
  /\ (dotless (gameVersion raw) = true -> patch m = gameVersion raw).
Proof.
  apply format_match_data_inv in Hfmt.
  destruct Hfmt as (win0 & rest & _ & _ & _ & _ & Hp & _). rewrite Hp.
  split; [| split].
  - intros a b r Ha Hb ->.
    change (a ++ "." ++ b ++ "." ++ r)%string
      with (a ++ String "." (b ++ String "." r))%string.
    rewrite (split_dot_app a _ Ha), (split_dot_app b _ Hb).
    destruct (split_dot r); reflexivity.
  - intros a b Ha Hb ->.
    change (a ++ "." ++ b)%string with (a ++ String "." b)%string.
    rewrite (split_dot_app a _ Ha), (split_dot_dotless b Hb). reflexivity.
  - intros Hv. now rewrite (split_dot_dotless _ Hv).
Qed.

(** ** [get_champion_name] *)

Lemma champion_lookup_miss (champion_id : Z) (data : list (Z * string)) :
  ~ In champion_id (map fst data) -> champion_lookup champion_id data = None.
Proof.
  induction data as [|[k n] data IH]; simpl; intros H; [reflexivity|].
  rewrite IH by tauto.
  destruct (Z.eqb_spec k champion_id); [tauto | reflexivity].
Qed.

Lemma champion_lookup_last (champion_id : Z) (pre post : list (Z * string))
    (n : string) :
  ~ In champion_id (map fst post) ->
  champion_lookup champion_id (pre ++ (champion_id, n) :: post) = Some n.
Proof.
  intros Hpost. induction pre as [|[k n'] pre IH]; simpl.
  - rewrite (champion_lookup_miss _ _ Hpost). now rewrite Z.eqb_refl.
  - now rewrite IH.
Qed.

(** X7: when the reference data answer, [get_champion_name] returns the
    empty string for a champion id the catalog does not hold, raising
    nothing, and the name of the last catalog entry with that id otherwise;
    the patch argument plays no part. *)
Theorem get_champion_name_catalog (api : Api) (champion_id : Z)
    (patch v : string) (vs : list string) (data : list (Z * string))
    (Hversions : assert_200 (versions api) = Ok (v :: vs))
    (Hchampions : assert_200 (champion_json api v) = Ok data) :
  (~ In champion_id (map fst data) ->
   get_champion_name api champion_id patch = Ok "")
  /\ (forall pre post n,
        data = pre ++ (champion_id, n) :: post ->
        ~ In champion_id (map fst post) ->
        get_champion_name api champion_id patch = Ok n).
Proof.
  rewrite (get_champion_name_answer api champion_id patch v vs data Hversions
             Hchampions).
  split.
  - intros H. now rewrite champion_lookup_miss.
  - intros pre post n -> H. now rewrite champion_lookup_last.
Qed.

(** ** [get_match_stats]: the team of the player *)

Lemma scan_roster (p : string) (team_id : nat) (roster : list Summoner) :
  forall pt,
    fold_left (fun pt summoner =>
                 if String.eqb (puuid summoner) p then Some team_id else pt)
              roster pt
    = if on_roster p roster then Some team_id else pt.
Proof.
  induction roster as [|s roster IH]; simpl; intros pt; [reflexivity|].
  rewrite IH. destruct (String.eqb (puuid s) p); simpl; [| reflexivity].
  now destruct (on_roster p roster).
Qed.

Lemma find_team_cases (p : string) (m : MatchData) (pt : option nat) :
  find_team p m pt =
    if on_roster p (team m 1) then Some 1%nat
    else if on_roster p (team m 0) then Some 0%nat
    else pt.
Proof.
  unfold find_team. cbn [fold_left]. rewrite !scan_roster.
  now destruct (on_roster p (team m 1)), (on_roster p (team m 0)).
Qed.

(** X8: the search for the player's team ends with index 1 when the player
    is on the second roster, whatever the first roster holds, with index 0
    when the player is on the first roster only, and with whatever the
    earlier iterations left when the player is on neither. *)
Theorem find_team_index (p : string) (m : MatchData) (pt : option nat) :
  (on_roster p (team m 1) = true -> find_team p m pt = Some 1%nat)
  /\ (on_roster p (team m 1) = false -> on_roster p (team m 0) = true ->
      find_team p m pt = Some 0%nat)
  /\ (on_roster p (team m 1) = false -> on_roster p (team m 0) = false ->
      find_team p m pt = pt).
Proof.
  rewrite find_team_cases. split; [| split].
  - now intros ->.
  - now intros -> ->.
  - now intros -> ->.
Qed.

(** ** [get_match_stats]: when it returns *)

Lemma py_div_returns (a b : Z) : b <> 0 -> exists q, py_div a b = Ok q.
Proof.
  intros H. unfold py_div. destruct (Z.eqb_spec b 0); [easy | eauto].
Qed.

Lemma record_summoner_returns (t : nat) (m : MatchData) (tot : Totals)
    (b : Bucket.t) (c : Champion) :
  degenerate tot = false -> team_gold tot <> 0 ->
  exists b', record_summoner t m tot b c = Ok b'.
Proof.
  unfold degenerate. rewrite !orb_false_iff, !Z.eqb_neq.
  intros [[[Hdd Hdt] Hvs] Hk] Hg. unfold record_summoner.
  destruct (py_div_returns (gold c) _ Hg) as [? ->].
  destruct (py_div_returns (damage_dealt_to_champions c) _ Hdd) as [? ->].
  destruct (py_div_returns (damage_taken c) _ Hdt) as [? ->].
  destruct (py_div_returns (vision_score c) _ Hvs) as [? ->].
  destruct (py_div_returns (kills c + assists c) _ Hk) as [? ->].
  cbn [bind]. eauto.
Qed.

Lemma gold_ok_team (p : string) (m : MatchData) (t : nat) :
  gold_ok (team m 0) = true -> gold_ok (team m 1) = true ->
  degenerate (team_totals (team m t)) = false ->
  team_gold (team_totals (team m t)) <> 0.
Proof.
  intros H0 H1 Hd.
  assert (H : gold_ok (team m t) = true) by (destruct t; assumption).
  unfold gold_ok in H. rewrite Hd in H. simpl in H.
  now apply negb_true_iff, Z.eqb_neq in H.
Qed.

Lemma loop_body_returns (p : string) (n i : Z) (m : MatchData) (st : Locals) :
  playable p m = true -> exists st', loop_body p n i m st = Ok st'.
Proof.
  unfold playable, loop_body. intros H.
  destruct (duration m <=? 5); [eauto|]. cbn [orb] in H.
  apply andb_true_iff in H. destruct H as [H H1].
  apply andb_true_iff in H. destruct H as [Hon H0].
  rewrite find_team_cases.
  assert (Ht : exists t,
             (if on_roster p (team m 1) then Some 1%nat
              else if on_roster p (team m 0) then Some 0%nat
              else l_puuid_team st) = Some t).
  { destruct (on_roster p (team m 1)); [eauto|].
    destruct (on_roster p (team m 0)); [eauto | discriminate]. }
  destruct Ht as [t ->]. cbn [read_local bind].
  destruct (degenerate (team_totals (team m t))) eqn:Hd; [eauto|].
  pose proof (gold_ok_team p m t H0 H1 Hd) as Hg.
  unfold collect.
  destruct (foldM_returns (collect_step p t m (team_totals (team m t)))
              (team m t)) with (a := l_tmp st) as [tmp' ->].
  - intros tmp s _. unfold collect_step.
    destruct (String.eqb (puuid s) p); [| eauto].
    destruct (record_summoner_returns t m _ (tmp_get (name (champion s)) tmp)
                (champion s) Hd Hg) as [b' ->].
    cbn [bind]. eauto.
  - cbn [bind]. eauto.
Qed.

Lemma match_loop_returns (api : Api) (p : string) (n : Z) (ids : list string) :
  (forall match_id, In match_id ids ->
     exists m, fetch api match_id = Ok m /\ playable p m = true) ->
  forall i st, exists st', match_loop api p n i ids st = Ok st'.
Proof.
  induction ids as [|x ids IH]; intros Hall i st; [simpl; eauto|].
  rewrite match_loop_cons.
  destruct (Hall x (or_introl eq_refl)) as (m & -> & Hm). cbn [bind].
  destruct (loop_body_returns p n i m st Hm) as [st1 ->]. cbn [bind].
  apply IH. intros y Hy. apply Hall. now right.
Qed.

Lemma filled_kept (p : string) (m : MatchData) : records_keep p filled m.
Proof.
  intros t s b b' _ _ Hb H. apply record_summoner_inv in H.
  destruct H as (g & dd & dt & vs & kp & _ & _ & _ & _ & _
                 & _ & Hm & Lg & Ldd & Ldt & Lvs & Lkp).
  unfold filled. rewrite Hm, Lg, Ldd, Ldt, Lvs, Lkp.
  split; [destruct Hb as [Hb | ->]; [unfold filled in Hb | simpl]; lia|].
  repeat split; intros Habs; now apply app_eq_nil in Habs.
Qed.

Lemma py_mean_returns (xs : list Q) : xs <> [] -> exists q, py_mean xs = Ok q.
Proof. destruct xs; [easy | simpl; eauto]. Qed.

Lemma finalize_bucket_returns (b : Bucket.t) :
  filled b -> exists row, finalize_bucket b = Ok row.
Proof.
  intros (Hm & Hg & Hdd & Hdt & Hvs & Hkp). unfold finalize_bucket.
  assert (Hm0 : Bucket.matches b <> 0) by lia.
  destruct (py_div_returns (Bucket.wins b) _ Hm0) as [? ->].
  destruct (py_div_returns (Bucket.kills b) _ Hm0) as [? ->].
  destruct (py_div_returns (Bucket.deaths b) _ Hm0) as [? ->].
  destruct (py_div_returns (Bucket.assists b) _ Hm0) as [? ->].
  destruct (py_div_returns (Bucket.cs b) _ Hm0) as [? ->].
  destruct (py_mean_returns _ Hg) as [? ->].
  destruct (py_mean_returns _ Hdd) as [? ->].
  destruct (py_mean_returns _ Hdt) as [? ->].
  destruct (py_mean_returns _ Hvs) as [? ->].
  destruct (py_mean_returns _ Hkp) as [? ->].
  cbn [bind]. eauto.
Qed.

Lemma finalize_returns (tmp : tmp_t) :
  all_buckets filled tmp -> exists rows, finalize tmp = Ok rows.
Proof.
  intros H. unfold finalize. apply foldM_returns.
  intros rows kv Hkv. unfold finalize_step.
  unfold all_buckets in H. rewrite Forall_forall in H.
  destruct (finalize_bucket_returns (snd kv) (H kv Hkv)) as [row ->].
  cbn [bind]. eauto.
Qed.

Lemma match_loop_window (api : Api) (p : string) (first : string)
    (others : list string) (st : Locals) :
  match_loop api p (Z.of_nat (List.length (first :: others))) 0
    (first :: others) init_locals = Ok st ->
  exists m_first m_last,
    fetch api first = Ok m_first
    /\ fetch api (last (first :: others) first) = Ok m_last
    /\ l_end_time st = Some (start_time m_first)
    /\ l_start_time st = Some (start_time m_last).
Proof.
  intros Hloop.
  destruct (match_loop_sets_start_time api p _ others 0 first init_locals st
              eq_refl Hloop) as (m_last & Hlast & Hs).
  rewrite match_loop_cons in Hloop.
  inv_bind Hloop. rename a into m_first, Ha into Hfirst.
  inv_bind Hloop.
  apply match_loop_keeps_end_time in Hloop; [| lia].
  apply loop_body_window in Ha. destruct Ha as [He _]. simpl in He.
  rewrite He in Hloop. exists m_first, m_last. auto.
Qed.

(** X9: [get_match_stats] returns a result on a non-empty list of match ids
    when the account look-ups answer and every match is fetched and
    playable: short, or with the player on a roster and no roster that
    passes the second filter with a gold total of zero. In particular the
    averages of the finalization never divide by zero. *)
Theorem get_match_stats_returns (api : Api) (p : string) (first : string)
    (others : list string) (summoner rank : string)
    (Hmatches : forall match_id, In match_id (first :: others) ->
                  exists m, fetch api match_id = Ok m /\ playable p m = true)
    (Hname : get_summoner_name api p = Ok summoner)
    (Hrank : get_summoner_rank api p = Ok rank) :
  exists r, get_match_stats api p (first :: others) = Ok r.
Proof.
  unfold get_match_stats.
  destruct (match_loop_returns api p
              (Z.of_nat (List.length (first :: others))) (first :: others)
              Hmatches 0 init_locals) as [st Hloop].
  rewrite Hloop. cbn [bind]. rewrite Hname, Hrank. cbn [bind].
  destruct (match_loop_window api p first others st Hloop)
    as (m_first & m_last & _ & _ & -> & ->). cbn [read_local bind].
  destruct (finalize_returns (l_tmp st)) as [rows ->]; [| cbn [bind]; eauto].
  eapply (match_loop_keeps api p filled); [| | exact Hloop].
  - intros; apply filled_kept.
  - constructor.
Qed.

(** ** [get_match_stats]: no partial result *)

Lemma match_loop_fetch_error (api : Api) (p : string) (n : Z)
    (ids : list string) (match_id : string) (e : PyError) :
  In match_id ids -> fetch api match_id = Err e ->
  forall i st, exists e', match_loop api p n i ids st = Err e'.
Proof.
  intros Hin Hfetch. induction ids as [|x ids IH]; intros i st; [easy|].
  rewrite match_loop_cons.
  destruct (fetch api x) as [m|e0] eqn:Hx; [| simpl; eauto]. cbn [bind].
  destruct (loop_body p n i m st) as [st1|e1]; [| simpl; eauto]. cbn [bind].
  destruct Hin as [-> | Hin]; [congruence | now apply IH].
Qed.

(** X10: [get_match_stats] gives no partial result: if the fetch of any
    match of the list raises, or the name look-up or the rank look-up raises,
    the call raises. *)
Theorem get_match_stats_fails_fast (api : Api) (p : string)
    (match_ids : list string) :
  (forall match_id e, In match_id match_ids -> fetch api match_id = Err e ->
     exists e', get_match_stats api p match_ids = Err e')
  /\ (forall e, get_summoner_name api p = Err e ->
        exists e', get_match_stats api p match_ids = Err e')
  /\ (forall e, get_summoner_rank api p = Err e ->
        exists e', get_match_stats api p match_ids = Err e').
Proof.
  unfold get_match_stats. split; [| split].
  - intros match_id e Hin Hfetch.
    destruct (match_loop_fetch_error api p
                (Z.of_nat (List.length match_ids)) match_ids match_id e
                Hin Hfetch 0 init_locals) as [e' ->].
    simpl. eauto.
  - intros e He. destruct (match_loop _ _ _ _ _ _); simpl; [| eauto].
    rewrite He. simpl. eauto.
  - intros e He. destruct (match_loop _ _ _ _ _ _); simpl; [| eauto].
    destruct (get_summoner_name api p); simpl; [| eauto].
    rewrite He. simpl. eauto.
Qed.

(** ** The accumulator as a dictionary *)

Lemma tmp_set_keys (key : string) (b : Bucket.t) (tmp : tmp_t) :
  map fst (tmp_set key b tmp) =
    if existsb (fun k => String.eqb k key) (map fst tmp) then map fst tmp
    else map fst tmp ++ [key].
Proof.
  induction tmp as [|[k b0] tmp IH]; simpl; [reflexivity|].
  destruct (String.eqb k key); simpl; [reflexivity|].
  rewrite IH. now destruct (existsb _ _).
Qed.

Lemma tmp_set_NoDup (key : string) (b : Bucket.t) (tmp : tmp_t) :
  NoDup (map fst tmp) -> NoDup (map fst (tmp_set key b tmp)).
Proof.
  intros H. rewrite tmp_set_keys.
  destruct (existsb _ _) eqn:Hex; [assumption|].
  apply NoDup_app; [assumption | repeat constructor; easy |].
  intros k Hk [Heq | []]. subst k.
  assert (existsb (fun k' => String.eqb k' key) (map fst tmp) = true);
    [| congruence].
  apply existsb_exists. exists key.
  split; [assumption | apply String.eqb_refl].
Qed.

(** A property of the whole accumulator that every update keeps holds after
    the loop. *)
Lemma loop_body_tmp (p : string) (P : tmp_t -> Prop) (n i : Z)
    (m : MatchData) (st st' : Locals) :
  (forall key b tmp, P tmp -> P (tmp_set key b tmp)) ->
  P (l_tmp st) -> loop_body p n i m st = Ok st' -> P (l_tmp st').
Proof.
  intros Hset Hst H. unfold loop_body in H.
  destruct (duration m <=? 5); [now inversion H; subst|].
  inv_bind H. rename a into t.
  destruct (degenerate _); [now inversion H; subst|].
  inv_bind H. rename a into tmp', Ha0 into Hc.
  inversion H; subst st'. simpl.
  unfold collect in Hc. revert Hc. apply foldM_invariant; [| assumption].
  intros tmp s tmp1 Htmp Hstep. unfold collect_step in Hstep.
  destruct (String.eqb (puuid s) p); [| now inversion Hstep; subst].
  inv_bind Hstep. inversion Hstep; subst. now apply Hset.
Qed.

Lemma match_loop_tmp (api : Api) (p : string) (P : tmp_t -> Prop) (n : Z)
    (ids : list string) :
  (forall key b tmp, P tmp -> P (tmp_set key b tmp)) ->
  forall i st st',
    P (l_tmp st) -> match_loop api p n i ids st = Ok st' -> P (l_tmp st').
Proof.
  intros Hset. induction ids as [|x ids IH]; intros i st st' Hst H.
  - now inversion H; subst.
  - rewrite match_loop_cons in H. inv_bind H. inv_bind H.
    apply (IH (i + 1) a0); [| assumption].
    eapply loop_body_tmp; eauto.
Qed.

Lemma finalize_pairs (tmp : tmp_t) :
  forall acc rows,
    foldM finalize_step tmp acc = Ok rows ->
    exists rows',
      rows = acc ++ rows'
      /\ Forall2 (fun kb kr => fst kr = fst kb
                               /\ finalize_bucket (snd kb) = Ok (snd kr))
                 tmp rows'.
Proof.
  induction tmp as [|[k b] tmp IH]; simpl; intros acc rows H.
  - inversion H; subst. exists []. rewrite app_nil_r. split; constructor.
  - inv_bind H. unfold finalize_step in Ha. inv_bind Ha.
    inversion Ha; subst a; clear Ha. simpl in *.
    destruct (IH _ _ H) as (rows' & -> & HF).
    exists ((k, a0) :: rows'). rewrite <- app_assoc. split; [reflexivity|].
    constructor; auto.
Qed.

Lemma Forall2_map_eq {A B C : Type} (R : A -> B -> Prop) (f : A -> C)
    (g : B -> C) (l : list A) (l' : list B) :
  (forall a b, R a b -> f a = g b) -> Forall2 R l l' -> map f l = map g l'.
Proof.
  intros Hfg H. induction H; simpl; [reflexivity|]. f_equal; auto.
Qed.

(** X11: no champion name occurs twice in the champions of a result, and
    [unique_champions] is the number of champions listed. *)
Theorem champions_unique (api : Api) (p : string) (match_ids : list string)
    (r : MatchStats)
    (Hrun : get_match_stats api p match_ids = Ok r) :
  NoDup (map fst (champions r))
  /\ Metadata.unique_champions (metadata r)
     = Z.of_nat (List.length (champions r)).
Proof.
  unfold get_match_stats in Hrun.
  inv_bind Hrun. rename a into st, Ha into Hloop.
  do 4 inv_bind Hrun.
  inv_bind Hrun. rename a3 into rows, Ha3 into Hrows.
  inversion Hrun; subst r; clear Hrun. simpl.
  apply finalize_pairs in Hrows. destruct Hrows as (rows' & -> & HF).
  simpl. pose proof (sorted_reverse_perm sort_key rows') as Hperm.
  split.
  - apply (Permutation_NoDup (Permutation_map fst Hperm)).
    rewrite <- (Forall2_map_eq _ fst fst _ _
                  (fun kb kr H => eq_sym (proj1 H)) HF).
    eapply (match_loop_tmp api p (fun tmp => NoDup (map fst tmp)));
      [apply tmp_set_NoDup | | exact Hloop].
    constructor.
  - rewrite <- (Permutation_length Hperm). f_equal.
    apply (Forall2_length HF).
Qed.

(** ** [get_match_stats]: the count of qualifying matches *)

Lemma loop_body_valid (p : string) (n i : Z) (m : MatchData) (st st' : Locals) :
  loop_body p n i m st = Ok st' ->
  l_valid_matches st <= l_valid_matches st' <= l_valid_matches st + 1.
Proof.
  unfold loop_body. intros H.
  destruct (duration m <=? 5); [inversion H; subst; simpl; lia|].
  inv_bind H. destruct (degenerate _); [inversion H; subst; simpl; lia|].
  inv_bind H. inversion H; subst; simpl; lia.
Qed.

Lemma match_loop_valid (api : Api) (p : string) (n : Z) (ids : list string) :
  forall i st st',
    match_loop api p n i ids st = Ok st' ->
    l_valid_matches st <= l_valid_matches st'
    <= l_valid_matches st + Z.of_nat (List.length ids).
Proof.
  induction ids as [|x ids IH]; intros i st st' H.
  - inversion H; subst. simpl. lia.
  - rewrite match_loop_cons in H. inv_bind H. inv_bind H.
    apply IH in H. apply loop_body_valid in Ha0.
    cbn [List.length]. lia.
Qed.

(** X12: the count of qualifying matches of a result lies between 0 and the
    number of match ids given. *)
Theorem qualifying_matches_bounded (api : Api) (p : string)
    (match_ids : list string) (r : MatchStats)
    (Hrun : get_match_stats api p match_ids = Ok r) :
  0 <= Metadata.matches (metadata r) <= Z.of_nat (List.length match_ids).
Proof.
  unfold get_match_stats in Hrun.
  inv_bind Hrun. rename a into st, Ha into Hloop.
  do 5 inv_bind Hrun. inversion Hrun; subst r; clear Hrun. simpl.
  apply match_loop_valid in Hloop. simpl in Hloop. lia.
Qed.

Lemma loop_body_counts (p : string) (n i : Z) (m : MatchData)
    (st st' : Locals) :
  present p m = true ->
  loop_body p n i m st = Ok st' ->
  l_valid_matches st' =
    l_valid_matches st + (if qualifies p m then 1 else 0).
Proof.
  unfold present, qualifies, team_of, loop_body. intros Hp H.
  destruct (duration m <=? 5); [inversion H; subst; simpl; lia|].
  cbn [orb negb andb] in *. rewrite find_team_cases in H.
  destruct (on_roster p (team m 1)).
  - cbn [read_local bind] in H. destruct (degenerate _).
    + inversion H; subst; simpl; lia.
    + inv_bind H. inversion H; subst; simpl; lia.
  - destruct (on_roster p (team m 0)); [| discriminate].
    cbn [read_local bind] in H. destruct (degenerate _).
    + inversion H; subst; simpl; lia.
    + inv_bind H. inversion H; subst; simpl; lia.
Qed.

Lemma match_loop_counts (api : Api) (p : string) (n : Z) (ids : list string) :
  forall i st st',
    match_loop api p n i ids st = Ok st' ->
    exists ms,
      Forall2 (fun match_id m => fetch api match_id = Ok m) ids ms
      /\ (forallb (present p) ms = true ->
          l_valid_matches st' =
            l_valid_matches st
            + Z.of_nat (List.length (filter (qualifies p) ms))).
Proof.
  induction ids as [|x ids IH]; intros i st st' H.
  - inversion H; subst. exists []. split; [constructor | simpl; lia].
  - rewrite match_loop_cons in H.
    inv_bind H. rename a into m, Ha into Hm.
    inv_bind H. rename a into st1, Ha into Hbody.
    destruct (IH _ _ _ H) as (ms & Hms & Hcount).
    exists (m :: ms). split; [now constructor|].
    simpl. intros Hp. apply andb_true_iff in Hp. destruct Hp as [Hpm Hpms].
    rewrite (Hcount Hpms), (loop_body_counts p n i m st st1 Hpm Hbody).
    destruct (qualifies p m); simpl List.length; lia.
Qed.

(** X13: when the player is on a roster of every match longer than 5
    minutes, the count of qualifying matches of a result is the number of
    fetched matches that are longer than 5 minutes and whose totals of
    damage dealt to champions, damage taken, vision score and kills of the
    player's team are all nonzero. *)
Theorem qualifying_matches_counted (api : Api) (p : string)
    (match_ids : list string) (r : MatchStats)
    (Hrun : get_match_stats api p match_ids = Ok r) :
  exists ms,
    Forall2 (fun match_id m => fetch api match_id = Ok m) match_ids ms
    /\ (forallb (present p) ms = true ->
        Metadata.matches (metadata r)
        = Z.of_nat (List.length (filter (qualifies p) ms))).
Proof.
  unfold get_match_stats in Hrun.
  inv_bind Hrun. rename a into st, Ha into Hloop.
  do 5 inv_bind Hrun. inversion Hrun; subst r; clear Hrun. simpl.
  destruct (match_loop_counts api p _ match_ids 0 init_locals st Hloop)
    as (ms & Hms & Hcount).
  exists ms. split; [assumption|]. intros Hp. now rewrite (Hcount Hp).
Qed.

(** ** [get_match_stats]: champions' matches against qualifying matches *)

Lemma tmp_get_cons_other (key k : string) (b : Bucket.t) (tmp : tmp_t) :
  String.eqb k key = false -> tmp_get key ((k, b) :: tmp) = tmp_get key tmp.
Proof. intros H. unfold tmp_get. simpl. now rewrite H. Qed.

Lemma total_tmp_set (key : string) (b : Bucket.t) (tmp : tmp_t) :
  total_matches (tmp_set key b tmp) =
    total_matches tmp - Bucket.matches (tmp_get key tmp) + Bucket.matches b.
Proof.
  induction tmp as [|[k b0] tmp IH]; simpl.
  - unfold tmp_get. simpl. lia.
  - destruct (String.eqb k key) eqn:Hk; simpl.
    + unfold tmp_get. simpl. rewrite Hk. lia.
    + rewrite IH, (tmp_get_cons_other key k b0 tmp Hk). lia.
Qed.

Lemma collect_total (p : string) (t : nat) (m : MatchData) (tot : Totals)
    (roster : list Summoner) :
  forall tmp tmp',
    foldM (collect_step p t m tot) roster tmp = Ok tmp' ->
    total_matches tmp' = total_matches tmp + Z.of_nat (appearances p roster).
Proof.
  unfold appearances.
  induction roster as [|s roster IH]; simpl; intros tmp tmp' H.
  - inversion H; subst. lia.
  - inv_bind H. rename a into tmp1, Ha into Hstep.
    apply IH in H. unfold collect_step in Hstep.
    destruct (String.eqb (puuid s) p).
    + inv_bind Hstep. inversion Hstep; subst tmp1; clear Hstep.
      apply record_summoner_inv in Ha.
      destruct Ha as (g & dd & dt & vs & kp & _ & _ & _ & _ & _
                      & _ & Hm & _).
      rewrite H, total_tmp_set, Hm. cbn [List.length]. lia.
    + inversion Hstep; subst tmp1. lia.
Qed.

Lemma on_roster_appearances (p : string) (roster : list Summoner) :
  on_roster p roster = negb (Nat.eqb (appearances p roster) 0).
Proof.
  unfold on_roster, appearances.
  induction roster as [|s roster IH]; simpl; [reflexivity|].
  destruct (String.eqb (puuid s) p); simpl; [reflexivity | assumption].
Qed.

Lemma loop_body_total (p : string) (n i : Z) (m : MatchData)
    (st st' : Locals) :
  once p m = true ->
  total_matches (l_tmp st) = l_valid_matches st ->
  loop_body p n i m st = Ok st' ->
  total_matches (l_tmp st') = l_valid_matches st'.
Proof.
  unfold once, loop_body. intros Ho Hinv H.
  destruct (duration m <=? 5); [inversion H; subst; simpl; lia|].
  cbn [orb] in Ho. apply Nat.eqb_eq in Ho.
  rewrite find_team_cases, !on_roster_appearances in H.
  assert (Ht : exists t,
             (if negb (Nat.eqb (appearances p (team m 1)) 0) then Some 1%nat
              else if negb (Nat.eqb (appearances p (team m 0)) 0)
                   then Some 0%nat else l_puuid_team st) = Some t
             /\ appearances p (team m t) = 1%nat).
  { clear H.
    destruct (Nat.eqb_spec (appearances p (team m 1)) 0) as [H1 | H1];
      cbn [negb].
    - destruct (Nat.eqb_spec (appearances p (team m 0)) 0) as [H0 | H0];
        cbn [negb]; [lia|]. exists 0%nat. split; [reflexivity | lia].
    - exists 1%nat. split; [reflexivity | lia]. }
  destruct Ht as (t & Ht & Happ). rewrite Ht in H.
  cbn [read_local bind] in H.
  destruct (degenerate _); [inversion H; subst; simpl; lia|].
  inv_bind H. inversion H; subst st'; clear H. simpl.
  unfold collect in Ha. apply collect_total in Ha. rewrite Ha, Happ. lia.
Qed.

Lemma match_loop_total (api : Api) (p : string) (n : Z) (ids : list string) :
  (forall match_id m, In match_id ids -> fetch api match_id = Ok m ->
     once p m = true) ->
  forall i st st',
    total_matches (l_tmp st) = l_valid_matches st ->
    match_loop api p n i ids st = Ok st' ->
    total_matches (l_tmp st') = l_valid_matches st'.
Proof.
  induction ids as [|x ids IH]; intros Hall i st st' Hinv H.
  - now inversion H; subst.
  - rewrite match_loop_cons in H. inv_bind H. inv_bind H.
    apply (IH (fun y m Hy => Hall y m (or_intror Hy)) (i + 1) a0);
      [| assumption].
    eapply loop_body_total; eauto. apply (Hall x); [now left | assumption].
Qed.

Lemma total_rows_perm (l l' : list (string * Row.t)) :
  Permutation l l' -> total_row_matches l = total_row_matches l'.
Proof.
  intros H. induction H; simpl; lia.
Qed.

(** X14: when the player has exactly one entry in every match longer than 5
    minutes, the matches of the champions of a result add up to its count of
    qualifying matches. *)
Theorem champion_matches_add_up (api : Api) (p : string)
    (match_ids : list string) (r : MatchStats)
    (Honce : forall match_id m, In match_id match_ids ->
               fetch api match_id = Ok m -> once p m = true)
    (Hrun : get_match_stats api p match_ids = Ok r) :
  total_row_matches (champions r) = Metadata.matches (metadata r).
Proof.
  unfold get_match_stats in Hrun.
  inv_bind Hrun. rename a into st, Ha into Hloop.
  do 4 inv_bind Hrun.
  inv_bind Hrun. rename a3 into rows, Ha3 into Hrows.
  inversion Hrun; subst r; clear Hrun. simpl.
  rewrite <- (total_rows_perm _ _ (sorted_reverse_perm sort_key rows)).
  rewrite <- (match_loop_total api p _ match_ids Honce 0 init_locals st
                eq_refl Hloop).
  apply finalize_pairs in Hrows. destruct Hrows as (rows' & -> & HF).
  simpl. clear - HF. induction HF as [|kb kr tmp rows' [_ Hf] _ IH]; simpl;
    [reflexivity|].
  apply finalize_bucket_row in Hf. destruct Hf as (_ & Hm & _).
  rewrite Hm, IH. reflexivity.
Qed.

(** ** The final sort keeps ties in place *)

Lemma key_eqb_eq (a b : Z * Z) : key_eqb a b = true <-> a = b.
Proof.
  unfold key_eqb. destruct a, b. simpl.
  rewrite andb_true_iff, !Z.eqb_eq. split; [intros []; congruence|].
  intros H. inversion H. auto.
Qed.

Lemma insert_desc_ties {A : Type} (key : A -> Z * Z) (k : Z * Z) (x : A)
    (l : list A) :
  filter (fun y => key_eqb (key y) k) (insert_desc key x l)
  = filter (fun y => key_eqb (key y) k) (x :: l).
Proof.
  induction l as [|y l IH]; [reflexivity|].
  cbn [insert_desc]. destruct (key_ltb (key x) (key y)) eqn:Hlt;
    [| reflexivity].
  cbn [filter] in *. rewrite IH.
  destruct (key_eqb (key y) k) eqn:Hy; [| reflexivity].
  destruct (key_eqb (key x) k) eqn:Hx; [| reflexivity].
  apply key_eqb_eq in Hx, Hy. rewrite Hx, Hy in Hlt.
  apply key_ltb_lt in Hlt. lia.
Qed.

Lemma sorted_reverse_ties {A : Type} (key : A -> Z * Z) (k : Z * Z)
    (l : list A) :
  filter (fun y => key_eqb (key y) k) (sorted_reverse key l)
  = filter (fun y => key_eqb (key y) k) l.
Proof.
  induction l as [|x l IH]; [reflexivity|].
  cbn [sorted_reverse fold_right]. fold (sorted_reverse key l).
  rewrite insert_desc_ties. cbn [filter]. now rewrite IH.
Qed.

(** X15: the final sort is stable: the champions of a result that share a
    number of matches and a number of wins stand in the order in which the
    loop first met them. *)
Theorem ties_keep_first_seen_order (api : Api) (p : string)
    (match_ids : list string) (st : Locals) (r : MatchStats) (k : Z * Z)
    (Hloop : match_loop api p (Z.of_nat (List.length match_ids)) 0 match_ids
               init_locals = Ok st)
    (Hrun : get_match_stats api p match_ids = Ok r) :
  map fst (filter (fun kv => key_eqb (sort_key kv) k) (champions r))
  = map fst (filter (fun kv => key_eqb (bucket_key kv) k) (l_tmp st)).
Proof.
  unfold get_match_stats in Hrun. rewrite Hloop in Hrun. cbn [bind] in Hrun.
  do 4 inv_bind Hrun.
  inv_bind Hrun. rename a3 into rows, Ha3 into Hrows.
  inversion Hrun; subst r; clear Hrun. cbn [champions].
  rewrite sorted_reverse_ties.
  apply finalize_pairs in Hrows. destruct Hrows as (rows' & -> & HF).
  simpl. clear - HF.
  induction HF as [|kb kr tmp rows' [Hk Hf] _ IH]; [reflexivity|].
  cbn [filter]. apply finalize_bucket_row in Hf.
  destruct Hf as (Hw & Hm & _).
  unfold sort_key at 1, bucket_key at 1. rewrite Hw, Hm.
  destruct (key_eqb _ k); simpl; now rewrite ?Hk, IH.
Qed.

Lemma finalize_bucket_shares (b : Bucket.t) (row : Row.t) :
  finalize_bucket b = Ok row ->
  exists g dd dt vs kp,
    py_mean (Bucket.gold_share b) = Ok g
    /\ py_mean (Bucket.damage_dealt_to_champions_share b) = Ok dd
    /\ py_mean (Bucket.damage_taken_share b) = Ok dt
    /\ py_mean (Bucket.vision_score_share b) = Ok vs
    /\ py_mean (Bucket.kill_participation b) = Ok kp
    /\ Row.avg_gold_share row = py_round2 g
    /\ Row.avg_damage_dealt_to_champions_share row = py_round2 dd
    /\ Row.avg_damage_taken_share row = py_round2 dt
    /\ Row.avg_vision_score_share row = py_round2 vs
    /\ Row.avg_kill_participation row = py_round2 kp.
Proof.
  unfold finalize_bucket. intros H. do 5 inv_bind H.
  inv_bind H. rename a4 into g, Ha4 into Hg.
  inv_bind H. rename a4 into dd, Ha4 into Hdd.
  inv_bind H. rename a4 into dt, Ha4 into Hdt.
  inv_bind H. rename a4 into vs, Ha4 into Hvs.
  inv_bind H. rename a4 into kp, Ha4 into Hkp.
  inversion H; subst row; clear H. simpl.
  exists g, dd, dt, vs, kp. repeat split; assumption.
Qed.

(** X16: every win rate of a result lies in [0, 1]; over matches whose
    roster numbers are not negative, so do the averaged gold, damage dealt,
    damage taken and vision shares, and the averaged kill participation is
    not negative. *)
Theorem reported_rates_in_unit (api : Api) (p : string)
    (match_ids : list string) (r : MatchStats) (champion_name : string)
    (row : Row.t)
    (Hrun : get_match_stats api p match_ids = Ok r)
    (Hin : In (champion_name, row) (champions r)) :
  in_unit (Row.win_rate row)
  /\ ((forall match_id m, In match_id match_ids ->
         fetch api match_id = Ok m -> nonneg_match m = true) ->
      in_unit (Row.avg_gold_share row)
      /\ in_unit (Row.avg_damage_dealt_to_champions_share row)
      /\ in_unit (Row.avg_damage_taken_share row)
      /\ in_unit (Row.avg_vision_score_share row)
      /\ (0 <= Row.avg_kill_participation row)%Q).
Proof.
  unfold get_match_stats in Hrun.
  inv_bind Hrun. rename a into st, Ha into Hloop.
  do 4 inv_bind Hrun.
  inv_bind Hrun. rename a3 into rows, Ha3 into Hrows.
  inversion Hrun; subst r; clear Hrun. cbn [champions] in Hin.
  apply (Permutation_in _ (Permutation_sym (sorted_reverse_perm _ _))) in Hin.
  destruct (finalize_rows _ _ _ Hrows _ Hin) as [[] | (b & Hb & Hf)].
  simpl in Hb, Hf. split.
  - assert (Hok : all_buckets counters_ok (l_tmp st)).
    { eapply (match_loop_keeps api p counters_ok); [| | exact Hloop].
      - intros; apply counters_kept.
      - constructor. }
    unfold all_buckets in Hok. rewrite Forall_forall in Hok.
    specialize (Hok _ Hb). simpl in Hok. unfold counters_ok in Hok.
    apply finalize_bucket_row in Hf. destruct Hf as (_ & _ & ->).
    apply py_round2_unit.
    apply (py_div_in_unit (Bucket.wins b) (Bucket.matches b)); [lia|].
    unfold py_div. destruct (Z.eqb_spec (Bucket.matches b) 0); [lia|].
    reflexivity.
  - intros Hnn.
    assert (Hok : all_buckets shares_ok (l_tmp st)).
    { eapply (match_loop_keeps api p shares_ok); [| | exact Hloop].
      - intros match_id m Hid Hm. apply shares_kept. eauto.
      - constructor. }
    unfold all_buckets in Hok. rewrite Forall_forall in Hok.
    specialize (Hok _ Hb). simpl in Hok.
    destruct Hok as (Og & Odd & Odt & Ovs & Okp).
    apply finalize_bucket_shares in Hf.
    destruct Hf as (g & dd & dt & vs & kp & Hg & Hdd & Hdt & Hvs & Hkp
                    & -> & -> & -> & -> & ->).
    do 4 (split; [apply py_round2_unit;
                  eapply py_mean_unit; [| eassumption]; assumption|]).
    apply py_round2_nonneg. eapply py_mean_nonneg; [| eassumption].
    assumption.
Qed.

(** ** [get_match_stats]: what one match changes *)

Lemma foldM_app {A B : Type} (f : A -> B -> result A) (l1 l2 : list B) (a : A) :
  foldM f (l1 ++ l2) a = (a' <- foldM f l1 a ;; foldM f l2 a').
Proof.
  revert a. induction l1 as [|x l1 IH]; intros a; [reflexivity|].
  simpl. destruct (f a x); [apply IH | reflexivity].
Qed.

(** X17: an iteration changes no bucket but those of the champions that the
    player's own roster entries name. *)
Theorem other_champions_untouched (p : string) (n i : Z) (m : MatchData)
    (st st' : Locals) (key : string)
    (Hbody : loop_body p n i m st = Ok st')
    (Hother : forall s, In s (team m 0) \/ In s (team m 1) ->
                        puuid s = p -> name (champion s) <> key) :
  tmp_find key (l_tmp st') = tmp_find key (l_tmp st).
Proof.
  unfold loop_body in Hbody.
  destruct (duration m <=? 5); [now inversion Hbody; subst|].
  inv_bind Hbody. rename a into t.
  destruct (degenerate _); [now inversion Hbody; subst|].
  inv_bind Hbody. rename a into tmp', Ha0 into Hc.
  inversion Hbody; subst st'; clear Hbody. simpl.
  unfold collect in Hc. revert Hc.
  apply (foldM_invariant_In
           (fun tmp => tmp_find key tmp = tmp_find key (l_tmp st)));
    [| reflexivity].
  intros tmp s tmp1 Hs Htmp Hstep. unfold collect_step in Hstep.
  destruct (String.eqb_spec (puuid s) p) as [Hp | _];
    [| now inversion Hstep; subst].
  inv_bind Hstep. inversion Hstep; subst tmp1.
  rewrite tmp_find_set_other; [assumption|].
  intros Heq. apply (Hother s); auto. destruct t; auto.
Qed.

(** X18: on a match that passes both filters and lists the player once on
    the player's team, the iteration adds one match to the bucket of the
    champion played, one win exactly when the player's team index is the
    winning one, the player's kills, deaths, assists and cs to the counters,
    and one to the count of qualifying matches. *)
Theorem qualifying_match_recorded (p : string) (n i : Z) (m : MatchData)
    (st st' : Locals) (s : Summoner) (l1 l2 : list Summoner)
    (Hlong : 5 < duration m)
    (Hroster : team m (team_of p m) = l1 ++ s :: l2)
    (Hs : puuid s = p)
    (Hl1 : on_roster p l1 = false)
    (Hl2 : on_roster p l2 = false)
    (Hfilter : degenerate (team_totals (team m (team_of p m))) = false)
    (Hbody : loop_body p n i m st = Ok st') :
  exists b',
    tmp_find (name (champion s)) (l_tmp st') = Some b'
    /\ Bucket.matches b'
       = Bucket.matches (tmp_get (name (champion s)) (l_tmp st)) + 1
    /\ Bucket.wins b'
       = Bucket.wins (tmp_get (name (champion s)) (l_tmp st))
         + (if Nat.eqb (team_of p m) (wining_team m) then 1 else 0)
    /\ Bucket.kills b'
       = Bucket.kills (tmp_get (name (champion s)) (l_tmp st))
         + kills (champion s)
    /\ Bucket.deaths b'
       = Bucket.deaths (tmp_get (name (champion s)) (l_tmp st))
         + deaths (champion s)
    /\ Bucket.assists b'
       = Bucket.assists (tmp_get (name (champion s)) (l_tmp st))
         + assists (champion s)
    /\ Bucket.cs b'
       = Bucket.cs (tmp_get (name (champion s)) (l_tmp st)) + cs (champion s)
    /\ l_valid_matches st' = l_valid_matches st + 1.
Proof.
  assert (Hon : on_roster p (team m (team_of p m)) = true).
  { rewrite Hroster. unfold on_roster. rewrite existsb_app. simpl.
    rewrite Hs, String.eqb_refl. now rewrite orb_true_r. }
  assert (Ht : find_team p m (l_puuid_team st) = Some (team_of p m)).
  { rewrite find_team_cases. unfold team_of in *.
    destruct (on_roster p (team m 1)); [reflexivity|]. now rewrite Hon. }
  unfold loop_body in Hbody.
  destruct (Z.leb_spec (duration m) 5) as [Hle|_]; [lia|].
  rewrite Ht in Hbody. cbn [read_local bind] in Hbody.
  rewrite Hfilter in Hbody. inv_bind Hbody. rename a into tmp', Ha into Hc.
  inversion Hbody; subst st'; clear Hbody. cbn [l_tmp l_valid_matches].
  unfold collect in Hc. rewrite Hroster, foldM_app in Hc.
  rewrite foldM_collect_absent in Hc by assumption. cbn [bind foldM] in Hc.
  inv_bind Hc. rename a into tmp1, Ha into Hstep.
  rewrite foldM_collect_absent in Hc by assumption.
  inversion Hc; subst tmp'; clear Hc.
  unfold collect_step in Hstep. rewrite Hs, String.eqb_refl in Hstep.
  inv_bind Hstep. rename a into b'. inversion Hstep; subst tmp1.
  exists b'. rewrite tmp_find_set_same. split; [reflexivity|].
  unfold record_summoner in Ha. do 5 inv_bind Ha.
  inversion Ha; subst b'; simpl.
  destruct (Nat.eqb (team_of p m) (wining_team m)); repeat split; lia.
Qed.

(** ** [analyze_player_match_history] *)

Lemma get_match_ids_none (s : Store.t) (rest : Api) (now : Z) (p : string) :
  Store.since s p (now - 365 * 86400) = [] ->
  get_match_ids s rest now p = Ok [].
Proof.
  intros Hnone. unfold get_match_ids, get_match_ids_fuel.
  change (assert_200 (match_ids_by_puuid (Store.api s rest) p
                        (now - 365 * 86400) None))
    with (Ok (Store.list_ids s p (now - 365 * 86400) None)).
  cbn [bind]. unfold Store.list_ids, Store.page.
  fold (Store.since s p (now - 365 * 86400)). now rewrite Hnone.
Qed.

(** X19: for a player with no ranked match in the last 365 days,
    [analyze_player_match_history] raises and writes nothing: the empty list
    of ids makes [get_match_stats] read the unassigned [start_time]. *)
Theorem analyze_without_matches (s : Store.t) (rest : Api)
    (by_riot_id : string -> string -> Response string) (now : Z)
    (name tag p : string)
    (Hpuuid : get_puuid by_riot_id name tag = Ok p)
    (Hnone : Store.since s p (now - 365 * 86400) = []) :
  (exists e,
     analyze_player_match_history s rest by_riot_id now name tag = Err e)
  /\ (forall summoner rank,
        get_summoner_name rest p = Ok summoner ->
        get_summoner_rank rest p = Ok rank ->
        analyze_player_match_history s rest by_riot_id now name tag
        = Err (UnboundLocalError "start_time")).
Proof.
  unfold analyze_player_match_history. rewrite Hpuuid. cbn [bind].
  rewrite (get_match_ids_none s rest now p Hnone). cbn [bind].
  unfold get_match_stats. cbn [match_loop bind].
  change (get_summoner_name (Store.api s rest) p)
    with (get_summoner_name rest p).
  change (get_summoner_rank (Store.api s rest) p)
    with (get_summoner_rank rest p).
  split.
  - destruct (get_summoner_name rest p); simpl; [| eauto].
    destruct (get_summoner_rank rest p); simpl; eauto.
  - intros summoner rank -> ->. reflexivity.
Qed.

Lemma fetch_stored (s : Store.t) (rest : Api) (e : Store.entry)
    (m : MatchData) :
  NoDup (map Store.id_of s) -> In e s ->
  fetch (Store.api s rest) (Store.id_of e) = Ok m ->
  strftime rest (gameStartTimestamp (Store.raw e)) = Ok (start_time m).
Proof.
  intros Hn He H. unfold fetch in H.
  rewrite (get_match_data_stored s rest e Hn He) in H. cbn [bind] in H.
  apply format_match_data_inv in H.
  destruct H as (win0 & others & _ & _ & Hst & _). exact Hst.
Qed.

Lemma last_map {A B : Type} (f : A -> B) (l : list A) (d : A) :
  last (map f l) (f d) = f (last l d).
Proof.
  induction l as [|y l IH]; [reflexivity|].
  destruct l as [|z l]; [reflexivity|]. exact IH.
Qed.

(** X20: when [analyze_player_match_history] writes a result, its
    [end_time] is the formatted start of the first id fetched and its
    [start_time] that of the last one, two ranked matches of the player in
    the window with the second not newer than the first; when no two of the
    player's matches start in the same second they are the newest and the
    oldest of the window. *)
Theorem analyze_window (s : Store.t) (rest : Api)
    (by_riot_id : string -> string -> Response string) (now : Z)
    (name tag p : string) (r : MatchStats)
    (Hstore : NoDup (map Store.id_of s))
    (Hpuuid : get_puuid by_riot_id name tag = Ok p)
    (Hrun : analyze_player_match_history s rest by_riot_id now name tag
            = Ok r) :
  exists newest oldest,
    In newest (Store.since s p (now - 365 * 86400))
    /\ In oldest (Store.since s p (now - 365 * 86400))
    /\ strftime rest (gameStartTimestamp (Store.raw newest))
       = Ok (Metadata.end_time (metadata r))
    /\ strftime rest (gameStartTimestamp (Store.raw oldest))
       = Ok (Metadata.start_time (metadata r))
    /\ gameStartTimestamp (Store.raw oldest)
       <= gameStartTimestamp (Store.raw newest)
    /\ (NoDup (map Store.start_sec (Store.mine p s)) ->
        forall e, In e (Store.since s p (now - 365 * 86400)) ->
          gameStartTimestamp (Store.raw oldest)
          <= gameStartTimestamp (Store.raw e)
          <= gameStartTimestamp (Store.raw newest)).
Proof.
  unfold analyze_player_match_history in Hrun.
  rewrite Hpuuid in Hrun. cbn [bind] in Hrun.
  destruct (get_match_ids_stored s rest now p Hstore)
    as (acc & Hids & Hsorted & Hin & Hnd & Hcov).
  rewrite Hids in Hrun. cbn [bind] in Hrun.
  inv_bind Hrun. rename a into r0, Ha into Hstats.
  inversion Hrun; subst r; clear Hrun. unfold save_to_json.
  unfold get_match_stats in Hstats.
  inv_bind Hstats. rename a into st, Ha into Hloop.
  do 2 inv_bind Hstats.
  inv_bind Hstats. rename a1 into s_time, Ha1 into Hst.
  inv_bind Hstats. rename a1 into e_time, Ha1 into Het.
  inv_bind Hstats. inversion Hstats; subst r0; clear Hstats.
  cbn [metadata Metadata.end_time Metadata.start_time].
  destruct acc as [|e1 acc].
  { simpl in Hloop. inversion Hloop; subst st. discriminate. }
  assert (Hstored : forall e, In e (e1 :: acc) -> In e s)
    by (intros e He; now apply (since_stored s p (now - 365 * 86400)), Hin).
  cbn [map] in Hloop.
  change (Store.id_of e1 :: map Store.id_of acc)
    with (map Store.id_of (e1 :: acc)) in Hloop.
  rewrite length_map in Hloop.
  pose proof (match_loop_window (Store.api s rest) p (Store.id_of e1)
                (map Store.id_of acc) st) as Hw.
  cbn [List.length] in Hw. rewrite length_map in Hw.
  specialize (Hw Hloop).
  destruct Hw as (m_first & m_last & Hfirst & Hlast & He & Hs).
  change (Store.id_of e1 :: map Store.id_of acc)
    with (map Store.id_of (e1 :: acc)) in Hlast.
  rewrite last_map in Hlast.
  assert (Hlast_in : In (last (e1 :: acc) e1) (e1 :: acc)) by apply last_In.
  apply (fetch_stored s rest e1 m_first Hstore) in Hfirst;
    [| apply Hstored; now left].
  apply (fetch_stored s rest _ m_last Hstore) in Hlast; [| now apply Hstored].
  rewrite He in Het. rewrite Hs in Hst. simpl in Het, Hst.
  inversion Het; subst e_time. inversion Hst; subst s_time.
  assert (Hrefl : forall x : Store.entry, desc Store.ts_key x x)
    by (intros x; apply desc_ts; lia).
  assert (Hlow : forall e, In e (e1 :: acc) ->
             gameStartTimestamp (Store.raw (last (e1 :: acc) e1))
             <= gameStartTimestamp (Store.raw e)).
  { intros e He'. apply desc_ts.
    now apply (sorted_last _ acc e1 e1 Hrefl Hsorted). }
  assert (Hhigh : forall e, In e (e1 :: acc) ->
             gameStartTimestamp (Store.raw e)
             <= gameStartTimestamp (Store.raw e1)).
  { intros e [<- | He']; [lia|]. apply desc_ts.
    apply StronglySorted_inv in Hsorted. destruct Hsorted as [_ Hall].
    rewrite Forall_forall in Hall. now apply Hall. }
  exists e1, (last (e1 :: acc) e1).
  split; [apply Hin; now left|]. split; [now apply Hin|].
  split; [assumption|]. split; [assumption|].
  split; [apply Hhigh; assumption|].
  intros Hsec e Hewin. specialize (Hcov Hsec e Hewin).
  split; [now apply Hlow | now apply Hhigh].
Qed.

(** ** The further properties on the sample data *)

Lemma format_match_data_rosters_witness :
  Forall2 carries (filter blue (participants (Store.raw Demo.g1)))
          (team (Demo.fmt Demo.g1) 0)
  /\ Forall2 carries (filter red (participants (Store.raw Demo.g1)))
             (team (Demo.fmt Demo.g1) 1)
  /\ (List.length (team (Demo.fmt Demo.g1) 0)
      + List.length (team (Demo.fmt Demo.g1) 1)
      = List.length (participants (Store.raw Demo.g1)))%nat.
Proof.
  apply (format_match_data_rosters Demo.api).
  vm_compute. reflexivity.
Defined.

Lemma format_match_data_totals_witness :
  team_totals (team (Demo.fmt Demo.g1) 0) = mkTotals 15000 30000 10000 50 20
  /\ team_totals (team (Demo.fmt Demo.g1) 1) = mkTotals 9000 8000 30000 25 5.
Proof.
  apply (format_match_data_totals Demo.api (Store.raw Demo.g1)).
  vm_compute. reflexivity.
Defined.

Lemma format_match_data_roles_witness :
  position (champion (nth 0 (team (Demo.fmt Demo.g1) 0)
                        Samples.blank_summoner)) <> "utility"
  /\ lower (position (champion (nth 0 (team (Demo.fmt Demo.g1) 0)
                                  Samples.blank_summoner)))
     = position (champion (nth 0 (team (Demo.fmt Demo.g1) 0)
                             Samples.blank_summoner)).
Proof.
  apply (format_match_data_roles Demo.api (Store.raw Demo.g1)
           (Demo.fmt Demo.g1)).
  - vm_compute. reflexivity.
  - left. vm_compute. left. reflexivity.
Defined.

Lemma format_match_data_returns_witness :
  exists m, format_match_data Demo.api (Store.raw Demo.g1) = Ok m.
Proof.
  apply (format_match_data_returns Demo.api (Store.raw Demo.g1)
           "1700000300500" "15.11.1"
           ["15.10.1"] [(103, "Ahri"); (222, "Jinx"); (64, "Lee Sin")]).
  - reflexivity.
  - reflexivity.
  - reflexivity.
  - discriminate.
  - reflexivity.
Defined.

Lemma format_match_data_fallback_fails_witness :
  format_match_data Samples.account_down Samples.old_match
  = Err (AssertionError 503).
Proof.
  apply (format_match_data_fallback_fails Samples.account_down
           Samples.old_match "1500000000000" "15.11.1" ["15.10.1"]
           [(103, "Ahri"); (222, "Jinx"); (64, "Lee Sin")] 503).
  - reflexivity.
  - reflexivity.
  - reflexivity.
  - discriminate.
  - intros q. reflexivity.
  - reflexivity.
Defined.

Lemma format_match_data_patch_witness :
  patch (Demo.fmt Demo.g1) = "15.11".
Proof.
  apply (proj1 (format_match_data_patch Demo.api (Store.raw Demo.g1)
                  (Demo.fmt Demo.g1) ltac:(vm_compute; reflexivity))
           "15" "11" "682.1234"); reflexivity.
Defined.

Lemma get_champion_name_catalog_witness :
  get_champion_name Demo.api 999 "9.1" = Ok ""
  /\ get_champion_name Demo.api 222 "9.1" = Ok "Jinx".
Proof.
  destruct (get_champion_name_catalog Demo.api 999 "9.1" "15.11.1"
              ["15.10.1"] [(103, "Ahri"); (222, "Jinx"); (64, "Lee Sin")]
              eq_refl eq_refl) as [Hmiss _].
  destruct (get_champion_name_catalog Demo.api 222 "9.1" "15.11.1"
              ["15.10.1"] [(103, "Ahri"); (222, "Jinx"); (64, "Lee Sin")]
              eq_refl eq_refl) as [_ Hhit].
  split.
  - apply Hmiss. simpl. intros [H | [H | [H | []]]]; discriminate.
  - apply (Hhit [(103, "Ahri")] [(64, "Lee Sin")] "Jinx"); [reflexivity|].
    simpl. intros [H | []]. discriminate.
Defined.

Lemma find_team_index_witness :
  find_team "me" (Demo.fmt Demo.g1) None = Some 0%nat
  /\ find_team "foe" (Demo.fmt Demo.g1) (Some 0%nat) = Some 1%nat
  /\ find_team "me" (Demo.fmt Demo.g4) (Some 1%nat) = Some 1%nat.
Proof.
  split; [| split].
  - apply (proj1 (proj2 (find_team_index "me" (Demo.fmt Demo.g1) None)));
      vm_compute; reflexivity.
  - apply (proj1 (find_team_index "foe" (Demo.fmt Demo.g1) (Some 0%nat))).
    vm_compute. reflexivity.
  - apply (proj2 (proj2 (find_team_index "me" (Demo.fmt Demo.g4)
                           (Some 1%nat))));
      vm_compute; reflexivity.
Defined.

Lemma get_match_stats_returns_witness :
  exists r, get_match_stats Demo.api "me" ["NA1_1"; "NA1_2"] = Ok r.
Proof.
  apply (get_match_stats_returns Demo.api "me" "NA1_1" ["NA1_2"]
           "AD KING#LYON" "GOLD II").
  - intros match_id [<- | [<- | []]].
    + exists (Demo.fmt Demo.g1). split; vm_compute; reflexivity.
    + exists (Demo.fmt Demo.g2). split; vm_compute; reflexivity.
  - reflexivity.
  - reflexivity.
Defined.

Lemma get_match_stats_fails_fast_witness :
  exists e, get_match_stats Demo.api "me" ["NA1_1"; "NA1_404"] = Err e.
Proof.
  apply (proj1 (get_match_stats_fails_fast Demo.api "me"
                  ["NA1_1"; "NA1_404"]) "NA1_404" (AssertionError 404)).
  - right. left. reflexivity.
  - vm_compute. reflexivity.
Defined.

Lemma champions_unique_witness :
  NoDup (map fst (champions Demo.report))
  /\ Metadata.unique_champions (metadata Demo.report)
     = Z.of_nat (List.length (champions Demo.report)).
Proof.
  apply (champions_unique Demo.api "me" Demo.season).
  vm_compute. reflexivity.
Defined.

Lemma qualifying_matches_bounded_witness :
  0 <= Metadata.matches (metadata Demo.report)
    <= Z.of_nat (List.length Demo.season).
Proof.
  apply (qualifying_matches_bounded Demo.api "me").
  vm_compute. reflexivity.
Defined.

Lemma qualifying_matches_counted_witness :
  exists ms,
    Forall2 (fun match_id m => fetch Demo.api match_id = Ok m) Demo.season ms
    /\ (forallb (present "me") ms = true ->
        Metadata.matches (metadata Demo.report)
        = Z.of_nat (List.length (filter (qualifies "me") ms))).
Proof.
  apply (qualifying_matches_counted Demo.api "me").
  vm_compute. reflexivity.
Defined.

Lemma champion_matches_add_up_witness :
  total_row_matches (champions Demo.report)
  = Metadata.matches (metadata Demo.report).
Proof.
  apply (champion_matches_add_up Demo.api "me" Demo.season).
  - intros match_id m [<- | [<- | [<- | []]]] Hm;
      vm_compute in Hm; injection Hm as <-; vm_compute; reflexivity.
  - vm_compute. reflexivity.
Defined.

Lemma ties_keep_first_seen_order_witness :
  map fst (filter (fun kv => key_eqb (sort_key kv) (1, 0))
                  (champions Samples.tied_report))
  = map fst (filter (fun kv => key_eqb (bucket_key kv) (1, 0))
                    (l_tmp Samples.after_tied))
  /\ map fst (filter (fun kv => key_eqb (bucket_key kv) (1, 0))
                     (l_tmp Samples.after_tied))
     = ["Jinx"; "Ahri"].
Proof.
  split; [| vm_compute; reflexivity].
  apply (ties_keep_first_seen_order Demo.api "me" Samples.tied).
  - vm_compute. reflexivity.
  - vm_compute. reflexivity.
Defined.

Lemma reported_rates_in_unit_witness :
  in_unit (Row.win_rate (snd (nth 0 (champions Demo.report) Demo.blank_row))).
Proof.
  apply (proj1 (reported_rates_in_unit Demo.api "me" Demo.season Demo.report
                  "Ahri" _ ltac:(vm_compute; reflexivity)
                  ltac:(vm_compute; left; reflexivity))).
Defined.

Lemma other_champions_untouched_witness :
  tmp_find "Jinx" (l_tmp Samples.after_g5)
  = tmp_find "Jinx" (l_tmp Demo.after_two).
Proof.
  apply (other_champions_untouched "me" 3 2 (Demo.fmt Demo.g5)).
  - vm_compute. reflexivity.
  - intros s Hs Hp. vm_compute in Hs.
    destruct Hs as [[<- | [<- | []]] | [<- | []]];
      vm_compute in Hp |- *; discriminate.
Defined.

Lemma qualifying_match_recorded_witness :
  exists b',
    tmp_find "Ahri" (l_tmp Samples.after_g5) = Some b'
    /\ Bucket.matches b' = Bucket.matches (tmp_get "Ahri" (l_tmp Demo.after_two)) + 1
    /\ Bucket.wins b' = Bucket.wins (tmp_get "Ahri" (l_tmp Demo.after_two)) + 0
    /\ Bucket.kills b' = Bucket.kills (tmp_get "Ahri" (l_tmp Demo.after_two)) + 0
    /\ Bucket.deaths b' = Bucket.deaths (tmp_get "Ahri" (l_tmp Demo.after_two)) + 1
    /\ Bucket.assists b' = Bucket.assists (tmp_get "Ahri" (l_tmp Demo.after_two)) + 2
    /\ Bucket.cs b' = Bucket.cs (tmp_get "Ahri" (l_tmp Demo.after_two)) + 160
    /\ l_valid_matches Samples.after_g5 = l_valid_matches Demo.after_two + 1.
Proof.
  apply (qualifying_match_recorded "me" 3 2 (Demo.fmt Demo.g5) Demo.after_two
           Samples.after_g5
           (nth 0 (team (Demo.fmt Demo.g5) 0) Samples.blank_summoner)
           [] (skipn 1 (team (Demo.fmt Demo.g5) 0)));
    vm_compute; reflexivity.
Defined.

Lemma analyze_without_matches_witness :
  analyze_player_match_history Demo.store Demo.offline Samples.by_riot_id
    1700000400 "nobody" "x" = Err (UnboundLocalError "start_time").
Proof.
  apply (proj2 (analyze_without_matches Demo.store Demo.offline
                  Samples.by_riot_id 1700000400 "nobody" "x" "stranger"
                  eq_refl ltac:(vm_compute; reflexivity))
           "AD KING#LYON" "GOLD II"); reflexivity.
Defined.

Lemma analyze_window_witness :
  exists newest oldest,
    In newest (Store.since Samples.history "me" (1700000400 - 365 * 86400))
    /\ In oldest (Store.since Samples.history "me" (1700000400 - 365 * 86400))
    /\ strftime Demo.offline (gameStartTimestamp (Store.raw newest))
       = Ok (Metadata.end_time (metadata Samples.outcome))
    /\ strftime Demo.offline (gameStartTimestamp (Store.raw oldest))
       = Ok (Metadata.start_time (metadata Samples.outcome))
    /\ gameStartTimestamp (Store.raw oldest)
       <= gameStartTimestamp (Store.raw newest)
    /\ (NoDup (map Store.start_sec (Store.mine "me" Samples.history)) ->
        forall e,
          In e (Store.since Samples.history "me" (1700000400 - 365 * 86400)) ->
          gameStartTimestamp (Store.raw oldest)
          <= gameStartTimestamp (Store.raw e)
          <= gameStartTimestamp (Store.raw newest)).
Proof.
  apply (analyze_window Samples.history Demo.offline Samples.by_riot_id
           1700000400 "AD KING" "LYON" "me" Samples.outcome).
  - apply nodupb_NoDup. vm_compute. reflexivity.
  - reflexivity.
  - vm_compute. reflexivity.
Defined.
